(** * SparrowTrack: the attendance engine of [Backend/attendance-handler.js]

    A shallow embedding of [AttendanceHandler] (time arithmetic, the punch
    state machine, status, history, summaries, the working-day count and the
    CSV export), of [DataManager] (the items of [localStorage], backup and
    statistics) and of [UserHandler] (validation, registration, sessions,
    profiles and deactivation), followed by their properties.

    Modelling conventions.
    - A JavaScript number is [NaN] or a rational ([Q]), and every arithmetic
      operation of the code rounds its result to binary64 ([round64]: a
      53-bit significand, ties to even).  The exponent range of binary64 is
      not modelled: the infinities and gradual underflow, which no time value
      and no count reaches, do not occur.  A template literal prints an
      integer as [Number::toString] does ([show]).
    - A string is a sequence of code units below 256.
    - The clock, the host's [Date] parser and formatter, and the outcome of
      [localStorage.setItem] are inputs of the operations.
    - A JavaScript object used as a dictionary is a [gmap] of its own
      properties, in a realm whose [Object.prototype] is as the language
      defines it.  A lookup of a key that is the name of a property
      inherited from [Object.prototype] ([inherited_key]) is outside this
      model; a property that depends on such a lookup missing says so in a
      hypothesis.
    - A record field that holds a string may be missing; [workingHours] may
      be missing, [null] or any number.  Fields of other types are not
      modelled. *)

From Stdlib Require Import QArith Qround Qminmax Qabs Qpower Lia Lqa Ascii String.
From stdpp Require Import gmap strings list fin_maps pretty sorting.

Local Open Scope Z_scope.

(** ** Numbers *)

Inductive number : Type :=
| Num (q : Q)
| NaN.

(** [Math.floor] and [Math.round] (ties go towards +infinity). *)
Definition Math_floor (x : Q) : Z := Qfloor x.
Definition Math_round (x : Q) : Z := Qfloor (x + (1 # 2)).

(** [Math.max(0, x)]. *)
Definition Math_max0 (x : number) : number :=
  match x with
  | Num q => Num (Qmax 0 q)
  | NaN => NaN
  end.

(** ** binary64 *)

(** The integer nearest to [y]; of two that are equally near, the even one. *)
Definition nearest_even (y : Q) : Z :=
  let f := Qfloor y in
  match (y - inject_Z f ?= 1 # 2)%Q with
  | Lt => f
  | Gt => f + 1
  | Eq => if Z.even f then f else f + 1
  end.

(** The binary exponent of [x > 0]: 2^e <= x < 2^(e+1). *)
Definition ilog2 (x : Q) : Z :=
  let e := Z.log2 (Qnum x) - Z.log2 (Zpos (Qden x)) in
  if Qle_bool (2 ^ e) x then e else e - 1.

(** [x > 0] rounded to a significand of 53 bits. *)
Definition round_pos (x : Q) : Q :=
  let ulp := (2 ^ (ilog2 x - 52))%Q in
  (inject_Z (nearest_even (x / ulp)) * ulp)%Q.

(** The binary64 number nearest to [x], ties to even: what an arithmetic
    operation returns when its exact result is [x]. *)
Definition round64 (x : Q) : Q :=
  Qred (match (x ?= 0)%Q with
        | Eq => 0
        | Gt => round_pos x
        | Lt => - round_pos (- x)
        end)%Q.

(** ** Printing a number

    [Number::toString] on an integral number: the decimal integer with the
    fewest significant digits that reads back as the number (the nearest
    one, if several); in plain digits below 10^21 and in exponent notation
    from there on. *)

(** [v] reads back as the number [x]. *)
Definition reads_as (x v : Z) : bool :=
  Qeq_bool (round64 (inject_Z v)) (round64 (inject_Z x)).

(** Of the two multiples of [p] next to [x], the one nearer to [x] among
    those that read back as [x]. *)
Definition nearest_multiple (x p : Z) : option Z :=
  let lo := x / p * p in
  let hi := lo + p in
  match reads_as x lo, reads_as x hi with
  | true, true =>
      Some (if x - lo <? hi - x then lo
            else if hi - x <? x - lo then hi
            else if Z.even (x / p) then lo else hi)
  | true, false => Some lo
  | false, true => Some hi
  | false, false => None
  end.

(** One significant digit more at each turn, [p] being the weight of the
    last digit kept. *)
Fixpoint shortest_from (fuel : nat) (x p : Z) : Z :=
  match fuel with
  | O => x
  | S fuel' =>
      match nearest_multiple x p with
      | Some v => v
      | None => shortest_from fuel' x (p / 10)
      end
  end.

Definition shortest (x : Z) : Z :=
  let n := String.length (pretty x) in
  shortest_from n x (10 ^ (Z.of_nat n - 1)).

Fixpoint strip_zeros (s : string) : string :=
  match s with
  | EmptyString => EmptyString
  | String c s' =>
      match strip_zeros s' with
      | EmptyString => if Ascii.eqb c "0" then EmptyString else String c EmptyString
      | t => String c t
      end
  end.

Definition exponential (v : Z) : string :=
  let digits := pretty v in
  let exponent := pretty (Z.of_nat (String.length digits) - 1) in
  match strip_zeros digits with
  | String d EmptyString => String d EmptyString +:+ "e+" +:+ exponent
  | String d rest => String d EmptyString +:+ "." +:+ rest +:+ "e+" +:+ exponent
  | EmptyString => digits
  end.

(** Below 2^53 every integer is a binary64 number and its own shortest
    decimal. *)
Definition show_magnitude (x : Z) : string :=
  if x <? 2 ^ 53 then pretty x
  else let v := shortest x in
       if v <? 10 ^ 21 then pretty v else exponential v.

(** [`${n}`] for an integral number [n]. *)
Definition show (n : Z) : string :=
  if n <? 0 then "-" +:+ show_magnitude (- n) else show_magnitude n.

(** [x < y] on rationals, as a boolean. *)
Definition Qltb (x y : Q) : bool := negb (Qle_bool y x).

(** ** TimeMath *)

Module TimeMath.

Section WithHost.
(** [new Date(s).getTime()]: milliseconds since the epoch, [None] for an
    Invalid Date. *)
Variable Date_parse : string → option Z.

(** [end - start] on two [Date] objects: the difference of the two time
    values, as a binary64 number. *)
Definition Date_sub (e s : option Z) : number :=
  match e, s with
  | Some e, Some s => Num (round64 (inject_Z (e - s)))
  | _, _ => NaN
  end.

(** [x / d] for an integer [d]. *)
Definition div_number (x : number) (d : Z) : number :=
  match x with
  | Num q => Num (round64 (q / inject_Z d))
  | NaN => NaN
  end.

Definition calculateHours (startTime endTime : string) : number :=
  let start := Date_parse ("2000-01-01 " +:+ startTime) in
  let end_ := Date_parse ("2000-01-01 " +:+ endTime) in
  Math_max0 (div_number (Date_sub end_ start) (1000 * 60 * 60)).
End WithHost.

Definition formatHours (hours : number) : string :=
  match hours with
  | NaN => "NaNh NaNm"
  | Num h =>
      let wholeHours := Math_floor h in
      let minutes := Math_round (round64 (round64 (h - inject_Z wholeHours) * 60)) in
      if wholeHours =? 0 then
        show minutes +:+ " minutes"
      else if minutes =? 0 then
        show wholeHours +:+ " " +:+ (if wholeHours =? 1 then "hour" else "hours")
      else
        show wholeHours +:+ "h " +:+ show minutes +:+ "m"
  end.

End TimeMath.

(** ** A reference host

    A concrete [Date] for the two string shapes the program itself produces,
    [YYYY-MM-DD] and [YYYY-MM-DD HH:MM:SS] with a year of four digits, on a
    host whose local time zone is UTC.  It is used to run the engine on
    concrete inputs; the theorems about the engine hold for every host. *)

Module RefHost.

Definition digit (c : ascii) : option Z :=
  let n := Z.of_N (N_of_ascii c) in
  if (48 <=? n) && (n <=? 57) then Some (n - 48) else None.

Fixpoint digits_acc (acc : Z) (l : list ascii) : option Z :=
  match l with
  | [] => Some acc
  | c :: l' =>
      match digit c with
      | Some d => digits_acc (10 * acc + d) l'
      | None => None
      end
  end.

Definition digits (l : list ascii) : option Z :=
  match l with
  | [] => None
  | _ => digits_acc 0 l
  end.

Definition is_leap (y : Z) : bool :=
  ((y mod 4 =? 0) && negb (y mod 100 =? 0)) || (y mod 400 =? 0).

Definition days_in_month (y m : Z) : Z :=
  if m =? 2 then (if is_leap y then 29 else 28)
  else if (m =? 4) || (m =? 6) || (m =? 9) || (m =? 11) then 30
  else 31.

(** Days from 1970-01-01 to the civil date [y]-[m]-[d]. *)
Definition days_from_civil (y m d : Z) : Z :=
  let y' := if m <=? 2 then y - 1 else y in
  let era := y' / 400 in
  let yoe := y' - era * 400 in
  let mp := if m <=? 2 then m + 9 else m - 3 in
  let doy := (153 * mp + 2) / 5 + d - 1 in
  let doe := yoe * 365 + yoe / 4 - yoe / 100 + doy in
  era * 146097 + doe - 719468.

(** The civil date of a day number. *)
Definition civil_from_days (z : Z) : Z * Z * Z :=
  let z' := z + 719468 in
  let era := z' / 146097 in
  let doe := z' - era * 146097 in
  let yoe := (doe - doe / 1460 + doe / 36524 - doe / 146096) / 365 in
  let doy := doe - (365 * yoe + yoe / 4 - yoe / 100) in
  let mp := (5 * doy + 2) / 153 in
  let d := doy - (153 * mp + 2) / 5 + 1 in
  let m := if mp <? 10 then mp + 3 else mp - 9 in
  let y := yoe + era * 400 in
  (if m <=? 2 then y + 1 else y, m, d).

Definition ms_per_day : Z := 86400000.

Definition parse_ymd (l : list ascii) : option Z :=
  match l with
  | [y1; y2; y3; y4; c1; m1; m2; c2; d1; d2] =>
      match digits [y1; y2; y3; y4], digits [m1; m2], digits [d1; d2] with
      | Some y, Some m, Some d =>
          if Ascii.eqb c1 "-" && Ascii.eqb c2 "-"
             && (1 <=? m) && (m <=? 12) && (1 <=? d) && (d <=? days_in_month y m)
          then Some (days_from_civil y m d)
          else None
      | _, _, _ => None
      end
  | _ => None
  end.

Definition parse_hms (l : list ascii) : option Z :=
  match l with
  | [h1; h2; c1; m1; m2; c2; s1; s2] =>
      match digits [h1; h2], digits [m1; m2], digits [s1; s2] with
      | Some h, Some m, Some s =>
          if Ascii.eqb c1 ":" && Ascii.eqb c2 ":" && (h <? 24) && (m <? 60) && (s <? 60)
          then Some (1000 * (3600 * h + 60 * m + s))
          else None
      | _, _, _ => None
      end
  | _ => None
  end.

Definition Date_parse (s : string) : option Z :=
  let l := list_ascii_of_string s in
  match parse_ymd l with
  | Some days => Some (days * ms_per_day)
  | None =>
      match parse_ymd (take 10 l), drop 10 l with
      | Some days, " "%char :: t =>
          match parse_hms t with
          | Some ms => Some (days * ms_per_day + ms)
          | None => None
          end
      | _, _ => None
      end
  end.

Definition pad (w : nat) (n : Z) : string :=
  let s := show n in
  string_of_list_ascii (replicate (w - String.length s) "0"%char) +:+ s.

(** [d.toLocaleDateString('en-CA')], for the years 1000 to 9999. *)
Definition toLocaleDateString (d : option Z) : string :=
  match d with
  | None => "Invalid Date"
  | Some ms =>
      let '(y, m, dd) := civil_from_days (ms / ms_per_day) in
      pad 4 y +:+ "-" +:+ pad 2 m +:+ "-" +:+ pad 2 dd
  end.

(** A time value lies within 100 000 000 days of the epoch; a [Date] made
    from anything else is an Invalid Date. *)
Definition TimeClip (time : Z) : option Z :=
  if Z.abs time <=? 8640000000000000 then Some time else None.

(** A copy of [d] moved by [n] days: [c.setDate(d.getDate() + n)]. *)
Definition Date_plusDays (d : option Z) (n : Z) : option Z :=
  match d with
  | Some ms => TimeClip (ms + n * ms_per_day)
  | None => None
  end.

(** [new Date(year, monthIndex, day)]. *)
Definition Date_ymd (year monthIndex day : Z) : option Z :=
  let year := if (0 <=? year) && (year <=? 99) then 1900 + year else year in
  let months := year * 12 + monthIndex in
  TimeClip ((days_from_civil (months / 12) (months mod 12 + 1) 1 + (day - 1)) * ms_per_day).

End RefHost.

(** ** Values stored in records *)

(** A field that holds a string or is missing ([null] and [undefined] are
    not told apart: the engine only tests such a field for truthiness). *)
Definition truthy (v : option string) : bool :=
  match v with
  | Some s => negb (String.eqb s "")
  | None => false
  end.

(** What the [workingHours] field may hold. *)
Inductive numval : Type :=
| VUndefined
| VNull
| VNumber (n : number).

Definition ToNumber (v : numval) : number :=
  match v with
  | VUndefined => NaN
  | VNull => Num 0
  | VNumber n => n
  end.

(** [v || 0]: every falsy value ([undefined], [null], [NaN], zero) gives 0,
    so the result is a real number. *)
Definition or_zero (v : numval) : Q :=
  match v with
  | VNumber (Num q) => if Qeq_bool q 0 then 0%Q else q
  | _ => 0%Q
  end.

(** [x < y] and [x >= y] on numbers; a comparison with [NaN] is false. *)
Definition number_lt (x y : number) : bool :=
  match x, y with
  | Num a, Num b => Qltb a b
  | _, _ => false
  end.

Definition number_ge (x y : number) : bool :=
  match x, y with
  | Num a, Num b => Qle_bool b a
  | _, _ => false
  end.

(** [String.prototype.trim]. *)
Definition is_whitespace (c : ascii) : bool :=
  let n := N_of_ascii c in
  (((9 <=? n) && (n <=? 13)) || (n =? 32) || (n =? 160))%N.

Fixpoint trimStart (s : string) : string :=
  match s with
  | EmptyString => EmptyString
  | String c s' => if is_whitespace c then trimStart s' else s
  end.

Fixpoint trimEnd (s : string) : string :=
  match s with
  | EmptyString => EmptyString
  | String c s' =>
      match trimEnd s' with
      | EmptyString => if is_whitespace c then EmptyString else String c EmptyString
      | t => String c t
      end
  end.

Definition trim (s : string) : string := trimEnd (trimStart s).

(** ** Data model *)

Module Rec.
Record AttendanceRecord : Type := mk {
  date : string;
  punchIn : option string;
  punchInTimestamp : option string;
  punchOut : option string;
  punchOutTimestamp : option string;
  workingHours : numval;
  notes : option string
}.
End Rec.

Abbreviation AttendanceRecord := Rec.AttendanceRecord.

(** user email -> date -> record *)
Abbreviation Records := (gmap string (gmap string AttendanceRecord)).

(** ** DataManager *)

Module DataManager.

(** The [sparrowtrack_attendance] item of [localStorage], as the mapping it
    parses to; [None] when the item is missing or does not parse. *)
Definition Storage : Type := option Records.

(** [JSON.parse(JSON.stringify(records))]: [NaN] is written as [null]. *)
Definition json_numval (v : numval) : numval :=
  match v with
  | VNumber NaN => VNull
  | _ => v
  end.

Definition json_record (r : AttendanceRecord) : AttendanceRecord :=
  Rec.mk (Rec.date r) (Rec.punchIn r) (Rec.punchInTimestamp r) (Rec.punchOut r)
         (Rec.punchOutTimestamp r) (json_numval (Rec.workingHours r)) (Rec.notes r).

Definition JSON_roundtrip (records : Records) : Records :=
  fmap (M := gmap string) (fmap (M := gmap string) json_record) records.

Definition getAttendanceRecords (st : Storage) : Records :=
  match st with
  | Some records => records
  | None => ∅
  end.

(** [setItem_ok] tells whether [localStorage.setItem] returned normally. *)
Definition setAttendanceRecords (setItem_ok : bool) (records : Records) (st : Storage)
  : bool * Storage :=
  if setItem_ok then (true, Some (JSON_roundtrip records)) else (false, st).

End DataManager.

(** ** AttendanceHandler *)

(** One reading of the clock for each of [getCurrentDate()],
    [getCurrentTime()] and [new Date().toISOString()], and the outcome of the
    store write, for one call of an operation. *)
Record Env : Type := {
  getCurrentDate : string;
  getCurrentTime : string;
  toISOString : string;
  setItem_ok : bool
}.

Record PunchInResult : Type := {
  pi_success : bool;
  pi_message : string;
  pi_punchInTime : option string;
  pi_date : option string
}.

Record PunchOutResult : Type := {
  po_success : bool;
  po_message : string;
  po_punchOutTime : option string;
  po_workingHours : option number;
  po_formattedHours : option string;
  po_date : option string
}.

Module Entry.
(** An element of the array built by [getAttendanceHistory]. *)
Record HistoryEntry : Type := mk {
  date : string;
  formattedDate : string;
  punchIn : option string;
  punchOut : option string;
  workingHours : Q;
  formattedHours : string;
  notes : string;
  status : string
}.
End Entry.

Abbreviation HistoryEntry := Entry.HistoryEntry.

(** The aggregates of a weekly or monthly summary.  The fields that name the
    period (weekStart, weekEnd, month, year, monthName) and the calendar
    figure workingDaysInMonth are left out; [fullDays] is [None] in a weekly
    summary. *)
Record Summary : Type := {
  totalHours : Q;
  formattedTotalHours : string;
  averageHours : Q;
  formattedAverageHours : string;
  daysWorked : Z;
  daysPresent : Z;
  fullDays : option Z;
  records : list HistoryEntry
}.

(** [Array.prototype.sort(cmp)]: a merge sort that puts [a] before [b]
    unless [cmp(a, b) > 0]. *)
Definition is_positive (x : number) : bool :=
  match x with
  | Num q => Qltb 0 q
  | NaN => false
  end.

Definition precedes {A : Type} (cmp : A → A → number) : relation A :=
  fun a b => is_positive (cmp a b) = false.

#[global] Instance precedes_dec {A : Type} (cmp : A → A → number) (a b : A)
  : Decision (precedes cmp a b) := decide (is_positive (cmp a b) = false).

Definition Array_sort {A : Type} (cmp : A → A → number) (l : list A) : list A :=
  merge_sort (precedes cmp) l.

(** The entries of [obj] in the order [for (key in obj)] visits them.  The
    engine sorts what it collects, and the properties below hold for every
    visiting order. *)
Definition for_in {A : Type} (obj : gmap string A) : list (string * A) :=
  map_to_list obj.

Module AttendanceHandler.

Import DataManager.

Definition punchIn_fail (msg : string) : PunchInResult :=
  {| pi_success := false; pi_message := msg; pi_punchInTime := None; pi_date := None |}.

Definition punchOut_fail (msg : string) : PunchOutResult :=
  {| po_success := false; po_message := msg; po_punchOutTime := None;
     po_workingHours := None; po_formattedHours := None; po_date := None |}.

(** [records[userEmail][date]], for [records[userEmail]] present or not.
    The lookup sees own properties only; what the code finds under a key
    that names an inherited property ([inherited_key]) is not modelled. *)
Definition lookup_record (records : Records) (userEmail date : string)
  : option AttendanceRecord :=
  match records !! userEmail with
  | Some userRecords => userRecords !! date
  | None => None
  end.

(** [records[userEmail][date] = r], at a point where [records[userEmail]]
    is present, for keys that do not name an inherited property. *)
Definition store_record (records : Records) (userEmail date : string)
  (r : AttendanceRecord) : Records :=
  <[userEmail := <[date := r]> (default ∅ (records !! userEmail))]> records.

Definition punchIn (env : Env) (st : Storage) (userEmail : string)
  : PunchInResult * Storage :=
  if String.eqb userEmail "" then
    (punchIn_fail "User email is required", st)
  else
    let today := getCurrentDate env in
    let currentTime := getCurrentTime env in
    let records := getAttendanceRecords st in
    let records :=
      match records !! userEmail with
      | Some _ => records
      | None => <[userEmail := ∅]> records
      end in
    let already :=
      match lookup_record records userEmail today with
      | Some r => truthy (Rec.punchIn r)
      | None => false
      end in
    if already then
      (punchIn_fail "You have already punched in today", st)
    else
      let records :=
        store_record records userEmail today
          {| Rec.date := today;
             Rec.punchIn := Some currentTime;
             Rec.punchInTimestamp := Some (toISOString env);
             Rec.punchOut := None;
             Rec.punchOutTimestamp := None;
             Rec.workingHours := VNumber (Num 0);
             Rec.notes := Some "" |} in
      let '(ok, st') := setAttendanceRecords (setItem_ok env) records st in
      if ok then
        ({| pi_success := true; pi_message := "Punched in successfully";
            pi_punchInTime := Some currentTime; pi_date := Some today |}, st')
      else
        (punchIn_fail "Failed to record punch in. Please try again.", st').

Section WithHost.
Variable Date_parse : string → option Z.
(** [new Date(dateStr).toLocaleDateString('en-US', {weekday, year, month, day})]. *)
Variable Date_long : option Z → string.

Definition calculateHours := TimeMath.calculateHours Date_parse.
Definition formatHours := TimeMath.formatHours.

Definition getFormattedDate (dateStr : string) : string :=
  Date_long (Date_parse dateStr).

Definition punchOut (env : Env) (st : Storage) (userEmail notes : string)
  : PunchOutResult * Storage :=
  if String.eqb userEmail "" then
    (punchOut_fail "User email is required", st)
  else
    let today := getCurrentDate env in
    let currentTime := getCurrentTime env in
    let records := getAttendanceRecords st in
    match lookup_record records userEmail today with
    | None => (punchOut_fail "No punch in record found for today", st)
    | Some todayRecord =>
        if truthy (Rec.punchOut todayRecord) then
          (punchOut_fail "You have already punched out today", st)
        else if negb (truthy (Rec.punchIn todayRecord)) then
          (punchOut_fail "Please punch in first", st)
        else
          let workingHours :=
            calculateHours (default "" (Rec.punchIn todayRecord)) currentTime in
          let todayRecord :=
            {| Rec.date := Rec.date todayRecord;
               Rec.punchIn := Rec.punchIn todayRecord;
               Rec.punchInTimestamp := Rec.punchInTimestamp todayRecord;
               Rec.punchOut := Some currentTime;
               Rec.punchOutTimestamp := Some (toISOString env);
               Rec.workingHours := VNumber workingHours;
               Rec.notes := Some (trim notes) |} in
          let records := store_record records userEmail today todayRecord in
          let '(ok, st') := setAttendanceRecords (setItem_ok env) records st in
          if ok then
            ({| po_success := true; po_message := "Punched out successfully";
                po_punchOutTime := Some currentTime;
                po_workingHours := Some workingHours;
                po_formattedHours := Some (formatHours workingHours);
                po_date := Some today |}, st')
          else
            (punchOut_fail "Failed to record punch out. Please try again.", st')
    end.

Definition getRecordStatus (record : AttendanceRecord) : string :=
  if negb (truthy (Rec.punchIn record)) then "No Punch In"
  else if truthy (Rec.punchIn record) && negb (truthy (Rec.punchOut record)) then
    "Missing Punch Out"
  else if number_lt (ToNumber (Rec.workingHours record)) (Num 4) then "Short Day"
  else if number_ge (ToNumber (Rec.workingHours record)) (Num 8) then "Full Day"
  else "Partial Day".

(** [a >= b] and [a <= b] on two [Date] objects. *)
Definition Date_ge (a b : option Z) : bool :=
  match a, b with
  | Some x, Some y => y <=? x
  | _, _ => false
  end.

Definition Date_le (a b : option Z) : bool := Date_ge b a.

Definition history_entry (date : string) (record : AttendanceRecord) : HistoryEntry :=
  {| Entry.date := date;
     Entry.formattedDate := getFormattedDate date;
     Entry.punchIn := Rec.punchIn record;
     Entry.punchOut := Rec.punchOut record;
     Entry.workingHours := or_zero (Rec.workingHours record);
     Entry.formattedHours := formatHours (Num (or_zero (Rec.workingHours record)));
     Entry.notes := default "" (Rec.notes record);
     Entry.status := getRecordStatus record |}.

(** The body of the [for ... in] loop, over the entries in visiting order. *)
Fixpoint history_loop (start end_ : option Z) (entries : list (string * AttendanceRecord))
  : list HistoryEntry :=
  match entries with
  | [] => []
  | (date, record) :: rest =>
      let recordDate := Date_parse date in
      if Date_ge recordDate start && Date_le recordDate end_ then
        history_entry date record :: history_loop start end_ rest
      else
        history_loop start end_ rest
  end.

(** [(a, b) => new Date(b.date) - new Date(a.date)] *)
Definition newest_first (a b : HistoryEntry) : number :=
  TimeMath.Date_sub (Date_parse (Entry.date b)) (Date_parse (Entry.date a)).

Definition getAttendanceHistory (st : Storage) (userEmail startDate endDate : string)
  : list HistoryEntry :=
  let records := getAttendanceRecords st in
  let userRecords := default ∅ (records !! userEmail) in
  let start := Date_parse startDate in
  let end_ := Date_parse endDate in
  let history := history_loop start end_ (for_in userRecords) in
  Array_sort newest_first history.

(** The accumulators of the [forEach] loops: totalHours, daysWorked,
    daysPresent, fullDays. *)
Definition weekly_step (acc : Q * Z * Z) (record : HistoryEntry) : Q * Z * Z :=
  let '(totalHours, daysWorked, daysPresent) := acc in
  if truthy (Entry.punchIn record) then
    let daysPresent := daysPresent + 1 in
    if Qltb 0 (Entry.workingHours record) then
      (round64 (totalHours + Entry.workingHours record), daysWorked + 1, daysPresent)
    else (totalHours, daysWorked, daysPresent)
  else acc.

Definition monthly_step (acc : Q * Z * Z * Z) (record : HistoryEntry) : Q * Z * Z * Z :=
  let '(totalHours, daysWorked, daysPresent, fullDays) := acc in
  if truthy (Entry.punchIn record) then
    let daysPresent := daysPresent + 1 in
    if Qltb 0 (Entry.workingHours record) then
      let totalHours := round64 (totalHours + Entry.workingHours record) in
      let daysWorked := daysWorked + 1 in
      if Qle_bool 8 (Entry.workingHours record) then
        (totalHours, daysWorked, daysPresent, fullDays + 1)
      else (totalHours, daysWorked, daysPresent, fullDays)
    else (totalHours, daysWorked, daysPresent, fullDays)
  else acc.

Variable toLocaleDateString : option Z → string.
Variable Date_plusDays : option Z → Z → option Z.
Variable Date_ymd : Z → Z → Z → option Z.

Definition getWeeklySummary (st : Storage) (userEmail weekStartDate : string) : Summary :=
  let startDate := Date_parse weekStartDate in
  let endDate := Date_plusDays startDate 6 in
  let history :=
    getAttendanceHistory st userEmail
      (toLocaleDateString startDate) (toLocaleDateString endDate) in
  let '(totalHours, daysWorked, daysPresent) :=
    fold_left weekly_step history (0%Q, 0, 0) in
  {| totalHours := totalHours;
     formattedTotalHours := formatHours (Num totalHours);
     averageHours :=
       if 0 <? daysWorked then round64 (totalHours / inject_Z daysWorked) else 0%Q;
     formattedAverageHours :=
       if 0 <? daysWorked
       then formatHours (Num (round64 (totalHours / inject_Z daysWorked)))
       else "0 hours";
     daysWorked := daysWorked;
     daysPresent := daysPresent;
     fullDays := None;
     records := history |}.

Definition getMonthlySummary (st : Storage) (userEmail : string) (year month : Z)
  : Summary :=
  let startDate := Date_ymd year (month - 1) 1 in
  let endDate := Date_ymd year month 0 in
  let history :=
    getAttendanceHistory st userEmail
      (toLocaleDateString startDate) (toLocaleDateString endDate) in
  let '(totalHours, daysWorked, daysPresent, fullDays) :=
    fold_left monthly_step history (0%Q, 0, 0, 0) in
  {| totalHours := totalHours;
     formattedTotalHours := formatHours (Num totalHours);
     averageHours :=
       if 0 <? daysWorked then round64 (totalHours / inject_Z daysWorked) else 0%Q;
     formattedAverageHours :=
       if 0 <? daysWorked
       then formatHours (Num (round64 (totalHours / inject_Z daysWorked)))
       else "0 hours";
     daysWorked := daysWorked;
     daysPresent := daysPresent;
     fullDays := Some fullDays;
     records := history |}.
End WithHost.

End AttendanceHandler.

(** ** Vocabulary of the specification *)

(** The failure names of the specification, as the messages the engine
    returns for them. *)
Module Failure.
Definition InvalidUser : string := "User email is required".
Definition AlreadyPunchedIn : string := "You have already punched in today".
Definition NoPunchInFound : string := "No punch in record found for today".
Definition AlreadyPunchedOut : string := "You have already punched out today".
Definition PunchInMissing : string := "Please punch in first".
Definition PersistenceFailure_punchIn : string :=
  "Failed to record punch in. Please try again.".
Definition PersistenceFailure_punchOut : string :=
  "Failed to record punch out. Please try again.".
End Failure.

(** The remainder of [h] over [H] whole hours, in minutes, as binary64
    arithmetic gives it. *)
Definition minutes_over (h : Q) (H : Z) : Q :=
  round64 (round64 (h - inject_Z H) * 60).

(** [H] is the whole-hour part of [h] and [M] the remainder in minutes,
    rounded to the nearest integer with ties rounded up. *)
Definition splits (h : Q) (H M : Z) : Prop :=
  (inject_Z H <= h ∧ h < inject_Z H + 1 ∧
   inject_Z M - (1 # 2) <= minutes_over h H ∧
   minutes_over h H < inject_Z M + (1 # 2))%Q.

(** The hours in [d] milliseconds, as binary64 arithmetic gives them: the
    difference is a binary64 number and so is the quotient. *)
Definition hours_of_ms (d : Z) : Q := round64 (round64 (inject_Z d) / 3600000).

(** The rendering rules of the specification for [formatHours]. *)
Definition render (H M : Z) : string :=
  if decide (H = 0) then show M +:+ " minutes"
  else if decide (M = 0) then
    show H +:+ " " +:+ (if decide (H = 1) then "hour" else "hours")
  else show H +:+ "h " +:+ show M +:+ "m".

Import DataManager AttendanceHandler.

(** Today's record exists and has [punchIn] set. *)
Definition punched_in (env : Env) (st : Storage) (userEmail : string) : Prop :=
  ∃ r, lookup_record (getAttendanceRecords st) userEmail (getCurrentDate env) = Some r
       ∧ truthy (Rec.punchIn r) = true.

(** The record [punchIn] creates. *)
Definition punchIn_shell (env : Env) : AttendanceRecord :=
  {| Rec.date := getCurrentDate env;
     Rec.punchIn := Some (getCurrentTime env);
     Rec.punchInTimestamp := Some (toISOString env);
     Rec.punchOut := None;
     Rec.punchOutTimestamp := None;
     Rec.workingHours := VNumber (Num 0);
     Rec.notes := Some "" |}.

(** The record [punchOut] leaves for a record [r] punched in at [pin]. *)
Definition punchOut_record (Date_parse : string → option Z) (env : Env)
  (r : AttendanceRecord) (pin notes : string) : AttendanceRecord :=
  {| Rec.date := Rec.date r;
     Rec.punchIn := Some pin;
     Rec.punchInTimestamp := Rec.punchInTimestamp r;
     Rec.punchOut := Some (getCurrentTime env);
     Rec.punchOutTimestamp := Some (toISOString env);
     Rec.workingHours := VNumber (calculateHours Date_parse pin (getCurrentTime env));
     Rec.notes := Some (trim notes) |}.

(** [a] is dated no earlier than [b]. *)
Definition not_older (Date_parse : string → option Z) (a b : HistoryEntry) : Prop :=
  ∃ va vb, Date_parse (Entry.date a) = Some va ∧
           Date_parse (Entry.date b) = Some vb ∧ vb <= va.

(** The date string [d] parses to a day of the inclusive range. *)
Definition in_range (Date_parse : string → option Z) (startDate endDate d : string)
  : Prop :=
  ∃ v a b, Date_parse d = Some v ∧ Date_parse startDate = Some a ∧
           Date_parse endDate = Some b ∧ a <= v <= b.

(** Entries with [punchIn] set; entries the summaries count as worked;
    entries with positive hours. *)
Definition present (e : HistoryEntry) : bool := truthy (Entry.punchIn e).

Definition worked (e : HistoryEntry) : bool :=
  truthy (Entry.punchIn e) && Qltb 0 (Entry.workingHours e).

Definition positive_hours (e : HistoryEntry) : bool := Qltb 0 (Entry.workingHours e).

(** The sum of the hours of [l] as a loop adds them: from the left, every
    partial sum a binary64 number. *)
Definition add_hours (acc : Q) (e : HistoryEntry) : Q :=
  round64 (acc + Entry.workingHours e).

Definition sum_hours (l : list HistoryEntry) : Q := fold_left add_hours l 0%Q.

Definition count (P : HistoryEntry → bool) (l : list HistoryEntry) : Z :=
  Z.of_nat (length (List.filter P l)).

(** Aggregation consistency of a summary, for a given reading [counted] of
    which entries make up [daysWorked]. *)
Definition consistent (counted : HistoryEntry → bool) (s : Summary) : Prop :=
  (totalHours s == sum_hours (List.filter counted (records s)))%Q ∧
  daysWorked s = count counted (records s) ∧
  daysPresent s = count present (records s) ∧
  daysWorked s <= daysPresent s ∧
  (0 < daysWorked s →
     (averageHours s == round64 (totalHours s / inject_Z (daysWorked s)))%Q) ∧
  (daysWorked s <= 0 → (averageHours s == 0)%Q).

(** Strings made of whitespace only; first and last character. *)
Fixpoint all_whitespace (s : string) : bool :=
  match s with
  | EmptyString => true
  | String c s' => is_whitespace c && all_whitespace s'
  end.

Definition first_char (s : string) : option ascii :=
  match s with
  | EmptyString => None
  | String c _ => Some c
  end.

Fixpoint last_char (s : string) : option ascii :=
  match s with
  | EmptyString => None
  | String c s' =>
      match last_char s' with
      | None => Some c
      | Some d => Some d
      end
  end.

(** [t] is [s] without its leading and trailing whitespace. *)
Definition trimmed (s t : string) : Prop :=
  ∃ l r, s = l +:+ t +:+ r ∧
         all_whitespace l = true ∧ all_whitespace r = true ∧
         (∀ c, first_char t = Some c → is_whitespace c = false) ∧
         (∀ c, last_char t = Some c → is_whitespace c = false).

(** A stored record with positive hours has [punchIn] set; a store all of
    whose records are such. *)
Definition hours_imply_punchIn (r : AttendanceRecord) : Prop :=
  Qltb 0 (or_zero (Rec.workingHours r)) = true → truthy (Rec.punchIn r) = true.

Definition store_hours_imply_punchIn (st : Storage) : Prop :=
  ∀ u d r, lookup_record (getAttendanceRecords st) u d = Some r → hours_imply_punchIn r.

(** The stores the engine alone builds, starting from an empty
    [localStorage]. *)
Inductive engine_built (Date_parse : string → option Z) : Storage → Prop :=
| built_empty : engine_built Date_parse None
| built_punchIn env st userEmail :
    engine_built Date_parse st →
    engine_built Date_parse (snd (punchIn env st userEmail))
| built_punchOut env st userEmail notes :
    engine_built Date_parse st →
    engine_built Date_parse (snd (punchOut Date_parse env st userEmail notes)).

(** ** A day at the office, on the reference host *)

Module Scenario.

Definition user : string := "asha@example.com".

Definition morning : Env :=
  {| getCurrentDate := "2024-03-04"; getCurrentTime := "09:00:00";
     toISOString := "2024-03-04T09:00:00.000Z"; setItem_ok := true |}.

Definition evening : Env :=
  {| getCurrentDate := "2024-03-04"; getCurrentTime := "17:30:00";
     toISOString := "2024-03-04T17:30:00.000Z"; setItem_ok := true |}.

Definition evening_quota_exceeded : Env :=
  {| getCurrentDate := "2024-03-04"; getCurrentTime := "17:30:00";
     toISOString := "2024-03-04T17:30:00.000Z"; setItem_ok := false |}.

Definition at_work : Storage := snd (punchIn morning None user).

Definition gone_home : Storage :=
  snd (punchOut RefHost.Date_parse evening at_work user "  release day ").

(** A stored record that carries a punch-out and hours but no punch-in. *)
Definition orphan : AttendanceRecord :=
  {| Rec.date := "2024-03-04";
     Rec.punchIn := None;
     Rec.punchInTimestamp := None;
     Rec.punchOut := Some "17:00:00";
     Rec.punchOutTimestamp := Some "2024-03-04T17:00:00.000Z";
     Rec.workingHours := VNumber (Num 8);
     Rec.notes := Some "imported" |}.

Definition imported : Storage := Some {[ user := {[ "2024-03-04" := orphan ]} ]}.

Definition day (date : string) (punchIn punchOut : option string) (hours : Q)
  : AttendanceRecord :=
  {| Rec.date := date;
     Rec.punchIn := punchIn;
     Rec.punchInTimestamp := None;
     Rec.punchOut := punchOut;
     Rec.punchOutTimestamp := None;
     Rec.workingHours := VNumber (Num hours);
     Rec.notes := Some "" |}.

(** Four days of one user, 2024-03-06 still open, and an entry under a key
    that is not a date. *)
Definition ledger : Storage :=
  Some {[ user :=
    <[ "2024-03-05" := day "2024-03-05" (Some "10:00:00") (Some "13:30:00") (7 # 2) ]>
    (<[ "2024-02-29" := day "2024-02-29" (Some "09:00:00") (Some "17:00:00") 8 ]>
    (<[ "2024-03-06" := day "2024-03-06" (Some "08:45:00") None 0 ]>
    (<[ "someday" := day "someday" (Some "09:00:00") (Some "18:00:00") 9 ]>
    (<[ "2024-03-04" := day "2024-03-04" (Some "09:00:00") (Some "17:30:00") (17 # 2) ]>
     ∅)))) ]}.

End Scenario.

(** ** AttendanceHandler: status, calendar and export *)

Record AttendanceStatus : Type := {
  as_status : string;
  as_message : string;
  canPunchIn : bool;
  canPunchOut : bool;
  as_punchInTime : option string;
  as_punchOutTime : option string;
  as_workingHours : option number
}.

(** [date] is [None] when the caller leaves the argument out. *)
Definition getAttendanceRecord (env : Env) (st : Storage) (userEmail : string)
  (date : option string) : option AttendanceRecord :=
  let date := if negb (truthy date) then getCurrentDate env else default "" date in
  let records := getAttendanceRecords st in
  match records !! userEmail with
  | Some userRecords => userRecords !! date
  | None => None
  end.

Definition getAttendanceStatus (Date_parse : string → option Z) (env : Env)
  (st : Storage) (userEmail : string) : AttendanceStatus :=
  match getAttendanceRecord env st userEmail None with
  | None =>
      {| as_status := "not_punched_in"; as_message := "Not Punched In";
         canPunchIn := true; canPunchOut := false;
         as_punchInTime := None; as_punchOutTime := None; as_workingHours := None |}
  | Some todayRecord =>
      if truthy (Rec.punchIn todayRecord) && negb (truthy (Rec.punchOut todayRecord)) then
        {| as_status := "punched_in"; as_message := "Currently Working";
           canPunchIn := false; canPunchOut := true;
           as_punchInTime := Rec.punchIn todayRecord; as_punchOutTime := None;
           as_workingHours :=
             Some (calculateHours Date_parse (default "" (Rec.punchIn todayRecord))
                     (getCurrentTime env)) |}
      else if truthy (Rec.punchIn todayRecord) && truthy (Rec.punchOut todayRecord) then
        {| as_status := "completed"; as_message := "Work Completed";
           canPunchIn := false; canPunchOut := false;
           as_punchInTime := Rec.punchIn todayRecord;
           as_punchOutTime := Rec.punchOut todayRecord;
           as_workingHours := Some (Num (or_zero (Rec.workingHours todayRecord))) |}
      else
        {| as_status := "unknown"; as_message := "Unknown Status";
           canPunchIn := true; canPunchOut := false;
           as_punchInTime := None; as_punchOutTime := None; as_workingHours := None |}
  end.

(** [dayOfWeek !== 0 && dayOfWeek !== 6], for [dayOfWeek] a number or [NaN]
    ([None]). *)
Definition not_weekend (dayOfWeek : option Z) : bool :=
  match dayOfWeek with
  | Some d => negb (d =? 0) && negb (d =? 6)
  | None => true
  end.

Section Calendar.
(** [new Date(year, monthIndex, day)], [date.setDate(date.getDate() + n)] and
    [date.getDay()] of the host. *)
Variable Date_ymd : Z → Z → Z → option Z.
Variable Date_plusDays : option Z → Z → option Z.
Variable Date_getDay : option Z → option Z.

(** The [for] loop of [getWorkingDaysInMonth]; [None] when [fuel] iterations
    did not reach the end of the loop. *)
Fixpoint workingDays_loop (fuel : nat) (date endDate : option Z) (workingDays : Z)
  : option Z :=
  match fuel with
  | O => None
  | S fuel' =>
      if Date_le date endDate then
        let dayOfWeek := Date_getDay date in
        let workingDays := if not_weekend dayOfWeek then workingDays + 1 else workingDays in
        workingDays_loop fuel' (Date_plusDays date 1) endDate workingDays
      else Some workingDays
  end.

Definition getWorkingDaysInMonth (fuel : nat) (year month : Z) : option Z :=
  let startDate := Date_ymd year (month - 1) 1 in
  let endDate := Date_ymd year month 0 in
  workingDays_loop fuel startDate endDate 0.
End Calendar.

(** [date.getDay()] on the reference host: 0 is Sunday; 1970-01-01 was a
    Thursday. *)
Definition RefHost_getDay (d : option Z) : option Z :=
  match d with
  | Some ms => Some ((ms / RefHost.ms_per_day + 4) mod 7)
  | None => None
  end.

Definition dquote : string := String "034"%char EmptyString.
Definition newline : string := String "010"%char EmptyString.

Definition csv_header : string :=
  "Date,Day,Punch In,Punch Out,Working Hours,Status,Notes" +:+ newline.

Section CsvExport.
Variable Date_parse : string → option Z.
Variable Date_long : option Z → string.
(** [d.toLocaleDateString('en-US', { weekday: 'short' })]. *)
Variable Date_weekday : option Z → string.

Definition quoted (s : string) : string := dquote +:+ s +:+ dquote.

Definition csv_row (record : HistoryEntry) : string :=
  let day := Date_weekday (Date_parse (Entry.date record)) in
  quoted (Entry.date record) +:+ "," +:+ quoted day +:+ ","
  +:+ quoted (default "" (Entry.punchIn record)) +:+ ","
  +:+ quoted (default "" (Entry.punchOut record)) +:+ ","
  +:+ quoted (Entry.formattedHours record) +:+ ","
  +:+ quoted (Entry.status record) +:+ ","
  +:+ quoted (Entry.notes record) +:+ newline.

Definition exportToCSV (st : Storage) (userEmail startDate endDate : string) : string :=
  let history := getAttendanceHistory Date_parse Date_long st userEmail startDate endDate in
  fold_left (λ csv record, csv +:+ csv_row record) history csv_header.
End CsvExport.

(** ** Further vocabulary *)

(** Every stored record is as a read returns it: its hours are not [NaN]. *)
Definition store_as_read (st : Storage) : Prop :=
  ∀ u d r, lookup_record (getAttendanceRecords st) u d = Some r → json_record r = r.

(** Entries a monthly summary counts as full days. *)
Definition full_day (e : HistoryEntry) : bool :=
  worked e && Qle_bool 8 (Entry.workingHours e).

(** Days that are not Saturday or Sunday among the [n] days from day number
    [d] on. *)
Fixpoint weekdays_from (d : Z) (n : nat) : Z :=
  match n with
  | O => 0
  | S n' =>
      (if not_weekend (Some ((d + 4) mod 7)) then 1 else 0) + weekdays_from (d + 1) n'
  end.

(** The reference calendar, split into the part that depends on the
    (March-based) year and the part that depends on the month. *)
Definition year_part (y : Z) : Z :=
  let era := y / 400 in
  let yoe := y - era * 400 in
  era * 146097 + yoe * 365 + yoe / 4 - yoe / 100.

Definition month_part (m : Z) : Z :=
  (153 * (if m <=? 2 then m + 9 else m - 3) + 2) / 5.

(** The year [new Date(year, ...)] means: 0..99 stand for 1900..1999. *)
Definition host_year (year : Z) : Z :=
  if (0 <=? year) && (year <=? 99) then 1900 + year else year.

(** ** Regular expressions

    The two patterns of [UserHandler] are written as regular expressions
    and run by derivatives. *)

Inductive regex : Type :=
| Void
| Eps
| Class (f : ascii → bool)
| Cat (r s : regex)
| Alt (r s : regex)
| Star (r : regex).

Definition Plus (r : regex) : regex := Cat r (Star r).

Fixpoint nullable (r : regex) : bool :=
  match r with
  | Void => false
  | Eps => true
  | Class _ => false
  | Cat r s => nullable r && nullable s
  | Alt r s => nullable r || nullable s
  | Star _ => true
  end.

Fixpoint deriv (c : ascii) (r : regex) : regex :=
  match r with
  | Void => Void
  | Eps => Void
  | Class f => if f c then Eps else Void
  | Cat r s =>
      if nullable r then Alt (Cat (deriv c r) s) (deriv c s) else Cat (deriv c r) s
  | Alt r s => Alt (deriv c r) (deriv c s)
  | Star r => Cat (deriv c r) (Star r)
  end.

(** The whole of [s] matches [r]: [/^r$/.test(s)]. *)
Fixpoint matches (r : regex) (s : string) : bool :=
  match s with
  | EmptyString => nullable r
  | String c s' => matches (deriv c r) s'
  end.

Definition any_char : regex := Class (λ _, true).

(** Some part of [s] matches [r]: [/r/.test(s)]. *)
Definition RegExp_test (r : regex) (s : string) : bool :=
  matches (Cat (Star any_char) (Cat r (Star any_char))) s.

(** The strings a regular expression denotes. *)
Inductive lang : regex → string → Prop :=
| lang_eps : lang Eps ""
| lang_class f c : f c = true → lang (Class f) (String c "")
| lang_cat r s u v : lang r u → lang s v → lang (Cat r s) (u +:+ v)
| lang_alt_l r s u : lang r u → lang (Alt r s) u
| lang_alt_r r s u : lang s u → lang (Alt r s) u
| lang_star_nil r : lang (Star r) ""
| lang_star_cons r u v : lang r u → lang (Star r) v → lang (Star r) (u +:+ v).

(** ** DataManager on the whole of [localStorage] *)

Module Usr.
Record User : Type := mk {
  id : string;
  name : string;
  email : string;
  password : string;
  department : string;
  position : string;
  registrationDate : string;
  isActive : bool;
  lastLogin : option string;
  lastUpdated : option string;
  deactivatedDate : option string;
  reactivatedDate : option string
}.
End Usr.

Abbreviation User := Usr.User.
Abbreviation Users := (gmap string User).
Abbreviation Settings := (gmap string string).

(** The four items the program keeps in [localStorage], each as the value
    it parses to; [None] when the item is missing or does not parse. *)
Record LocalStorage : Type := {
  ls_users : option Users;
  ls_attendance : Storage;
  ls_settings : option Settings;
  ls_currentUser : option User
}.

(** The outcome of the three [setItem] calls of a [DataManager]. *)
Record WriteOutcome : Type := {
  users_ok : bool;
  attendance_ok : bool;
  settings_ok : bool
}.

(** What [exportData] returns and [importData] takes; a field of the
    argument of [importData] may be missing. *)
Record Backup : Type := {
  bk_users : option Users;
  bk_attendance : option Records;
  bk_settings : option Settings;
  bk_exportDate : string;
  bk_version : string
}.

Record StorageStats : Type := {
  totalUsers : Z;
  totalAttendanceRecords : Z
}.

Module Persistence.

(** An object is truthy. *)
Definition object_truthy {A : Type} (o : A) : bool := true.

Definition getUsers (ls : LocalStorage) : Users := default ∅ (ls_users ls).

Definition setUsers (ok : bool) (users : Users) (ls : LocalStorage)
  : bool * LocalStorage :=
  if ok then
    (true, {| ls_users := Some users; ls_attendance := ls_attendance ls;
              ls_settings := ls_settings ls; ls_currentUser := ls_currentUser ls |})
  else (false, ls).

Definition getAttendance (ls : LocalStorage) : Records :=
  getAttendanceRecords (ls_attendance ls).

Definition setAttendance (ok : bool) (records : Records) (ls : LocalStorage)
  : bool * LocalStorage :=
  let '(done, st) := setAttendanceRecords ok records (ls_attendance ls) in
  (done, {| ls_users := ls_users ls; ls_attendance := st;
            ls_settings := ls_settings ls; ls_currentUser := ls_currentUser ls |}).

Definition getSettings (ls : LocalStorage) : Settings := default ∅ (ls_settings ls).

Definition setSettings (ok : bool) (settings : Settings) (ls : LocalStorage)
  : bool * LocalStorage :=
  if ok then
    (true, {| ls_users := ls_users ls; ls_attendance := ls_attendance ls;
              ls_settings := Some settings; ls_currentUser := ls_currentUser ls |})
  else (false, ls).

Definition default_settings (now : string) : Settings :=
  <["appName" := "SparrowTrack"]>
  (<["version" := "1.0.0"]>
  (<["theme" := "sparrow"]>
  (<["initialized" := now]> ∅))).

Definition initializeStorage (w : WriteOutcome) (now : string) (ls : LocalStorage)
  : LocalStorage :=
  let ls :=
    if negb (object_truthy (getUsers ls)) then snd (setUsers (users_ok w) ∅ ls) else ls in
  let ls :=
    if negb (object_truthy (getAttendance ls))
    then snd (setAttendance (attendance_ok w) ∅ ls) else ls in
  if negb (object_truthy (getSettings ls))
  then snd (setSettings (settings_ok w) (default_settings now) ls) else ls.

Definition exportData (now : string) (ls : LocalStorage) : Backup :=
  {| bk_users := Some (getUsers ls);
     bk_attendance := Some (getAttendance ls);
     bk_settings := Some (getSettings ls);
     bk_exportDate := now;
     bk_version := "1.0.0" |}.

(** [data] is [None] for a call with [null] or [undefined]: reading
    [data.users] then throws inside the [try]. *)
Definition importData (w : WriteOutcome) (data : option Backup) (ls : LocalStorage)
  : bool * LocalStorage :=
  match data with
  | None => (false, ls)
  | Some data =>
      let ls :=
        match bk_users data with
        | Some users => snd (setUsers (users_ok w) users ls)
        | None => ls
        end in
      let ls :=
        match bk_attendance data with
        | Some attendance => snd (setAttendance (attendance_ok w) attendance ls)
        | None => ls
        end in
      let ls :=
        match bk_settings data with
        | Some settings => snd (setSettings (settings_ok w) settings ls)
        | None => ls
        end in
      (true, ls)
  end.

Definition clearAllData (w : WriteOutcome) (now : string) (ls : LocalStorage)
  : bool * LocalStorage :=
  let ls := {| ls_users := None; ls_attendance := None; ls_settings := None;
               ls_currentUser := ls_currentUser ls |} in
  (true, initializeStorage w now ls).

(** [getStorageStats], without the byte count and the time stamp. *)
Definition getStorageStats (ls : LocalStorage) : StorageStats :=
  {| totalUsers := Z.of_nat (size (getUsers ls));
     totalAttendanceRecords := Z.of_nat (size (getAttendance ls)) |}.

End Persistence.

(** ** UserHandler *)

(** [String.prototype.toLowerCase] on code units below 256. *)
Definition toLowerCase_char (c : ascii) : ascii :=
  let n := N_of_ascii c in
  if (((65 <=? n) && (n <=? 90))
      || ((192 <=? n) && (n <=? 222) && negb (n =? 215)))%N
  then ascii_of_N (n + 32) else c.

Fixpoint toLowerCase (s : string) : string :=
  match s with
  | EmptyString => EmptyString
  | String c s' => String (toLowerCase_char c) (toLowerCase s')
  end.

(** [Array.prototype.join]. *)
Fixpoint join (sep : string) (l : list string) : string :=
  match l with
  | [] => ""
  | [x] => x
  | x :: rest => x +:+ sep +:+ join sep rest
  end.

(** The class [[^\s@]]. *)
Definition not_space_or_at (c : ascii) : bool :=
  negb (is_whitespace c) && negb (Ascii.eqb c "@").

(** [/^[^\s@]+@[^\s@]+\.[^\s@]+$/] *)
Definition emailRegex : regex :=
  Cat (Plus (Class not_space_or_at))
    (Cat (Class (Ascii.eqb "@"))
       (Cat (Plus (Class not_space_or_at))
          (Cat (Class (Ascii.eqb "."))
             (Plus (Class not_space_or_at))))).

(** The class [[A-Za-z]]. *)
Definition is_letter (c : ascii) : bool :=
  let n := N_of_ascii c in
  (((65 <=? n) && (n <=? 90)) || ((97 <=? n) && (n <=? 122)))%N.

Record PasswordValidation : Type := {
  isValid : bool;
  errors : list string
}.

Record UserData : Type := {
  ud_name : string;
  ud_email : string;
  ud_password : string;
  ud_department : string;
  ud_position : string
}.

(** The [user] field of a result; [ui_lastLogin] is [None] where the
    result has no such field or the field is [null]. *)
Record UserInfo : Type := {
  ui_id : string;
  ui_name : string;
  ui_email : string;
  ui_department : string;
  ui_position : string;
  ui_lastLogin : option string
}.

Record UserResult : Type := {
  ur_success : bool;
  ur_message : string;
  ur_user : option UserInfo
}.

(** A call returns a result or leaves with an exception. *)
Inductive Outcome (A : Type) : Type :=
| Returns (a : A)
| Throws.

Arguments Returns {A} a.
Arguments Throws {A}.

(** The fields of the argument of [updateProfile]; each may be missing. *)
Record ProfileUpdates : Type := {
  up_name : option string;
  up_department : option string;
  up_position : option string
}.

(** One reading of [Date.now()], of [Math.floor(Math.random() * 1000)] and
    of [new Date().toISOString()], and the outcome of the two [setItem]
    calls (the users object, the saved current user), for one call. *)
Record UserEnv : Type := {
  Date_now : Z;
  random_1000 : Z;
  ue_toISOString : string;
  ue_users_ok : bool;
  ue_session_ok : bool
}.

Module UserHandler.

Import Persistence.

Definition user_fail (msg : string) : UserResult :=
  {| ur_success := false; ur_message := msg; ur_user := None |}.

Definition is_Some_bool {A : Type} (o : option A) : bool :=
  match o with
  | Some _ => true
  | None => false
  end.

Definition loadCurrentUser (ls : LocalStorage) : option User := ls_currentUser ls.

Definition generateEmployeeId (env : UserEnv) : string :=
  "EMP" +:+ show (Date_now env) +:+ show (random_1000 env).

Definition validateEmail (email : string) : bool := matches emailRegex email.

Definition validatePassword (password : string) : PasswordValidation :=
  let result := {| isValid := true; errors := [] |} in
  let result :=
    if (String.length password <? 6)%nat then
      {| isValid := false;
         errors := errors result ++ ["Password must be at least 6 characters long"] |}
    else result in
  if negb (RegExp_test (Class is_letter) password) then
    {| isValid := false;
       errors := errors result ++ ["Password must contain at least one letter"] |}
  else result.

(** [localStorage.setItem('sparrowtrack_currentUser', JSON.stringify(user))];
    [None] when it throws. *)
Definition saveCurrentUser (ok : bool) (user : User) (ls : LocalStorage)
  : option LocalStorage :=
  if ok then
    Some {| ls_users := ls_users ls; ls_attendance := ls_attendance ls;
            ls_settings := ls_settings ls; ls_currentUser := Some user |}
  else None.

Definition info (user : User) (lastLogin : option string) : UserInfo :=
  {| ui_id := Usr.id user; ui_name := Usr.name user; ui_email := Usr.email user;
     ui_department := Usr.department user; ui_position := Usr.position user;
     ui_lastLogin := lastLogin |}.

Definition register (env : UserEnv) (ls : LocalStorage) (userData : UserData)
  : UserResult * LocalStorage :=
  let name := ud_name userData in
  let email := ud_email userData in
  let password := ud_password userData in
  let department := ud_department userData in
  let position := ud_position userData in
  if String.eqb name "" || String.eqb email "" || String.eqb password ""
     || String.eqb department "" || String.eqb position "" then
    (user_fail "All fields are required", ls)
  else if negb (validateEmail email) then
    (user_fail "Please enter a valid email address", ls)
  else
    let passwordValidation := validatePassword password in
    if negb (isValid passwordValidation) then
      (user_fail (join ". " (errors passwordValidation)), ls)
    else
      let users := getUsers ls in
      match users !! toLowerCase email with
      | Some _ => (user_fail "User already exists with this email", ls)
      | None =>
          let employeeId := generateEmployeeId env in
          let newUser :=
            {| Usr.id := employeeId;
               Usr.name := trim name;
               Usr.email := trim (toLowerCase email);
               Usr.password := password;
               Usr.department := trim department;
               Usr.position := trim position;
               Usr.registrationDate := ue_toISOString env;
               Usr.isActive := true;
               Usr.lastLogin := None;
               Usr.lastUpdated := None;
               Usr.deactivatedDate := None;
               Usr.reactivatedDate := None |} in
          let users := <[toLowerCase email := newUser]> users in
          let '(ok, ls') := setUsers (ue_users_ok env) users ls in
          if ok then
            ({| ur_success := true; ur_message := "Account created successfully";
                ur_user := Some (info newUser None) |}, ls')
          else
            (user_fail "Failed to create account. Please try again.", ls')
      end.

Definition with_lastLogin (now : string) (user : User) : User :=
  Usr.mk (Usr.id user) (Usr.name user) (Usr.email user) (Usr.password user)
    (Usr.department user) (Usr.position user) (Usr.registrationDate user)
    (Usr.isActive user) (Some now) (Usr.lastUpdated user)
    (Usr.deactivatedDate user) (Usr.reactivatedDate user).

(** The state of a handler is its [currentUser] field; an operation
    returns its outcome, the new field and the new [localStorage]. *)
Definition login (env : UserEnv) (currentUser : option User) (ls : LocalStorage)
  (email password : string)
  : Outcome UserResult * option User * LocalStorage :=
  if String.eqb email "" || String.eqb password "" then
    (Returns (user_fail "Email and password are required"), currentUser, ls)
  else
    let users := getUsers ls in
    match users !! toLowerCase email with
    | None => (Returns (user_fail "No account found with this email"), currentUser, ls)
    | Some user =>
        if negb (String.eqb (Usr.password user) password) then
          (Returns (user_fail "Incorrect password"), currentUser, ls)
        else if negb (Usr.isActive user) then
          (Returns (user_fail "Account is deactivated. Please contact administrator."),
           currentUser, ls)
        else
          let user := with_lastLogin (ue_toISOString env) user in
          let users := <[toLowerCase email := user]> users in
          let ls := snd (setUsers (ue_users_ok env) users ls) in
          let currentUser := Some user in
          match saveCurrentUser (ue_session_ok env) user ls with
          | None => (Throws, currentUser, ls)
          | Some ls =>
              (Returns {| ur_success := true; ur_message := "Login successful";
                          ur_user := Some (info user (Usr.lastLogin user)) |},
               currentUser, ls)
          end
    end.

Definition logout (currentUser : option User) (ls : LocalStorage)
  : UserResult * option User * LocalStorage :=
  ({| ur_success := true; ur_message := "Logged out successfully"; ur_user := None |},
   None,
   {| ls_users := ls_users ls; ls_attendance := ls_attendance ls;
      ls_settings := ls_settings ls; ls_currentUser := None |}).

Definition getCurrentUser (currentUser : option User) : option User := currentUser.

Definition isLoggedIn (currentUser : option User) : bool :=
  match currentUser with
  | Some _ => true
  | None => false
  end.

(** One turn of the [forEach] over the allowed fields: the new value of
    the field, if [updates[field]] is truthy and its trimmed value differs
    from the stored one. *)
Definition field_update (value : option string) (stored : string) : option string :=
  if truthy value && negb (String.eqb (trim (default "" value)) stored)
  then Some (trim (default "" value)) else None.

Definition updateProfile (env : UserEnv) (currentUser : option User)
  (ls : LocalStorage) (updates : ProfileUpdates)
  : Outcome UserResult * option User * LocalStorage :=
  match currentUser with
  | None => (Returns (user_fail "Please login first"), currentUser, ls)
  | Some current =>
      let users := getUsers ls in
      let userEmail := Usr.email current in
      match users !! userEmail with
      | None => (Returns (user_fail "User not found"), currentUser, ls)
      | Some user =>
          let name := field_update (up_name updates) (Usr.name user) in
          let department := field_update (up_department updates) (Usr.department user) in
          let position := field_update (up_position updates) (Usr.position user) in
          let hasUpdates := is_Some_bool name || is_Some_bool department
                            || is_Some_bool position in
          if negb hasUpdates then
            (Returns (user_fail "No changes detected"), currentUser, ls)
          else
            let user :=
              Usr.mk (Usr.id user) (default (Usr.name user) name) (Usr.email user)
                (Usr.password user) (default (Usr.department user) department)
                (default (Usr.position user) position) (Usr.registrationDate user)
                (Usr.isActive user) (Usr.lastLogin user) (Some (ue_toISOString env))
                (Usr.deactivatedDate user) (Usr.reactivatedDate user) in
            let users := <[userEmail := user]> users in
            let '(ok, ls) := setUsers (ue_users_ok env) users ls in
            if ok then
              let currentUser := Some user in
              match saveCurrentUser (ue_session_ok env) user ls with
              | None => (Throws, currentUser, ls)
              | Some ls =>
                  (Returns {| ur_success := true;
                              ur_message := "Profile updated successfully";
                              ur_user := Some (info user None) |},
                   currentUser, ls)
              end
            else (Returns (user_fail "Failed to update profile"), currentUser, ls)
      end
  end.

Definition deactivateUser (env : UserEnv) (ls : LocalStorage) (email : string)
  : UserResult * LocalStorage :=
  let users := getUsers ls in
  match users !! toLowerCase email with
  | None => (user_fail "User not found", ls)
  | Some user =>
      let user :=
        Usr.mk (Usr.id user) (Usr.name user) (Usr.email user) (Usr.password user)
          (Usr.department user) (Usr.position user) (Usr.registrationDate user)
          false (Usr.lastLogin user) (Usr.lastUpdated user)
          (Some (ue_toISOString env)) (Usr.reactivatedDate user) in
      let users := <[toLowerCase email := user]> users in
      let '(ok, ls) := setUsers (ue_users_ok env) users ls in
      if ok then
        ({| ur_success := true; ur_message := "User account deactivated";
            ur_user := None |}, ls)
      else (user_fail "Failed to deactivate user", ls)
  end.

Definition activateUser (env : UserEnv) (ls : LocalStorage) (email : string)
  : UserResult * LocalStorage :=
  let users := getUsers ls in
  match users !! toLowerCase email with
  | None => (user_fail "User not found", ls)
  | Some user =>
      let user :=
        Usr.mk (Usr.id user) (Usr.name user) (Usr.email user) (Usr.password user)
          (Usr.department user) (Usr.position user) (Usr.registrationDate user)
          true (Usr.lastLogin user) (Usr.lastUpdated user)
          None (Some (ue_toISOString env)) in
      let users := <[toLowerCase email := user]> users in
      let '(ok, ls) := setUsers (ue_users_ok env) users ls in
      if ok then
        ({| ur_success := true; ur_message := "User account activated";
            ur_user := None |}, ls)
      else (user_fail "Failed to activate user", ls)
  end.

End UserHandler.

(** Every character, some character of a string is in a class. *)
Fixpoint string_forall (f : ascii → bool) (s : string) : bool :=
  match s with
  | EmptyString => true
  | String c s' => f c && string_forall f s'
  end.

Fixpoint string_exists (f : ascii → bool) (s : string) : bool :=
  match s with
  | EmptyString => false
  | String c s' => f c || string_exists f s'
  end.

(** The names every object inherits from [Object.prototype]. *)
Definition inherited_key (k : string) : bool :=
  bool_decide (k ∈ ["constructor"; "__defineGetter__"; "__defineSetter__";
                    "hasOwnProperty"; "__lookupGetter__"; "__lookupSetter__";
                    "isPrototypeOf"; "propertyIsEnumerable"; "toString"; "valueOf";
                    "__proto__"; "toLocaleString"]).

(** The account [register] stores for the data [d]. *)
Definition new_account (env : UserEnv) (d : UserData) : User :=
  {| Usr.id := "EMP" +:+ show (Date_now env) +:+ show (random_1000 env);
     Usr.name := trim (ud_name d);
     Usr.email := toLowerCase (ud_email d);
     Usr.password := ud_password d;
     Usr.department := trim (ud_department d);
     Usr.position := trim (ud_position d);
     Usr.registrationDate := ue_toISOString env;
     Usr.isActive := true;
     Usr.lastLogin := None;
     Usr.lastUpdated := None;
     Usr.deactivatedDate := None;
     Usr.reactivatedDate := None |}.

(** What [register] demands of its argument and of the stored users. *)
Definition acceptable (ls : LocalStorage) (d : UserData) : Prop :=
  ud_name d ≠ "" ∧ ud_department d ≠ "" ∧ ud_position d ≠ "" ∧
  UserHandler.validateEmail (ud_email d) = true ∧
  (6 <= String.length (ud_password d))%nat ∧
  string_exists is_letter (ud_password d) = true ∧
  Persistence.getUsers ls !! toLowerCase (ud_email d) = None.

(** ** People, on the reference host *)

Module People.

Definition signup : UserEnv :=
  {| Date_now := 1709542800000; random_1000 := 42;
     ue_toISOString := "2024-03-04T09:00:00.000Z";
     ue_users_ok := true; ue_session_ok := true |}.

Definition later : UserEnv :=
  {| Date_now := 1709629200000; random_1000 := 7;
     ue_toISOString := "2024-03-05T09:00:00.000Z";
     ue_users_ok := true; ue_session_ok := true |}.

Definition quota_exceeded : UserEnv :=
  {| Date_now := 1709629200000; random_1000 := 7;
     ue_toISOString := "2024-03-05T09:00:00.000Z";
     ue_users_ok := false; ue_session_ok := false |}.

Definition empty : LocalStorage :=
  {| ls_users := None; ls_attendance := None; ls_settings := None;
     ls_currentUser := None |}.

Definition asha : UserData :=
  {| ud_name := " Asha Rao "; ud_email := "Asha@Example.com";
     ud_password := "s3cret!"; ud_department := "Ops"; ud_position := "Lead" |}.

(** A registration whose name is a single space. *)
Definition nameless : UserData :=
  {| ud_name := " "; ud_email := "n@example.com";
     ud_password := "s3cret!"; ud_department := "Ops"; ud_position := "Lead" |}.

Definition registered : LocalStorage := snd (UserHandler.register signup empty asha).

(** The store once Asha has logged in. *)
Definition logged_in : LocalStorage :=
  snd (UserHandler.login later None registered "asha@example.com" "s3cret!").

Definition next_morning : Env :=
  {| getCurrentDate := "2024-03-07"; getCurrentTime := "09:00:00";
     toISOString := "2024-03-07T09:00:00.000Z"; setItem_ok := true |}.

Definition all_ok : WriteOutcome :=
  {| users_ok := true; attendance_ok := true; settings_ok := true |}.

Definition all_failing : WriteOutcome :=
  {| users_ok := false; attendance_ok := false; settings_ok := false |}.

End People.

(** * Properties *)

(** ** binary64 *)

Lemma Qfloor_bounds (y : Q) : (inject_Z (Qfloor y) <= y ∧ y < inject_Z (Qfloor y) + 1)%Q.
Proof.
  split; [apply Qfloor_le|].
  pose proof (Qlt_floor y) as H. rewrite inject_Z_plus in H. exact H.
Qed.

Lemma nearest_even_cases (y : Q) :
  nearest_even y = Qfloor y ∨ nearest_even y = Qfloor y + 1.
Proof.
  unfold nearest_even. cbv zeta.
  destruct (y - inject_Z (Qfloor y) ?= 1 # 2)%Q; [destruct (Z.even (Qfloor y))|..]; auto.
Qed.

Lemma nearest_even_near (y : Q) :
  (inject_Z (nearest_even y) - (1 # 2) <= y ∧ y <= inject_Z (nearest_even y) + (1 # 2))%Q.
Proof.
  unfold nearest_even. cbv zeta.
  destruct (Qfloor_bounds y) as [Hlo Hhi].
  destruct (Qcompare_spec (y - inject_Z (Qfloor y)) (1 # 2)) as [He|Hl|Hg].
  - destruct (Z.even (Qfloor y)).
    + split; lra.
    + rewrite inject_Z_plus. change (inject_Z 1) with 1%Q. split; lra.
  - split; lra.
  - rewrite inject_Z_plus. change (inject_Z 1) with 1%Q. split; lra.
Qed.

Lemma nearest_even_Z (z : Z) : nearest_even (inject_Z z) = z.
Proof.
  unfold nearest_even. cbv zeta. rewrite Qfloor_Z.
  destruct (Qcompare_spec (inject_Z z - inject_Z z) (1 # 2)) as [He|Hl|Hg].
  - exfalso. lra.
  - reflexivity.
  - exfalso. lra.
Qed.

Lemma nearest_even_mono (y1 y2 : Q) : (y1 <= y2)%Q → nearest_even y1 <= nearest_even y2.
Proof.
  intros Hle.
  pose proof (Qfloor_resp_le y1 y2 Hle) as Hf.
  destruct (Z.eq_dec (Qfloor y1) (Qfloor y2)) as [Heq|Hne].
  - unfold nearest_even. cbv zeta. rewrite <- Heq.
    destruct (Qcompare_spec (y1 - inject_Z (Qfloor y1)) (1 # 2)) as [He1|Hl1|Hg1];
      destruct (Qcompare_spec (y2 - inject_Z (Qfloor y1)) (1 # 2)) as [He2|Hl2|Hg2];
      try (exfalso; lra); try destruct (Z.even (Qfloor y1)); lia.
  - destruct (nearest_even_cases y1) as [-> | ->], (nearest_even_cases y2) as [-> | ->]; lia.
Qed.

Lemma nearest_even_proper (y1 y2 : Q) : (y1 == y2)%Q → nearest_even y1 = nearest_even y2.
Proof.
  intros Heq. apply Z.le_antisymm; apply nearest_even_mono; rewrite Heq; apply Qle_refl.
Qed.

(** Powers of two. *)

Lemma pow2_pos (e : Z) : (0 < 2 ^ e)%Q.
Proof. apply Qpower_0_lt. reflexivity. Qed.

Lemma pow2_add (a b : Z) : (2 ^ (a + b) == 2 ^ a * 2 ^ b)%Q.
Proof. apply Qpower_plus. discriminate. Qed.

Lemma pow2_succ (e : Z) : (2 ^ (e + 1) == 2 * 2 ^ e)%Q.
Proof. rewrite pow2_add. change (2 ^ 1)%Q with 2%Q. ring. Qed.

Lemma pow2_le (a b : Z) : a <= b → (2 ^ a <= 2 ^ b)%Q.
Proof. intros H. apply Qpower_le_compat_l; [exact H | discriminate]. Qed.

Lemma pow2_lt (a b : Z) : a < b → (2 ^ a < 2 ^ b)%Q.
Proof. intros H. apply Qpower_lt_compat_l; [exact H | reflexivity]. Qed.

Lemma pow2_lt_inv (a b : Z) : (2 ^ a < 2 ^ b)%Q → a < b.
Proof. intros H. apply (Qpower_lt_compat_l_inv 2); [exact H | reflexivity]. Qed.

Lemma pow2_Z (n : Z) : 0 <= n → (2 ^ n == inject_Z (2 ^ n))%Q.
Proof. intros H. rewrite Zpower_Qpower by exact H. reflexivity. Qed.

(** The binary exponent. *)

Lemma ilog2_rough (x : Q) :
  (0 < x)%Q →
  let e := Z.log2 (Qnum x) - Z.log2 (Zpos (Qden x)) in
  (2 ^ (e - 1) < x ∧ x < 2 ^ (e + 1))%Q.
Proof.
  intros Hx e. destruct x as [n d]. subst e. cbn [Qnum Qden].
  assert (Hn : 0 < n) by (unfold Qlt in Hx; simpl in Hx; lia).
  pose proof (Z.log2_spec n Hn) as [Ha1 Ha2].
  pose proof (Z.log2_spec (Zpos d) ltac:(lia)) as [Hb1 Hb2].
  pose proof (Z.log2_nonneg n) as Ha0.
  pose proof (Z.log2_nonneg (Zpos d)) as Hb0.
  set (a := Z.log2 n) in *. set (b := Z.log2 (Zpos d)) in *.
  assert (HA : 0 < 2 ^ a) by (apply Z.pow_pos_nonneg; lia).
  assert (HB : 0 < 2 ^ b) by (apply Z.pow_pos_nonneg; lia).
  rewrite Z.pow_succ_r in Ha2, Hb2 by lia.
  replace (a - b - 1) with (a - (b + 1)) by lia.
  replace (a - b + 1) with ((a + 1) - b) by lia.
  rewrite !Qpower_minus by discriminate.
  rewrite !pow2_Z by lia.
  rewrite !Z.add_1_r, !Z.pow_succ_r by lia.
  rewrite (Qmake_Qdiv n d).
  split.
  - apply Qlt_shift_div_l; [change 0%Q with (inject_Z 0); rewrite <- Zlt_Qlt; lia|].
    unfold Qdiv. rewrite <- Qmult_assoc, (Qmult_comm (/ _)), Qmult_assoc.
    apply Qlt_shift_div_r; [change 0%Q with (inject_Z 0); rewrite <- Zlt_Qlt; lia|].
    rewrite <- !inject_Z_mult, <- Zlt_Qlt. nia.
  - apply Qlt_shift_div_r; [change 0%Q with (inject_Z 0); rewrite <- Zlt_Qlt; lia|].
    unfold Qdiv. rewrite <- Qmult_assoc, (Qmult_comm (/ _)), Qmult_assoc.
    apply Qlt_shift_div_l; [change 0%Q with (inject_Z 0); rewrite <- Zlt_Qlt; lia|].
    rewrite <- !inject_Z_mult, <- Zlt_Qlt. nia.
Qed.

Lemma ilog2_spec (x : Q) :
  (0 < x)%Q → (2 ^ ilog2 x <= x ∧ x < 2 ^ (ilog2 x + 1))%Q.
Proof.
  intros Hx. destruct (ilog2_rough x Hx) as [Hlo Hhi]. unfold ilog2. cbv zeta.
  set (e := Z.log2 (Qnum x) - Z.log2 (Zpos (Qden x))) in *.
  destruct (Qle_bool (2 ^ e) x) eqn:Hb.
  - apply Qle_bool_iff in Hb. split; assumption.
  - assert (Hlt : (x < 2 ^ e)%Q).
    { apply Qnot_le_lt. intros Hle. apply Qle_bool_iff in Hle. congruence. }
    replace (e - 1 + 1) with e by lia. split; [apply Qlt_le_weak; exact Hlo | exact Hlt].
Qed.

Lemma ilog2_unique (x : Q) (e : Z) :
  (2 ^ e <= x)%Q → (x < 2 ^ (e + 1))%Q → ilog2 x = e.
Proof.
  intros Hlo Hhi.
  assert (Hx : (0 < x)%Q) by (eapply Qlt_le_trans; [apply (pow2_pos e) | exact Hlo]).
  destruct (ilog2_spec x Hx) as [Hlo' Hhi'].
  assert (H1 : e < ilog2 x + 1)
    by (apply pow2_lt_inv; eapply Qle_lt_trans; eassumption).
  assert (H2 : ilog2 x < e + 1)
    by (apply pow2_lt_inv; eapply Qle_lt_trans; eassumption).
  lia.
Qed.

Lemma ilog2_proper (x y : Q) : (0 < x)%Q → (x == y)%Q → ilog2 x = ilog2 y.
Proof.
  intros Hx Heq. symmetry. destruct (ilog2_spec x Hx) as [Hlo Hhi].
  apply ilog2_unique; rewrite <- Heq; assumption.
Qed.

Lemma ilog2_mono (x y : Q) : (0 < x)%Q → (x <= y)%Q → ilog2 x <= ilog2 y.
Proof.
  intros Hx Hle.
  assert (Hy : (0 < y)%Q) by (eapply Qlt_le_trans; eassumption).
  destruct (ilog2_spec x Hx) as [Hlo _]. destruct (ilog2_spec y Hy) as [_ Hhi].
  assert (H : ilog2 x < ilog2 y + 1).
  { apply pow2_lt_inv. eapply Qle_lt_trans; [exact Hlo|].
    eapply Qle_lt_trans; eassumption. }
  lia.
Qed.

(** Rounding a positive number. *)

Lemma scaled_range (x : Q) :
  (0 < x)%Q →
  (inject_Z (2 ^ 52) <= x / 2 ^ (ilog2 x - 52) ∧
   x / 2 ^ (ilog2 x - 52) < inject_Z (2 ^ 53))%Q.
Proof.
  intros Hx. destruct (ilog2_spec x Hx) as [Hlo Hhi].
  pose proof (pow2_pos (ilog2 x - 52)) as Hu.
  rewrite <- !pow2_Z by lia. split.
  - apply Qle_shift_div_l; [exact Hu|].
    rewrite <- pow2_add. replace (52 + (ilog2 x - 52)) with (ilog2 x) by lia. exact Hlo.
  - apply Qlt_shift_div_r; [exact Hu|].
    rewrite <- pow2_add. replace (53 + (ilog2 x - 52)) with (ilog2 x + 1) by lia. exact Hhi.
Qed.

Lemma round_pos_mantissa (x : Q) :
  (0 < x)%Q → 2 ^ 52 <= nearest_even (x / 2 ^ (ilog2 x - 52)) <= 2 ^ 53.
Proof.
  intros Hx. destruct (scaled_range x Hx) as [Hlo Hhi]. split.
  - rewrite <- (nearest_even_Z (2 ^ 52)). apply nearest_even_mono, Hlo.
  - rewrite <- (nearest_even_Z (2 ^ 53)). apply nearest_even_mono, Qlt_le_weak, Hhi.
Qed.

Lemma round_pos_bounds (x : Q) :
  (0 < x)%Q → (2 ^ ilog2 x <= round_pos x ∧ round_pos x <= 2 ^ (ilog2 x + 1))%Q.
Proof.
  intros Hx. destruct (round_pos_mantissa x Hx) as [Hlo Hhi].
  pose proof (pow2_pos (ilog2 x - 52)) as Hu.
  unfold round_pos. cbv zeta. split.
  - replace (ilog2 x) with (52 + (ilog2 x - 52)) at 1 by lia.
    rewrite pow2_add, (pow2_Z 52) by lia.
    apply Qmult_le_compat_r; [|apply Qlt_le_weak, Hu].
    rewrite <- Zle_Qle. exact Hlo.
  - replace (ilog2 x + 1) with (53 + (ilog2 x - 52)) by lia.
    rewrite pow2_add, (pow2_Z 53) by lia.
    apply Qmult_le_compat_r; [|apply Qlt_le_weak, Hu].
    rewrite <- Zle_Qle. exact Hhi.
Qed.

Lemma round_pos_pos (x : Q) : (0 < x)%Q → (0 < round_pos x)%Q.
Proof.
  intros Hx. eapply Qlt_le_trans; [apply (pow2_pos (ilog2 x))|].
  apply round_pos_bounds, Hx.
Qed.

Lemma round_pos_proper (x y : Q) : (0 < x)%Q → (x == y)%Q → (round_pos x == round_pos y)%Q.
Proof.
  intros Hx Heq. unfold round_pos. cbv zeta.
  rewrite <- (ilog2_proper x y Hx Heq).
  rewrite (nearest_even_proper (x / 2 ^ (ilog2 x - 52)) (y / 2 ^ (ilog2 x - 52)))
    by (apply Qdiv_comp; [exact Heq | reflexivity]).
  reflexivity.
Qed.

Lemma round_pos_mono (x y : Q) : (0 < x)%Q → (x <= y)%Q → (round_pos x <= round_pos y)%Q.
Proof.
  intros Hx Hle.
  assert (Hy : (0 < y)%Q) by (eapply Qlt_le_trans; eassumption).
  pose proof (ilog2_mono x y Hx Hle) as He.
  destruct (Z.eq_dec (ilog2 x) (ilog2 y)) as [Heq|Hne].
  - unfold round_pos. cbv zeta. rewrite <- Heq.
    pose proof (pow2_pos (ilog2 x - 52)) as Hu.
    apply Qmult_le_compat_r; [|apply Qlt_le_weak, Hu].
    rewrite <- Zle_Qle. apply nearest_even_mono.
    apply Qmult_le_compat_r; [exact Hle|].
    apply Qlt_le_weak, Qinv_lt_0_compat, Hu.
  - eapply Qle_trans; [apply (round_pos_bounds x Hx)|].
    eapply Qle_trans; [|apply (round_pos_bounds y Hy)].
    apply pow2_le. lia.
Qed.

(** A number that is a multiple of its unit in the last place is kept. *)
Lemma round_pos_exact (x : Q) (z : Z) :
  (0 < x)%Q → (x == inject_Z z * 2 ^ (ilog2 x - 52))%Q → (round_pos x == x)%Q.
Proof.
  intros Hx Hz. unfold round_pos. cbv zeta.
  pose proof (pow2_pos (ilog2 x - 52)) as Hu.
  assert (Hy : (x / 2 ^ (ilog2 x - 52) == inject_Z z)%Q).
  { rewrite Hz at 1. field. intros H0. rewrite H0 in Hu. discriminate Hu. }
  rewrite (nearest_even_proper _ _ Hy), nearest_even_Z. symmetry. exact Hz.
Qed.

Lemma round_pos_idem (x : Q) : (0 < x)%Q → (round_pos (round_pos x) == round_pos x)%Q.
Proof.
  intros Hx.
  pose proof (round_pos_pos x Hx) as Hr.
  destruct (round_pos_mantissa x Hx) as [Hlo Hhi].
  destruct (round_pos_bounds x Hx) as [Blo Bhi].
  set (m := nearest_even (x / 2 ^ (ilog2 x - 52))) in *.
  assert (Hrm : (round_pos x == inject_Z m * 2 ^ (ilog2 x - 52))%Q) by reflexivity.
  destruct (Z.eq_dec m (2 ^ 53)) as [Htop|Hlt].
  - assert (Hval : (round_pos x == 2 ^ (ilog2 x + 1))%Q).
    { rewrite Hrm, Htop, <- pow2_Z, <- pow2_add by lia. f_equiv. lia. }
    assert (He : ilog2 (round_pos x) = ilog2 x + 1).
    { apply ilog2_unique; rewrite Hval; [apply Qle_refl | apply pow2_lt; lia]. }
    apply (round_pos_exact _ (2 ^ 52) Hr).
    rewrite He, Hval, <- pow2_Z, <- pow2_add by lia. f_equiv. lia.
  - assert (He : ilog2 (round_pos x) = ilog2 x).
    { apply ilog2_unique; [exact Blo|].
      rewrite Hrm. replace (ilog2 x + 1) with (53 + (ilog2 x - 52)) by lia.
      rewrite pow2_add, (pow2_Z 53) by lia.
      apply Qmult_lt_compat_r; [apply pow2_pos|]. rewrite <- Zlt_Qlt. lia. }
    apply (round_pos_exact _ m Hr). rewrite He. exact Hrm.
Qed.

Lemma round_pos_error (x : Q) :
  (0 < x)%Q →
  (x - x / inject_Z (2 ^ 53) <= round_pos x ∧ round_pos x <= x + x / inject_Z (2 ^ 53))%Q.
Proof.
  intros Hx. destruct (ilog2_spec x Hx) as [Hlo _].
  pose proof (pow2_pos (ilog2 x - 52)) as Hu.
  destruct (nearest_even_near (x / 2 ^ (ilog2 x - 52))) as [N1 N2].
  unfold round_pos. cbv zeta.
  set (u := (2 ^ (ilog2 x - 52))%Q) in *.
  set (m := inject_Z (nearest_even (x / u))) in *.
  assert (Hxu : (x == x / u * u)%Q)
    by (field; intros H0; rewrite H0 in Hu; discriminate Hu).
  assert (Hhalf : (u * (1 # 2) <= x / inject_Z (2 ^ 53))%Q).
  { apply Qle_shift_div_l; [reflexivity|].
    assert (H2e : (2 ^ ilog2 x == inject_Z (2 ^ 52) * u)%Q).
    { unfold u. rewrite <- pow2_Z, <- pow2_add by lia. f_equiv. lia. }
    rewrite H2e in Hlo.
    change (inject_Z (2 ^ 53)) with (2 * inject_Z (2 ^ 52))%Q.
    lra. }
  assert (H1 : ((x / u - (1 # 2)) * u <= m * u)%Q)
    by (apply Qmult_le_compat_r; [lra | apply Qlt_le_weak, Hu]).
  assert (H2 : (m * u <= (x / u + (1 # 2)) * u)%Q)
    by (apply Qmult_le_compat_r; [lra | apply Qlt_le_weak, Hu]).
  assert (E1 : ((x / u - (1 # 2)) * u == x - u * (1 # 2))%Q)
    by (rewrite Hxu at 2; ring).
  assert (E2 : ((x / u + (1 # 2)) * u == x + u * (1 # 2))%Q)
    by (rewrite Hxu at 2; ring).
  rewrite E1 in H1. rewrite E2 in H2. split; lra.
Qed.

(** Rounding. *)

Lemma round64_zero (x : Q) : (x == 0)%Q → round64 x = 0%Q.
Proof.
  intros Hx. unfold round64.
  destruct (Qcompare_spec x 0) as [_|Hl|Hg]; [reflexivity|exfalso; lra..].
Qed.

Lemma round64_pos (x : Q) : (0 < x)%Q → (round64 x == round_pos x)%Q.
Proof.
  intros Hx. unfold round64.
  destruct (Qcompare_spec x 0) as [He|Hl|_]; [exfalso; lra..|apply Qred_correct].
Qed.

Lemma round64_neg (x : Q) : (x < 0)%Q → (round64 x == - round_pos (- x))%Q.
Proof.
  intros Hx. unfold round64.
  destruct (Qcompare_spec x 0) as [He|_|Hg]; [exfalso; lra| |exfalso; lra].
  apply Qred_correct.
Qed.

Lemma round64_canonical (x : Q) : Qred (round64 x) = round64 x.
Proof. unfold round64. apply Qred_complete, Qred_correct. Qed.

Lemma round64_proper (x y : Q) : (x == y)%Q → round64 x = round64 y.
Proof.
  intros Heq. rewrite <- (round64_canonical x), <- (round64_canonical y).
  apply Qred_complete.
  destruct (Q_dec x 0) as [[Hl|Hg]|He].
  - assert (Hy : (y < 0)%Q) by (rewrite <- Heq; exact Hl).
    rewrite (round64_neg x Hl), (round64_neg y Hy).
    apply Qopp_comp, round_pos_proper; [lra | rewrite Heq; reflexivity].
  - assert (Hy : (0 < y)%Q) by (rewrite <- Heq; exact Hg).
    rewrite (round64_pos x Hg), (round64_pos y Hy).
    apply round_pos_proper; assumption.
  - rewrite (round64_zero x He), (round64_zero y); [reflexivity|].
    rewrite <- Heq. exact He.
Qed.

#[global] Instance round64_Proper : Proper (Qeq ==> Qeq) round64.
Proof. intros x y Heq. rewrite (round64_proper x y Heq). reflexivity. Qed.

Lemma round64_opp (x : Q) : (round64 (- x) == - round64 x)%Q.
Proof.
  destruct (Q_dec x 0) as [[Hl|Hg]|He].
  - rewrite (round64_neg x Hl), (round64_pos (- x)) by lra. ring.
  - rewrite (round64_pos x Hg), (round64_neg (- x)) by lra.
    apply Qopp_comp, round_pos_proper; [lra | ring].
  - rewrite (round64_zero x He), (round64_zero (- x)) by lra. reflexivity.
Qed.

Lemma round64_positive (x : Q) : (0 < x)%Q → (0 < round64 x)%Q.
Proof. intros Hx. rewrite (round64_pos x Hx). apply round_pos_pos, Hx. Qed.

Lemma round64_negative (x : Q) : (x < 0)%Q → (round64 x < 0)%Q.
Proof.
  intros Hx. rewrite (round64_neg x Hx).
  assert (H : (0 < round_pos (- x))%Q) by (apply round_pos_pos; lra). lra.
Qed.

Lemma round64_nonneg (x : Q) : (0 <= x)%Q → (0 <= round64 x)%Q.
Proof.
  intros Hx. destruct (Qlt_le_dec 0 x) as [Hpos|Hle].
  - apply Qlt_le_weak, round64_positive, Hpos.
  - rewrite (round64_zero x) by lra. apply Qle_refl.
Qed.

Lemma round64_nonpos (x : Q) : (x <= 0)%Q → (round64 x <= 0)%Q.
Proof.
  intros Hx. destruct (Qlt_le_dec x 0) as [Hneg|Hle].
  - apply Qlt_le_weak, round64_negative, Hneg.
  - rewrite (round64_zero x) by lra. apply Qle_refl.
Qed.

Lemma round64_positive_iff (x : Q) : (0 < round64 x)%Q ↔ (0 < x)%Q.
Proof.
  split; [|apply round64_positive].
  intros Hr. apply Qnot_le_lt. intros Hle.
  pose proof (round64_nonpos x Hle). lra.
Qed.

(** Rounding keeps the order. *)
Lemma round64_mono (x y : Q) : (x <= y)%Q → (round64 x <= round64 y)%Q.
Proof.
  intros Hle. destruct (Q_dec x 0) as [[Hx|Hx]|Hx].
  - destruct (Qlt_le_dec y 0) as [Hy|Hy].
    + rewrite (round64_neg x Hx), (round64_neg y Hy).
      apply Qopp_le_compat, round_pos_mono; lra.
    + eapply Qle_trans; [apply round64_nonpos; lra | apply round64_nonneg, Hy].
  - assert (Hy : (0 < y)%Q) by lra.
    rewrite (round64_pos x Hx), (round64_pos y Hy).
    apply round_pos_mono; assumption.
  - rewrite (round64_zero x Hx). apply round64_nonneg. lra.
Qed.

(** A binary64 number is kept. *)
Lemma round64_idem (x : Q) : round64 (round64 x) = round64 x.
Proof.
  transitivity (Qred (round64 (round64 x))); [symmetry; apply round64_canonical|].
  transitivity (Qred (round64 x)); [|apply round64_canonical].
  apply Qred_complete.
  destruct (Q_dec x 0) as [[Hx|Hx]|Hx].
  - pose proof (round64_negative x Hx) as Hr.
    pose proof (round64_neg x Hx) as Hv.
    assert (Hp : (0 < round_pos (- x))%Q) by (apply round_pos_pos; lra).
    rewrite (round64_neg (round64 x) Hr).
    assert (Hin : (round_pos (- round64 x) == round_pos (round_pos (- x)))%Q)
      by (apply round_pos_proper; lra).
    rewrite Hin, (round_pos_idem (- x)) by lra.
    symmetry. exact Hv.
  - pose proof (round64_positive x Hx) as Hr.
    rewrite (round64_pos (round64 x) Hr).
    rewrite (round_pos_proper (round64 x) (round_pos x) Hr (round64_pos x Hx)).
    rewrite (round_pos_idem x Hx). symmetry. apply round64_pos, Hx.
  - rewrite (round64_zero x Hx). reflexivity.
Qed.

(** The relative error of a rounding is at most 2^-53. *)
Lemma round64_error (x : Q) :
  (Qabs (round64 x - x) <= Qabs x / inject_Z (2 ^ 53))%Q.
Proof.
  destruct (Q_dec x 0) as [[Hx|Hx]|Hx].
  - rewrite (round64_neg x Hx), (Qabs_neg x) by lra.
    destruct (round_pos_error (- x)) as [H1 H2]; [lra|].
    apply Qabs_Qle_condition. split; lra.
  - rewrite (round64_pos x Hx), (Qabs_pos x) by lra.
    destruct (round_pos_error x Hx) as [H1 H2].
    apply Qabs_Qle_condition. split; lra.
  - rewrite (round64_zero x Hx), Hx. vm_compute. discriminate.
Qed.

Lemma ilog2_pow2 (e : Z) : ilog2 (2 ^ e) = e.
Proof. apply ilog2_unique; [apply Qle_refl | apply pow2_lt; lia]. Qed.

(** Integers up to 2^53 in absolute value are binary64 numbers. *)
Lemma round_pos_Z (n : Z) : 0 < n <= 2 ^ 53 → (round_pos (inject_Z n) == inject_Z n)%Q.
Proof.
  intros [Hpos Hmax].
  assert (Hx : (0 < inject_Z n)%Q)
    by (change 0%Q with (inject_Z 0); rewrite <- Zlt_Qlt; exact Hpos).
  destruct (ilog2_spec _ Hx) as [Hlo Hhi].
  assert (He0 : 0 <= ilog2 (inject_Z n)).
  { rewrite <- (ilog2_pow2 0). apply ilog2_mono; [reflexivity|].
    change (2 ^ 0)%Q with (inject_Z 1). rewrite <- Zle_Qle. lia. }
  assert (He1 : ilog2 (inject_Z n) <= 53).
  { rewrite <- (ilog2_pow2 53). apply ilog2_mono; [exact Hx|].
    rewrite pow2_Z by lia. rewrite <- Zle_Qle. exact Hmax. }
  set (e := ilog2 (inject_Z n)) in *.
  destruct (Z.eq_dec e 53) as [He|He].
  - assert (Hn : n = 2 ^ 53).
    { rewrite He, pow2_Z in Hlo by lia. rewrite <- Zle_Qle in Hlo. lia. }
    apply (round_pos_exact _ (2 ^ 52) Hx). fold e. rewrite He, Hn. reflexivity.
  - apply (round_pos_exact _ (n * 2 ^ (52 - e)) Hx). fold e.
    rewrite inject_Z_mult, <- pow2_Z, <- Qmult_assoc, <- pow2_add by lia.
    replace (52 - e + (e - 52)) with 0 by lia. change (2 ^ 0)%Q with 1%Q. ring.
Qed.

Lemma round64_Z (n : Z) : Z.abs n <= 2 ^ 53 → (round64 (inject_Z n) == inject_Z n)%Q.
Proof.
  intros Hn. destruct (Z.lt_trichotomy n 0) as [Hneg|[->|Hpos]].
  - assert (Hx : (inject_Z n < 0)%Q)
      by (change 0%Q with (inject_Z 0); rewrite <- Zlt_Qlt; exact Hneg).
    rewrite (round64_neg _ Hx), <- inject_Z_opp, round_pos_Z by lia.
    rewrite inject_Z_opp. ring.
  - reflexivity.
  - assert (Hx : (0 < inject_Z n)%Q)
      by (change 0%Q with (inject_Z 0); rewrite <- Zlt_Qlt; exact Hpos).
    rewrite (round64_pos _ Hx). apply round_pos_Z. lia.
Qed.


(** ** TimeMath *)

Lemma Qfloor_unique (x : Q) (z : Z) :
  (inject_Z z <= x)%Q → (x < inject_Z z + 1)%Q → Qfloor x = z.
Proof.
  intros Hlo Hhi.
  pose proof (Qfloor_le x) as Hf1.
  pose proof (Qlt_floor x) as Hf2.
  rewrite inject_Z_plus in Hf2. change (inject_Z 1) with 1%Q in Hf2.
  assert (Hlt1 : (inject_Z z < inject_Z (Qfloor x) + 1)%Q) by lra.
  assert (Hlt2 : (inject_Z (Qfloor x) < inject_Z z + 1)%Q) by lra.
  change 1%Q with (inject_Z 1) in Hlt1, Hlt2.
  rewrite <- inject_Z_plus in Hlt1, Hlt2.
  rewrite <- Zlt_Qlt in Hlt1, Hlt2. lia.
Qed.

Lemma round64_bounds (x : Q) :
  (x - Qabs x / inject_Z (2 ^ 53) <= round64 x ∧
   round64 x <= x + Qabs x / inject_Z (2 ^ 53))%Q.
Proof.
  pose proof (round64_error x) as H. apply Qabs_Qle_condition in H. split; lra.
Qed.

(** The minutes the code computes lie between 0 and 60 and differ from the
    exact remainder by rounding errors only. *)
Lemma minutes_over_near (h : Q) (H : Z) :
  (inject_Z H <= h)%Q → (h < inject_Z H + 1)%Q →
  (0 <= minutes_over h H ∧ minutes_over h H <= 60 ∧
   Qabs (minutes_over h H - (h - inject_Z H) * 60) <= 180 / inject_Z (2 ^ 53))%Q.
Proof.
  intros Hlo Hhi. unfold minutes_over.
  set (r := (h - inject_Z H)%Q).
  assert (Hr : (0 <= r ∧ r < 1)%Q) by (unfold r; split; lra).
  set (a := round64 r).
  assert (Ha0 : (0 <= a)%Q) by (apply round64_nonneg; tauto).
  assert (Ha1 : (a <= 1)%Q).
  { change 1%Q with (round64 1). apply round64_mono. lra. }
  destruct (round64_bounds r) as [A1 A2]. fold a in A1, A2.
  rewrite (Qabs_pos r) in A1, A2 by tauto.
  set (m := round64 (a * 60)).
  assert (Hm0 : (0 <= m)%Q) by (apply round64_nonneg; lra).
  assert (Hm1 : (m <= 60)%Q).
  { change 60%Q with (round64 60). apply round64_mono. lra. }
  destruct (round64_bounds (a * 60)) as [B1 B2]. fold m in B1, B2.
  rewrite (Qabs_pos (a * 60)) in B1, B2 by lra.
  split; [exact Hm0|]. split; [exact Hm1|].
  apply Qabs_Qle_condition.
  assert (E : (0 < inject_Z (2 ^ 53))%Q) by reflexivity.
  set (k := inject_Z (2 ^ 53)) in *.
  assert (Hra : (r / k <= 1 / k)%Q).
  { apply Qmult_le_compat_r; [lra | apply Qlt_le_weak, Qinv_lt_0_compat, E]. }
  assert (Hak : (a * 60 / k <= 60 / k)%Q).
  { apply Qmult_le_compat_r; [lra | apply Qlt_le_weak, Qinv_lt_0_compat, E]. }
  assert (E1 : (1 / k * 60 == 60 / k)%Q) by (field; unfold k; discriminate).
  assert (E2 : (180 / k == 60 / k + 60 / k + 60 / k)%Q) by (field; unfold k; discriminate).
  split; lra.
Qed.

Lemma splits_floor_round h H M :
  splits h H M → Math_floor h = H ∧ Math_round (minutes_over h H) = M.
Proof.
  intros (H1 & H2 & H3 & H4). split.
  - apply Qfloor_unique; assumption.
  - apply Qfloor_unique; lra.
Qed.

Lemma splits_exists h :
  splits h (Math_floor h) (Math_round (minutes_over h (Math_floor h))).
Proof.
  unfold splits, Math_floor, Math_round.
  pose proof (Qfloor_le h) as Hf1.
  pose proof (Qlt_floor h) as Hf2.
  rewrite inject_Z_plus in Hf2. change (inject_Z 1) with 1%Q in Hf2.
  set (x := minutes_over h (Qfloor h)).
  pose proof (Qfloor_le (x + (1#2))) as Hg1.
  pose proof (Qlt_floor (x + (1#2))) as Hg2.
  rewrite inject_Z_plus in Hg2. change (inject_Z 1) with 1%Q in Hg2.
  repeat split; lra.
Qed.

Lemma splits_minutes_range h H M : splits h H M → 0 <= M <= 60.
Proof.
  intros (H1 & H2 & H3 & H4).
  destruct (minutes_over_near h H H1 H2) as (M0 & M1 & _).
  assert (Hlo : (inject_Z (-1) < inject_Z M)%Q) by (change (inject_Z (-1)) with (-1)%Q; lra).
  assert (Hhi : (inject_Z M < inject_Z 61)%Q) by (change (inject_Z 61) with 61%Q; lra).
  rewrite <- Zlt_Qlt in Hlo, Hhi. lia.
Qed.

Lemma splits_near h H M :
  splits h H M →
  (Qabs (inject_Z M - (h - inject_Z H) * 60) <= (1 # 2) + 180 / inject_Z (2 ^ 53))%Q.
Proof.
  intros (H1 & H2 & H3 & H4).
  destruct (minutes_over_near h H H1 H2) as (_ & _ & Hn).
  apply Qabs_Qle_condition in Hn. apply Qabs_Qle_condition. split; lra.
Qed.

Lemma formatHours_render h H M :
  splits h H M → TimeMath.formatHours (Num h) = render H M.
Proof.
  intros Hs. destruct (splits_floor_round h H M Hs) as [HH HM].
  unfold TimeMath.formatHours, render. cbv zeta. fold (minutes_over h (Math_floor h)).
  rewrite HH, HM.
  destruct (Z.eqb_spec H 0) as [->|HH0].
  - reflexivity.
  - rewrite (decide_False (P := H = 0)) by assumption.
    destruct (Z.eqb_spec M 0) as [->|HM0].
    + rewrite (decide_True (P := 0 = 0)) by reflexivity.
      destruct (Z.eqb_spec H 1) as [->|HH1].
      * reflexivity.
      * rewrite (decide_False (P := H = 1)) by assumption. reflexivity.
    + rewrite (decide_False (P := M = 0)) by assumption. reflexivity.
Qed.

(** C7: [formatHours] splits its argument into whole hours [H] and minutes
    [M] rounded half-up, and renders them as "[M] minutes" when [H] is 0, as
    "[H] hour" or "[H] hours" (singular exactly for 1) when [M] is 0, and as
    "[H]h [M]m" otherwise; 0, 1, 1.5 and 2 give "0 minutes", "1 hour",
    "1h 30m" and "2 hours".  [H] is the floor of the argument.  The minutes
    are rounded from the remainder as binary64 arithmetic computes it, so
    [M] lies between 0 and 60 and within half a minute, and a rounding error
    of at most 180 * 2^-53, of the exact remainder; every argument has
    exactly one such split. *)
Theorem formatHours_rendering (h : Q) (H M : Z) (Hsplit : splits h H M) :
  TimeMath.formatHours (Num h) = render H M ∧
  (∀ H' M', splits h H' M' → H' = H ∧ M' = M) ∧
  H = Qfloor h ∧
  0 <= M <= 60 ∧
  (Qabs (inject_Z M - (h - inject_Z H) * 60) <= (1 # 2) + 180 / inject_Z (2 ^ 53))%Q ∧
  (∀ x, ∃ Hx Mx, splits x Hx Mx) ∧
  TimeMath.formatHours (Num 0) = "0 minutes" ∧
  TimeMath.formatHours (Num 1) = "1 hour" ∧
  TimeMath.formatHours (Num (3 # 2)) = "1h 30m" ∧
  TimeMath.formatHours (Num 2) = "2 hours".
Proof.
  destruct (splits_floor_round h H M Hsplit) as [HH HM].
  split; [apply formatHours_render; exact Hsplit|].
  split.
  { intros H' M' Hs'. destruct (splits_floor_round h H' M' Hs') as [HH' HM'].
    assert (HE : H' = H) by congruence. split; [exact HE|].
    rewrite HE in HM'. congruence. }
  split; [symmetry; exact HH|].
  split; [apply (splits_minutes_range h H M Hsplit)|].
  split; [apply splits_near; exact Hsplit|].
  split; [intros x; eexists; eexists; apply splits_exists|].
  repeat split; vm_compute; reflexivity.
Qed.

Lemma formatHours_rendering_witness :
  splits (5 # 4) 1 15 ∧ TimeMath.formatHours (Num (5 # 4)) = "1h 15m".
Proof.
  assert (Hs : splits (5 # 4) 1 15)
    by (unfold splits; vm_compute; repeat split; discriminate).
  split; [exact Hs|].
  exact (proj1 (formatHours_rendering (5 # 4) 1 15 Hs)).
Defined.

(** C9: a minute count that rounds up to 60 is not carried into the hours:
    the output is "60 minutes" when the whole-hour part is 0 and "[H]h 60m"
    otherwise; 1.9999 gives "1h 60m". *)
Theorem formatHours_no_carry (h : Q) (H : Z) (Hsplit : splits h H 60) :
  TimeMath.formatHours (Num h)
  = (if decide (H = 0) then "60 minutes" else show H +:+ "h 60m") ∧
  TimeMath.formatHours (Num (19999 # 10000)) = "1h 60m".
Proof.
  split; [|vm_compute; reflexivity].
  rewrite (formatHours_render h H 60 Hsplit). unfold render.
  destruct (decide (H = 0)); reflexivity.
Qed.

Lemma formatHours_no_carry_witness :
  splits (127 # 128) 0 60 ∧ TimeMath.formatHours (Num (127 # 128)) = "60 minutes".
Proof.
  assert (Hs : splits (127 # 128) 0 60)
    by (unfold splits; vm_compute; repeat split; discriminate).
  split; [exact Hs|].
  exact (proj1 (formatHours_no_carry (127 # 128) 0 Hs)).
Defined.

(** What binary64 arithmetic makes of two inputs of [formatHours]: the
    number nearest to 0.075 has 4.5 minutes, not the 4.499... of exact
    arithmetic, and the number nearest to 121/120 has no minute at all. *)
Example formatHours_rounding :
  TimeMath.formatHours (Num (round64 (75 # 1000))) = "5 minutes" ∧
  TimeMath.formatHours (Num (round64 (121 # 120))) = "1 hour" ∧
  TimeMath.formatHours (Num (round64 (19999 # 10000))) = "1h 60m".
Proof. repeat split; vm_compute; reflexivity. Qed.

(** A whole number of hours from 2^53 on is printed with the fewest digits
    that read back, and from 10^21 on in exponent notation. *)
Example formatHours_large :
  TimeMath.formatHours (Num (inject_Z (2 ^ 64))) = "18446744073709552000 hours" ∧
  TimeMath.formatHours (Num (inject_Z (10 ^ 21))) = "1e+21 hours" ∧
  TimeMath.formatHours (Num (inject_Z (2 ^ 70))) = "1.1805916207174113e+21 hours".
Proof. repeat split; vm_compute; reflexivity. Qed.

(** The hours in a number of milliseconds. *)

Lemma hours_of_ms_zero : hours_of_ms 0 = 0%Q.
Proof. reflexivity. Qed.

Lemma hours_of_ms_mono (d1 d2 : Z) : d1 <= d2 → (hours_of_ms d1 <= hours_of_ms d2)%Q.
Proof.
  intros Hd. unfold hours_of_ms. apply round64_mono.
  apply Qmult_le_compat_r; [|discriminate].
  apply round64_mono. rewrite <- Zle_Qle. exact Hd.
Qed.

Lemma hours_of_ms_positive (d : Z) : 0 < d → (0 < hours_of_ms d)%Q.
Proof.
  intros Hd. unfold hours_of_ms. apply round64_positive.
  apply Qlt_shift_div_l; [reflexivity|]. rewrite Qmult_0_l.
  apply round64_positive. change 0%Q with (inject_Z 0). rewrite <- Zlt_Qlt. exact Hd.
Qed.

Lemma hours_of_ms_nonpos (d : Z) : d <= 0 → (hours_of_ms d <= 0)%Q.
Proof.
  intros Hd. rewrite <- hours_of_ms_zero. apply hours_of_ms_mono, Hd.
Qed.

Lemma Qmax_hours (d : Z) : (Qmax 0 (hours_of_ms d) == hours_of_ms (Z.max 0 d))%Q.
Proof.
  destruct (Z.le_gt_cases d 0) as [Hd|Hd].
  - rewrite Z.max_l by exact Hd. rewrite hours_of_ms_zero.
    apply Q.max_l. apply hours_of_ms_nonpos, Hd.
  - rewrite Z.max_r by lia. apply Q.max_r.
    apply Qlt_le_weak, hours_of_ms_positive. lia.
Qed.

(** For a difference that is itself a binary64 number the hours are the
    exact quotient, rounded once. *)
Lemma hours_of_ms_exact (d : Z) :
  Z.abs d <= 2 ^ 53 →
  (hours_of_ms d == round64 (inject_Z d / 3600000))%Q ∧
  (Qabs (hours_of_ms d * 3600000 - inject_Z d) <= Qabs (inject_Z d) / inject_Z (2 ^ 53))%Q.
Proof.
  intros Hd.
  assert (Heq : (hours_of_ms d == round64 (inject_Z d / 3600000))%Q).
  { unfold hours_of_ms. rewrite (round64_Z d Hd). reflexivity. }
  split; [exact Heq|]. rewrite Heq.
  pose proof (round64_error (inject_Z d / 3600000)) as He.
  set (x := inject_Z d) in *. set (k := inject_Z (2 ^ 53)) in *.
  assert (Hk : (0 < k)%Q) by reflexivity.
  assert (Eabs : (Qabs (x / 3600000) == Qabs x / 3600000)%Q).
  { unfold Qdiv. rewrite Qabs_Qmult. reflexivity. }
  rewrite Eabs in He.
  apply Qabs_Qle_condition in He. apply Qabs_Qle_condition.
  assert (E1 : (x / 3600000 * 3600000 == x)%Q) by (field).
  assert (E2 : (Qabs x / 3600000 / k * 3600000 == Qabs x / k)%Q)
    by (field; unfold k; discriminate).
  set (q := (x / 3600000)%Q) in *. set (b := (Qabs x / 3600000 / k)%Q) in *.
  set (c := (Qabs x / k)%Q) in *.
  split; lra.
Qed.

(** Two time values are at most 2 * 8.64e15 ms apart.  The hours between
    them, when not 0, lie between 2^-22 and 2^33: well inside the exponent
    range of binary64, so that [round64] is binary64 rounding here. *)
Lemma hours_of_ms_range (d : Z) :
  0 < d <= 17280000000000000 →
  (2 ^ (-22) <= hours_of_ms d ∧ hours_of_ms d <= 2 ^ 33)%Q.
Proof.
  intros [Hlo Hhi]. split.
  - eapply Qle_trans; [|apply (hours_of_ms_mono 1 d); lia].
    vm_compute. discriminate.
  - eapply Qle_trans; [apply (hours_of_ms_mono d 17280000000000000); lia|].
    vm_compute. discriminate.
Qed.

Lemma calculateHours_value (Date_parse : string → option Z)
  (startTime endTime : string) (s e : Z) :
  Date_parse ("2000-01-01 " +:+ startTime) = Some s →
  Date_parse ("2000-01-01 " +:+ endTime) = Some e →
  TimeMath.calculateHours Date_parse startTime endTime
  = Num (Qmax 0 (hours_of_ms (e - s))).
Proof.
  intros Hstart Hend. unfold TimeMath.calculateHours. rewrite Hstart, Hend. reflexivity.
Qed.

Lemma calculateHours_of_parse (Date_parse : string → option Z)
  (startTime endTime : string) (s e : Z)
  (Hstart : Date_parse ("2000-01-01 " +:+ startTime) = Some s)
  (Hend : Date_parse ("2000-01-01 " +:+ endTime) = Some e) :
  ∃ h : Q,
    TimeMath.calculateHours Date_parse startTime endTime = Num h ∧
    (h == hours_of_ms (Z.max 0 (e - s)))%Q ∧
    (0 <= h)%Q ∧
    (e <= s → (h == 0)%Q) ∧
    (s < e → (0 < h)%Q).
Proof.
  rewrite (calculateHours_value Date_parse startTime endTime s e Hstart Hend).
  eexists. split; [reflexivity|].
  pose proof (Qmax_hours (e - s)) as Hmax.
  split; [exact Hmax|]. split; [apply Q.le_max_l|]. split.
  - intros Hes. rewrite Hmax, Z.max_l by lia. reflexivity.
  - intros Hse. rewrite Hmax, Z.max_r by lia. apply hours_of_ms_positive. lia.
Qed.

(** On the reference host a time of day [HH:MM:SS] is read as that many
    milliseconds after midnight of 2000-01-01. *)
Lemma RefHost_clock (t : string) (ms : Z) :
  RefHost.parse_hms (list_ascii_of_string t) = Some ms →
  RefHost.Date_parse ("2000-01-01 " +:+ t) = Some (10957 * RefHost.ms_per_day + ms).
Proof.
  intros Ht.
  destruct t as [|h1 [|h2 [|c1 [|m1 [|m2 [|c2 [|s1 [|s2 [|x t]]]]]]]]];
    try discriminate Ht.
  unfold RefHost.Date_parse.
  set (t := String h1 _) in *.
  change (list_ascii_of_string ("2000-01-01 " +:+ t))
    with (list_ascii_of_string "2000-01-01 " ++ list_ascii_of_string t).
  cbv zeta.
  change (RefHost.parse_ymd (list_ascii_of_string "2000-01-01 " ++ list_ascii_of_string t))
    with (@None Z).
  change (take 10 (list_ascii_of_string "2000-01-01 " ++ list_ascii_of_string t))
    with (list_ascii_of_string "2000-01-01").
  change (drop 10 (list_ascii_of_string "2000-01-01 " ++ list_ascii_of_string t))
    with (" "%char :: list_ascii_of_string t).
  change (RefHost.parse_ymd (list_ascii_of_string "2000-01-01")) with (Some 10957).
  cbv iota. rewrite Ht. reflexivity.
Qed.

(** The clamp in seconds of day, on the reference host. *)
Lemma calculateHours_clock (startTime endTime : string) (s e : Z) :
  RefHost.parse_hms (list_ascii_of_string startTime) = Some s →
  RefHost.parse_hms (list_ascii_of_string endTime) = Some e →
  ∃ h : Q,
    TimeMath.calculateHours RefHost.Date_parse startTime endTime = Num h ∧
    (h == hours_of_ms (Z.max 0 (e - s)))%Q.
Proof.
  intros Hs He.
  destruct (calculateHours_of_parse RefHost.Date_parse startTime endTime _ _
              (RefHost_clock _ _ Hs) (RefHost_clock _ _ He)) as (h & Hh & Hms & _).
  exists h. split; [exact Hh|].
  rewrite Hms. replace (10957 * RefHost.ms_per_day + e - (10957 * RefHost.ms_per_day + s))
    with (e - s) by lia. reflexivity.
Qed.

(** C3: when both times of day are read on the common date, [calculateHours]
    returns the hours in max(0, end - start) milliseconds as a binary64
    number: the difference and its quotient by 3 600 000 are each rounded
    to the nearest such number.  For two times less than 2^53 ms apart, as
    two times on one date are, the difference is exact and the result is
    the binary64 number nearest to the exact quotient, within a relative
    error of 2^-53.  The result is never negative, it is 0 whenever the end
    is not after the start, and positive otherwise. *)
Theorem calculateHours_clamped (Date_parse : string → option Z)
  (startTime endTime : string) (s e : Z)
  (Hstart : Date_parse ("2000-01-01 " +:+ startTime) = Some s)
  (Hend : Date_parse ("2000-01-01 " +:+ endTime) = Some e) :
  ∃ h : Q,
    TimeMath.calculateHours Date_parse startTime endTime = Num h ∧
    (h == round64 (round64 (inject_Z (Z.max 0 (e - s))) / 3600000))%Q ∧
    (Z.abs (e - s) <= 2 ^ 53 →
       (h == round64 (inject_Z (Z.max 0 (e - s)) / 3600000))%Q ∧
       (Qabs (h * 3600000 - inject_Z (Z.max 0 (e - s)))
        <= inject_Z (Z.max 0 (e - s)) / inject_Z (2 ^ 53))%Q) ∧
    (0 <= h)%Q ∧
    (e <= s → (h == 0)%Q) ∧
    (s < e → (0 < h)%Q).
Proof.
  destruct (calculateHours_of_parse Date_parse startTime endTime s e Hstart Hend)
    as (h & Hh & Hms & Hpos & Hzero & Hlt).
  exists h. split; [exact Hh|]. split; [exact Hms|]. split; [|auto].
  intros Hsmall.
  destruct (hours_of_ms_exact (Z.max 0 (e - s)) ltac:(lia)) as [Hq Herr].
  rewrite Hms. split; [exact Hq|].
  rewrite (Qabs_pos (inject_Z (Z.max 0 (e - s)))) in Herr; [exact Herr|].
  change 0%Q with (inject_Z 0). rewrite <- Zle_Qle. lia.
Qed.

Lemma calculateHours_clamped_witness :
  TimeMath.calculateHours RefHost.Date_parse "09:00:00" "17:30:00" = Num (17 # 2) ∧
  TimeMath.calculateHours RefHost.Date_parse "09:00:00" "10:00:30"
  = Num (2270564812132625 # 2251799813685248) ∧
  TimeMath.calculateHours RefHost.Date_parse "22:00:00" "06:00:00" = Num 0.
Proof.
  destruct (calculateHours_clamped RefHost.Date_parse "09:00:00" "17:30:00"
              946717200000 946747800000 eq_refl eq_refl) as (h & Hh & _).
  split; [rewrite Hh; f_equal; vm_compute in Hh; congruence|].
  split; vm_compute; reflexivity.
Defined.

(** ** The record store *)

Lemma eqb_empty_false (s : string) : s ≠ "" → String.eqb s "" = false.
Proof. intros Hs. apply String.eqb_neq. exact Hs. Qed.

Lemma lookup_store_record (records : Records) (u d : string) (r : AttendanceRecord) :
  lookup_record (store_record records u d r) u d = Some r.
Proof.
  unfold lookup_record, store_record.
  rewrite lookup_insert_eq. apply lookup_insert_eq.
Qed.

Lemma lookup_JSON_roundtrip (records : Records) (u d : string) :
  lookup_record (JSON_roundtrip records) u d
  = json_record <$> lookup_record records u d.
Proof.
  unfold lookup_record, JSON_roundtrip.
  rewrite lookup_fmap. destruct (records !! u) as [userRecords|]; simpl.
  - apply lookup_fmap.
  - reflexivity.
Qed.

Lemma lookup_record_default (records : Records) (u d : string) :
  default ∅ (records !! u) !! d = lookup_record records u d.
Proof.
  unfold lookup_record. destruct (records !! u); simpl; [reflexivity | apply lookup_empty].
Qed.

Lemma lookup_store_record_other (records : Records) (u d u' d' : string)
  (r : AttendanceRecord) :
  (u', d') ≠ (u, d) →
  lookup_record (store_record records u d r) u' d' = lookup_record records u' d'.
Proof.
  intros Hne. unfold store_record.
  destruct (decide (u = u')) as [<-|Hu].
  - unfold lookup_record at 1. rewrite lookup_insert_eq.
    rewrite lookup_insert_ne by congruence. apply lookup_record_default.
  - unfold lookup_record. rewrite lookup_insert_ne by exact Hu. reflexivity.
Qed.

(** What a later read finds at the date just written. *)
Lemma lookup_after_write (records : Records) (st : Storage) (u d : string)
  (r : AttendanceRecord) :
  lookup_record
    (getAttendanceRecords (snd (setAttendanceRecords true (store_record records u d r) st)))
    u d
  = Some (json_record r).
Proof.
  simpl. rewrite lookup_JSON_roundtrip, lookup_store_record. reflexivity.
Qed.

(** Creating the user's dictionary first does not change what is looked up
    or what is stored. *)
Lemma lookup_record_init (records : Records) (u d : string) :
  lookup_record
    (match records !! u with Some _ => records | None => <[u := ∅]> records end) u d
  = lookup_record records u d.
Proof.
  unfold lookup_record. destruct (records !! u) as [userRecords|] eqn:Hu.
  - rewrite Hu. reflexivity.
  - rewrite lookup_insert_eq. apply lookup_empty.
Qed.

Lemma store_record_init (records : Records) (u d : string) (r : AttendanceRecord) :
  store_record
    (match records !! u with Some _ => records | None => <[u := ∅]> records end) u d r
  = store_record records u d r.
Proof.
  unfold store_record. destruct (records !! u) as [userRecords|] eqn:Hu.
  - rewrite Hu. reflexivity.
  - rewrite lookup_insert_eq. simpl. apply insert_insert_eq.
Qed.

(** ** punchIn *)

Lemma punched_in_dec env st userEmail :
  punched_in env st userEmail ∨ ¬ punched_in env st userEmail.
Proof.
  unfold punched_in.
  destruct (lookup_record (getAttendanceRecords st) userEmail (getCurrentDate env))
    as [r|] eqn:Hr.
  - destruct (truthy (Rec.punchIn r)) eqn:Hin.
    + left. exists r. split; [reflexivity | exact Hin].
    + right. intros (r' & Hr' & Hin'). congruence.
  - right. intros (r' & Hr' & _). discriminate.
Qed.

Lemma truthy_true (v : option string) :
  truthy v = true ↔ ∃ s, v = Some s ∧ s ≠ "".
Proof.
  destruct v as [s|]; simpl.
  - rewrite negb_true_iff, String.eqb_neq. split.
    + intros Hs. exists s. split; [reflexivity | exact Hs].
    + intros (s' & [= <-] & Hs). exact Hs.
  - split; [discriminate | intros (s & Hs & _); discriminate].
Qed.

Lemma punchIn_rejected env st userEmail :
  userEmail ≠ "" → punched_in env st userEmail →
  punchIn env st userEmail = (punchIn_fail Failure.AlreadyPunchedIn, st).
Proof.
  intros Hu (r & Hr & Hin). unfold punchIn.
  rewrite (eqb_empty_false _ Hu). cbv zeta.
  rewrite lookup_record_init, Hr, Hin. reflexivity.
Qed.

Lemma punchIn_writes env st userEmail :
  userEmail ≠ "" → ¬ punched_in env st userEmail →
  punchIn env st userEmail
  = let '(ok, st') :=
      setAttendanceRecords (setItem_ok env)
        (store_record (getAttendanceRecords st) userEmail (getCurrentDate env)
           (punchIn_shell env)) st in
    if ok then
      ({| pi_success := true; pi_message := "Punched in successfully";
          pi_punchInTime := Some (getCurrentTime env);
          pi_date := Some (getCurrentDate env) |}, st')
    else (punchIn_fail Failure.PersistenceFailure_punchIn, st').
Proof.
  intros Hu Hnot. unfold punchIn.
  rewrite (eqb_empty_false _ Hu). cbv zeta.
  rewrite lookup_record_init, store_record_init.
  destruct (lookup_record (getAttendanceRecords st) userEmail (getCurrentDate env))
    as [r|] eqn:Hr.
  - destruct (truthy (Rec.punchIn r)) eqn:Hin.
    + exfalso. apply Hnot. exists r. split; [exact Hr | exact Hin].
    + reflexivity.
  - reflexivity.
Qed.

(** C2: for a non-empty user and a date neither of which is the name of
    an inherited property, [punchIn] fails with AlreadyPunchedIn exactly
    when today's record exists and has [punchIn] set, whatever its
    [punchOut]; otherwise it hands the store the mapping in which today's
    record is the fresh shell (punchIn and punchInTimestamp from the clock,
    no punchOut, workingHours 0, empty notes), and once the write has
    succeeded a read finds that shell. *)
Theorem punchIn_guard (env : Env) (st : Storage) (userEmail : string)
  (Huser : userEmail ≠ "")
  (Hkey : inherited_key userEmail = false)
  (Hdate : inherited_key (getCurrentDate env) = false) :
  let res := punchIn env st userEmail in
  (pi_message (fst res) = Failure.AlreadyPunchedIn ↔ punched_in env st userEmail) ∧
  (punched_in env st userEmail →
     pi_success (fst res) = false ∧ snd res = st) ∧
  (¬ punched_in env st userEmail →
     snd res
     = snd (setAttendanceRecords (setItem_ok env)
              (store_record (getAttendanceRecords st) userEmail (getCurrentDate env)
                 {| Rec.date := getCurrentDate env;
                    Rec.punchIn := Some (getCurrentTime env);
                    Rec.punchInTimestamp := Some (toISOString env);
                    Rec.punchOut := None;
                    Rec.punchOutTimestamp := None;
                    Rec.workingHours := VNumber (Num 0);
                    Rec.notes := Some "" |}) st) ∧
     (setItem_ok env = true →
        pi_success (fst res) = true ∧
        lookup_record (getAttendanceRecords (snd res)) userEmail (getCurrentDate env)
        = Some {| Rec.date := getCurrentDate env;
                  Rec.punchIn := Some (getCurrentTime env);
                  Rec.punchInTimestamp := Some (toISOString env);
                  Rec.punchOut := None;
                  Rec.punchOutTimestamp := None;
                  Rec.workingHours := VNumber (Num 0);
                  Rec.notes := Some "" |})).
Proof.
  intros res. subst res.
  pose proof (punched_in_dec env st userEmail) as Hdec.
  split; [|split].
  - split.
    + intros Hmsg. destruct Hdec as [Hopen|Hnot]; [exact Hopen|].
      rewrite (punchIn_writes env st userEmail Huser Hnot) in Hmsg.
      unfold setAttendanceRecords in Hmsg.
      destruct (setItem_ok env); simpl in Hmsg; discriminate.
    + intros Hopen. rewrite (punchIn_rejected env st userEmail Huser Hopen). reflexivity.
  - intros Hopen. rewrite (punchIn_rejected env st userEmail Huser Hopen).
    split; reflexivity.
  - intros Hnot. rewrite (punchIn_writes env st userEmail Huser Hnot).
    fold (punchIn_shell env). split.
    + unfold setAttendanceRecords. destruct (setItem_ok env); reflexivity.
    + intros Hok. rewrite Hok. split; [reflexivity|].
      apply (lookup_after_write _ st).
Qed.

Lemma punchIn_guard_witness :
  pi_success (fst (punchIn Scenario.morning None Scenario.user)) = true ∧
  lookup_record (getAttendanceRecords Scenario.at_work) Scenario.user "2024-03-04"
  = Some (punchIn_shell Scenario.morning).
Proof.
  assert (Hu : Scenario.user ≠ "") by discriminate.
  destruct (punchIn_guard Scenario.morning None Scenario.user Hu eq_refl eq_refl)
    as (_ & _ & Hnew).
  apply Hnew.
  - intros (r & Hr & _). vm_compute in Hr. discriminate Hr.
  - reflexivity.
Defined.

(** C10: when today's record exists but its [punchIn] is absent, [punchIn]
    goes through (the store write succeeding) and the record a later read
    finds is the fresh shell: the stored punchOut, punchOutTimestamp,
    workingHours and notes are gone. *)
Theorem punchIn_replaces_record (env : Env) (st : Storage) (userEmail : string)
  (r : AttendanceRecord)
  (Huser : userEmail ≠ "")
  (Hrecord : lookup_record (getAttendanceRecords st) userEmail (getCurrentDate env) = Some r)
  (Habsent : truthy (Rec.punchIn r) = false)
  (Hwrite : setItem_ok env = true) :
  let res := punchIn env st userEmail in
  pi_success (fst res) = true ∧
  lookup_record (getAttendanceRecords (snd res)) userEmail (getCurrentDate env)
  = Some {| Rec.date := getCurrentDate env;
            Rec.punchIn := Some (getCurrentTime env);
            Rec.punchInTimestamp := Some (toISOString env);
            Rec.punchOut := None;
            Rec.punchOutTimestamp := None;
            Rec.workingHours := VNumber (Num 0);
            Rec.notes := Some "" |}.
Proof.
  intros res. subst res.
  assert (Hnot : ¬ punched_in env st userEmail).
  { intros (r' & Hr' & Hin'). rewrite Hrecord in Hr'. congruence. }
  rewrite (punchIn_writes env st userEmail Huser Hnot), Hwrite.
  split; [reflexivity|].
  apply (lookup_after_write _ st _ _ (punchIn_shell env)).
Qed.

Lemma punchIn_replaces_record_witness :
  lookup_record
    (getAttendanceRecords (snd (punchIn Scenario.morning Scenario.imported Scenario.user)))
    Scenario.user "2024-03-04"
  = Some (punchIn_shell Scenario.morning).
Proof.
  refine (proj2 (punchIn_replaces_record Scenario.morning Scenario.imported Scenario.user
                   Scenario.orphan _ _ _ _)).
  - discriminate.
  - vm_compute. reflexivity.
  - reflexivity.
  - reflexivity.
Defined.

(** ** Notes *)

Lemma trimStart_spec (s : string) :
  ∃ l, s = l +:+ trimStart s ∧ all_whitespace l = true ∧
       ∀ c, first_char (trimStart s) = Some c → is_whitespace c = false.
Proof.
  induction s as [|c s IH].
  - exists "". repeat split. intros c [=].
  - simpl trimStart. destruct (is_whitespace c) eqn:Hc.
    + destruct IH as (l & Hs & Hl & Hfirst).
      exists (String c l).
      split; [change (String c s = String c (l +:+ trimStart s)); f_equal; exact Hs|].
      split; [simpl; rewrite Hc, Hl; reflexivity | exact Hfirst].
    + exists "". repeat split. intros c' [= <-]. exact Hc.
Qed.

Lemma trimEnd_spec (s : string) :
  ∃ r, s = trimEnd s +:+ r ∧ all_whitespace r = true ∧
       (∀ c, last_char (trimEnd s) = Some c → is_whitespace c = false) ∧
       (∀ c, first_char (trimEnd s) = Some c → first_char s = Some c).
Proof.
  induction s as [|c s IH].
  - exists "". repeat split; intros c [=].
  - destruct IH as (r & Hs & Hr & Hlast & Hfirst).
    simpl trimEnd. destruct (trimEnd s) as [|d t] eqn:Ht.
    + change ("" +:+ r) with r in Hs. subst r. destruct (is_whitespace c) eqn:Hc.
      * exists (String c s).
        split; [reflexivity|]. split; [simpl; rewrite Hc, Hr; reflexivity|].
        split; intros c' [=].
      * exists s.
        split; [reflexivity|]. split; [exact Hr|]. split.
        -- intros c' [= <-]. exact Hc.
        -- intros c' [= <-]. reflexivity.
    + exists r.
      split; [change (String c s = String c (String d t +:+ r)); f_equal; exact Hs|].
      split; [exact Hr|]. split.
      * intros c' Hc'. apply Hlast.
        change (last_char (String c (String d t)))
          with (match last_char (String d t) with None => Some c | Some x => Some x end)
          in Hc'.
        destruct (last_char (String d t)) as [x|] eqn:Hx; [exact Hc'|].
        simpl in Hx. destruct (last_char t); discriminate Hx.
      * intros c' [= <-]. reflexivity.
Qed.

(** [trim] removes a whitespace prefix and a whitespace suffix, and what is
    left neither starts nor ends with whitespace. *)
Lemma trim_spec (s : string) : trimmed s (trim s).
Proof.
  unfold trimmed.
  destruct (trimStart_spec s) as (l & Hs & Hl & Hfirst).
  destruct (trimEnd_spec (trimStart s)) as (r & Ht & Hr & Hlast & Hkeep).
  exists l, r. unfold trim. rewrite <- Ht, <- Hs.
  split; [reflexivity|]. split; [exact Hl|]. split; [exact Hr|].
  split; [|exact Hlast].
  intros c Hc. apply Hfirst, Hkeep, Hc.
Qed.

(** ** punchOut *)

Lemma punchOut_absent Date_parse env st userEmail notes :
  userEmail ≠ "" →
  lookup_record (getAttendanceRecords st) userEmail (getCurrentDate env) = None →
  punchOut Date_parse env st userEmail notes
  = (punchOut_fail Failure.NoPunchInFound, st).
Proof.
  intros Hu Hr. unfold punchOut.
  rewrite (eqb_empty_false _ Hu). cbv zeta. rewrite Hr. reflexivity.
Qed.

Lemma punchOut_closed Date_parse env st userEmail notes r :
  userEmail ≠ "" →
  lookup_record (getAttendanceRecords st) userEmail (getCurrentDate env) = Some r →
  truthy (Rec.punchOut r) = true →
  punchOut Date_parse env st userEmail notes
  = (punchOut_fail Failure.AlreadyPunchedOut, st).
Proof.
  intros Hu Hr Hout. unfold punchOut.
  rewrite (eqb_empty_false _ Hu). cbv zeta. rewrite Hr, Hout. reflexivity.
Qed.

Lemma punchOut_never_in Date_parse env st userEmail notes r :
  userEmail ≠ "" →
  lookup_record (getAttendanceRecords st) userEmail (getCurrentDate env) = Some r →
  truthy (Rec.punchOut r) = false →
  truthy (Rec.punchIn r) = false →
  punchOut Date_parse env st userEmail notes
  = (punchOut_fail Failure.PunchInMissing, st).
Proof.
  intros Hu Hr Hout Hin. unfold punchOut.
  rewrite (eqb_empty_false _ Hu). cbv zeta. rewrite Hr, Hout, Hin. reflexivity.
Qed.

Lemma punchOut_writes Date_parse env st userEmail notes r pin :
  userEmail ≠ "" →
  lookup_record (getAttendanceRecords st) userEmail (getCurrentDate env) = Some r →
  truthy (Rec.punchOut r) = false →
  Rec.punchIn r = Some pin → pin ≠ "" →
  punchOut Date_parse env st userEmail notes
  = let hours := calculateHours Date_parse pin (getCurrentTime env) in
    let '(ok, st') :=
      setAttendanceRecords (setItem_ok env)
        (store_record (getAttendanceRecords st) userEmail (getCurrentDate env)
           (punchOut_record Date_parse env r pin notes)) st in
    if ok then
      ({| po_success := true; po_message := "Punched out successfully";
          po_punchOutTime := Some (getCurrentTime env);
          po_workingHours := Some hours;
          po_formattedHours := Some (formatHours hours);
          po_date := Some (getCurrentDate env) |}, st')
    else (punchOut_fail Failure.PersistenceFailure_punchOut, st').
Proof.
  intros Hu Hr Hout Hin Hpin. unfold punchOut.
  rewrite (eqb_empty_false _ Hu). cbv zeta. rewrite Hr, Hout.
  assert (Ht : truthy (Rec.punchIn r) = true).
  { rewrite Hin. simpl. rewrite (eqb_empty_false _ Hpin). reflexivity. }
  rewrite Ht. simpl negb. cbv iota.
  unfold punchOut_record. rewrite Hin. reflexivity.
Qed.

(** C1: for a non-empty user and a date neither of which is the name of
    an inherited property, the checks of [punchOut] come in this order:
    NoPunchInFound when today's record is absent; else AlreadyPunchedOut when
    its [punchOut] is set; else PunchInMissing when its [punchIn] is absent;
    else the record gets workingHours = calculateHours(punchIn, now) - for
    times the host reads, the hours in max(0, now - punchIn) - punchOut and
    punchOutTimestamp from the clock and, as notes, the argument without its
    leading and trailing whitespace, and the mapping with that record is
    handed to the store; once the write has succeeded the call reports
    success with those hours and a read finds the record as the store
    serialises it, which is the record itself whenever the hours are a
    number. *)
Theorem punchOut_checks (Date_parse : string → option Z) (env : Env) (st : Storage)
  (userEmail notes : string) (Huser : userEmail ≠ "")
  (Hkey : inherited_key userEmail = false)
  (Hdate : inherited_key (getCurrentDate env) = false) :
  let today := getCurrentDate env in
  let records := getAttendanceRecords st in
  let res := punchOut Date_parse env st userEmail notes in
  (lookup_record records userEmail today = None →
     po_success (fst res) = false ∧
     po_message (fst res) = Failure.NoPunchInFound ∧ snd res = st) ∧
  (∀ r, lookup_record records userEmail today = Some r →
     truthy (Rec.punchOut r) = true →
     po_success (fst res) = false ∧
     po_message (fst res) = Failure.AlreadyPunchedOut ∧ snd res = st) ∧
  (∀ r, lookup_record records userEmail today = Some r →
     truthy (Rec.punchOut r) = false →
     truthy (Rec.punchIn r) = false →
     po_success (fst res) = false ∧
     po_message (fst res) = Failure.PunchInMissing ∧ snd res = st) ∧
  (∀ r pin, lookup_record records userEmail today = Some r →
     truthy (Rec.punchOut r) = false →
     Rec.punchIn r = Some pin → pin ≠ "" →
     let hours := calculateHours Date_parse pin (getCurrentTime env) in
     ∃ stored,
       trimmed notes stored ∧
       let closed :=
         {| Rec.date := Rec.date r;
            Rec.punchIn := Some pin;
            Rec.punchInTimestamp := Rec.punchInTimestamp r;
            Rec.punchOut := Some (getCurrentTime env);
            Rec.punchOutTimestamp := Some (toISOString env);
            Rec.workingHours := VNumber hours;
            Rec.notes := Some stored |} in
       (∀ s e, Date_parse ("2000-01-01 " +:+ pin) = Some s →
               Date_parse ("2000-01-01 " +:+ getCurrentTime env) = Some e →
               ∃ h, hours = Num h ∧ (h == hours_of_ms (Z.max 0 (e - s)))%Q) ∧
       snd res
       = snd (setAttendanceRecords (setItem_ok env)
                (store_record records userEmail today closed) st) ∧
       (setItem_ok env = true →
          po_success (fst res) = true ∧
          po_workingHours (fst res) = Some hours ∧
          po_formattedHours (fst res) = Some (formatHours hours) ∧
          lookup_record (getAttendanceRecords (snd res)) userEmail today
          = Some (json_record closed) ∧
          (∀ h, hours = Num h → json_record closed = closed))).
Proof.
  intros today records res. subst today records res.
  split; [|split; [|split]].
  - intros Hr. rewrite (punchOut_absent _ _ _ _ _ Huser Hr). repeat split.
  - intros r Hr Hout. rewrite (punchOut_closed _ _ _ _ _ _ Huser Hr Hout). repeat split.
  - intros r Hr Hout Hin.
    rewrite (punchOut_never_in _ _ _ _ _ _ Huser Hr Hout Hin). repeat split.
  - intros r pin Hr Hout Hin Hpin hours.
    exists (trim notes). split; [apply trim_spec|]. intros closed.
    rewrite (punchOut_writes _ _ _ _ _ _ _ Huser Hr Hout Hin Hpin).
    change closed with (punchOut_record Date_parse env r pin notes). cbv zeta.
    split.
    { intros s e Hs He.
      destruct (calculateHours_of_parse Date_parse pin (getCurrentTime env) s e Hs He)
        as (h & Hh & Hms & _).
      exists h. split; [exact Hh | exact Hms]. }
    split.
    + unfold setAttendanceRecords. destruct (setItem_ok env); reflexivity.
    + intros Hok. rewrite Hok.
      split; [reflexivity|]. split; [reflexivity|]. split; [reflexivity|].
      split; [apply (lookup_after_write _ st)|].
      intros h Hh. subst hours. unfold json_record, punchOut_record. simpl.
      rewrite Hh. reflexivity.
Qed.

Lemma punchOut_checks_witness :
  po_success
    (fst (punchOut RefHost.Date_parse Scenario.evening Scenario.at_work Scenario.user
            "  release day ")) = true ∧
  po_formattedHours
    (fst (punchOut RefHost.Date_parse Scenario.evening Scenario.at_work Scenario.user
            "  release day ")) = Some "8h 30m" ∧
  lookup_record (getAttendanceRecords Scenario.gone_home) Scenario.user "2024-03-04"
  = Some {| Rec.date := "2024-03-04";
            Rec.punchIn := Some "09:00:00";
            Rec.punchInTimestamp := Some "2024-03-04T09:00:00.000Z";
            Rec.punchOut := Some "17:30:00";
            Rec.punchOutTimestamp := Some "2024-03-04T17:30:00.000Z";
            Rec.workingHours := VNumber (Num (17 # 2));
            Rec.notes := Some "release day" |}.
Proof.
  assert (Hu : Scenario.user ≠ "") by discriminate.
  destruct (punchOut_checks RefHost.Date_parse Scenario.evening Scenario.at_work
              Scenario.user "  release day " Hu eq_refl eq_refl) as (_ & _ & _ & Hopen).
  destruct (Hopen (punchIn_shell Scenario.morning) "09:00:00")
    as (stored & _ & _ & _ & Hok).
  - vm_compute. reflexivity.
  - reflexivity.
  - reflexivity.
  - discriminate.
  - destruct (Hok eq_refl) as (Hs & _ & Hf & _).
    split; [exact Hs|]. split; [exact Hf|]. vm_compute. reflexivity.
Defined.

(** ** Failed writes *)

Lemma punchIn_failed_write env st userEmail :
  setItem_ok env = false →
  pi_success (fst (punchIn env st userEmail)) = false ∧
  snd (punchIn env st userEmail) = st.
Proof.
  intros Hfail.
  destruct (String.eqb_spec userEmail "") as [->|Hu]; [split; reflexivity|].
  destruct (punched_in_dec env st userEmail) as [Hopen|Hnot].
  - rewrite (punchIn_rejected env st userEmail Hu Hopen). split; reflexivity.
  - rewrite (punchIn_writes env st userEmail Hu Hnot), Hfail. split; reflexivity.
Qed.

Lemma punchOut_failed_write Date_parse env st userEmail notes :
  setItem_ok env = false →
  po_success (fst (punchOut Date_parse env st userEmail notes)) = false ∧
  snd (punchOut Date_parse env st userEmail notes) = st.
Proof.
  intros Hfail.
  destruct (String.eqb_spec userEmail "") as [->|Hu]; [split; reflexivity|].
  destruct (lookup_record (getAttendanceRecords st) userEmail (getCurrentDate env))
    as [r|] eqn:Hr.
  - destruct (truthy (Rec.punchOut r)) eqn:Hout.
    + rewrite (punchOut_closed _ _ _ _ _ _ Hu Hr Hout). split; reflexivity.
    + destruct (truthy (Rec.punchIn r)) eqn:Hin.
      * apply truthy_true in Hin as (pin & Hin & Hpin).
        rewrite (punchOut_writes _ _ _ _ _ _ _ Hu Hr Hout Hin Hpin).
        cbv zeta. rewrite Hfail. split; reflexivity.
      * rewrite (punchOut_never_in _ _ _ _ _ _ Hu Hr Hout Hin). split; reflexivity.
  - rewrite (punchOut_absent _ _ _ _ _ Hu Hr). split; reflexivity.
Qed.

(** C8: when the store write fails, [punchIn] and [punchOut] report failure
    and leave the persisted mapping as it was, so a later read sees nothing of
    the attempted update; when the call got as far as the write, the failure
    reported is PersistenceFailure.  The user and the date are not names of
    inherited properties: the operation then changes nothing but the object
    it parsed from the store, which the failed write discards. *)
Theorem failed_write_leaves_store (Date_parse : string → option Z) (env : Env)
  (st : Storage) (userEmail notes : string) (Hfail : setItem_ok env = false)
  (Hkey : inherited_key userEmail = false)
  (Hdate : inherited_key (getCurrentDate env) = false) :
  let res_in := punchIn env st userEmail in
  let res_out := punchOut Date_parse env st userEmail notes in
  (pi_success (fst res_in) = false ∧ snd res_in = st ∧
   getAttendanceRecords (snd res_in) = getAttendanceRecords st) ∧
  (po_success (fst res_out) = false ∧ snd res_out = st ∧
   getAttendanceRecords (snd res_out) = getAttendanceRecords st) ∧
  (userEmail ≠ "" → ¬ punched_in env st userEmail →
     pi_message (fst res_in) = Failure.PersistenceFailure_punchIn) ∧
  (∀ r, userEmail ≠ "" →
     lookup_record (getAttendanceRecords st) userEmail (getCurrentDate env) = Some r →
     truthy (Rec.punchOut r) = false → truthy (Rec.punchIn r) = true →
     po_message (fst res_out) = Failure.PersistenceFailure_punchOut).
Proof.
  intros res_in res_out. subst res_in res_out.
  destruct (punchIn_failed_write env st userEmail Hfail) as [Hs1 Hst1].
  destruct (punchOut_failed_write Date_parse env st userEmail notes Hfail) as [Hs2 Hst2].
  split; [|split; [|split]].
  - rewrite Hst1. repeat split. exact Hs1.
  - rewrite Hst2. repeat split. exact Hs2.
  - intros Hu Hnot. rewrite (punchIn_writes env st userEmail Hu Hnot), Hfail. reflexivity.
  - intros r Hu Hr Hout Hin. apply truthy_true in Hin as (pin & Hin & Hpin).
    rewrite (punchOut_writes _ _ _ _ _ _ _ Hu Hr Hout Hin Hpin).
    cbv zeta. rewrite Hfail. reflexivity.
Qed.

Lemma failed_write_leaves_store_witness :
  snd (punchOut RefHost.Date_parse Scenario.evening_quota_exceeded Scenario.at_work
         Scenario.user "") = Scenario.at_work ∧
  po_message
    (fst (punchOut RefHost.Date_parse Scenario.evening_quota_exceeded Scenario.at_work
            Scenario.user ""))
  = Failure.PersistenceFailure_punchOut.
Proof.
  destruct (failed_write_leaves_store RefHost.Date_parse Scenario.evening_quota_exceeded
              Scenario.at_work Scenario.user "" eq_refl eq_refl eq_refl)
    as (_ & (_ & Hst & _) & _ & Hmsg).
  split; [exact Hst|].
  apply (Hmsg (punchIn_shell Scenario.morning)).
  - discriminate.
  - vm_compute. reflexivity.
  - reflexivity.
  - reflexivity.
Defined.

(** ** Stores built by the engine *)

Lemma closed_day_is_terminal Date_parse env st userEmail notes r :
  userEmail ≠ "" →
  lookup_record (getAttendanceRecords st) userEmail (getCurrentDate env) = Some r →
  truthy (Rec.punchIn r) = true → truthy (Rec.punchOut r) = true →
  punchOut Date_parse env st userEmail notes
  = (punchOut_fail Failure.AlreadyPunchedOut, st) ∧
  punchIn env st userEmail = (punchIn_fail Failure.AlreadyPunchedIn, st).
Proof.
  intros Hu Hr Hin Hout. split.
  - apply (punchOut_closed _ _ _ _ _ r); assumption.
  - apply punchIn_rejected; [exact Hu|]. exists r. split; assumption.
Qed.

Lemma json_record_hours (r : AttendanceRecord) :
  hours_imply_punchIn r → hours_imply_punchIn (json_record r).
Proof.
  unfold hours_imply_punchIn. destruct r as [d pin pts pout pots wh nts]. simpl.
  destruct wh as [| |[q|]]; simpl; auto.
Qed.

Lemma write_keeps_hours_imply_punchIn (ok : bool) (st : Storage) (u d : string)
  (r : AttendanceRecord) :
  store_hours_imply_punchIn st → hours_imply_punchIn r →
  store_hours_imply_punchIn
    (snd (setAttendanceRecords ok (store_record (getAttendanceRecords st) u d r) st)).
Proof.
  intros Hst Hr. destruct ok; [|exact Hst].
  intros u' d' r' Hlook.
  change (lookup_record
            (JSON_roundtrip (store_record (getAttendanceRecords st) u d r)) u' d'
          = Some r') in Hlook.
  rewrite lookup_JSON_roundtrip in Hlook.
  destruct (decide ((u', d') = (u, d))) as [[= -> ->]|Hne].
  - rewrite lookup_store_record in Hlook. injection Hlook as <-.
    apply json_record_hours, Hr.
  - rewrite lookup_store_record_other in Hlook by exact Hne.
    destruct (lookup_record (getAttendanceRecords st) u' d') as [r0|] eqn:Hr0;
      [|discriminate Hlook].
    injection Hlook as <-. apply json_record_hours, (Hst u' d'), Hr0.
Qed.

Lemma punchIn_keeps_hours_imply_punchIn env st userEmail :
  store_hours_imply_punchIn st →
  store_hours_imply_punchIn (snd (punchIn env st userEmail)).
Proof.
  intros Hst.
  destruct (String.eqb_spec userEmail "") as [->|Hu]; [exact Hst|].
  destruct (punched_in_dec env st userEmail) as [Hopen|Hnot].
  - rewrite (punchIn_rejected env st userEmail Hu Hopen). exact Hst.
  - rewrite (punchIn_writes env st userEmail Hu Hnot).
    pose proof (write_keeps_hours_imply_punchIn (setItem_ok env) st userEmail
                  (getCurrentDate env) (punchIn_shell env) Hst) as Hkeep.
    destruct (setAttendanceRecords _ _ _) as [[|] st'];
      apply Hkeep; intros Hpos; discriminate Hpos.
Qed.

Lemma punchOut_keeps_hours_imply_punchIn Date_parse env st userEmail notes :
  store_hours_imply_punchIn st →
  store_hours_imply_punchIn (snd (punchOut Date_parse env st userEmail notes)).
Proof.
  intros Hst.
  destruct (String.eqb_spec userEmail "") as [->|Hu]; [exact Hst|].
  destruct (lookup_record (getAttendanceRecords st) userEmail (getCurrentDate env))
    as [r|] eqn:Hr.
  - destruct (truthy (Rec.punchOut r)) eqn:Hout.
    + rewrite (punchOut_closed _ _ _ _ _ _ Hu Hr Hout). exact Hst.
    + destruct (truthy (Rec.punchIn r)) eqn:Hin.
      * apply truthy_true in Hin as (pin & Hin & Hpin).
        rewrite (punchOut_writes _ _ _ _ _ _ _ Hu Hr Hout Hin Hpin). cbv zeta.
        pose proof (write_keeps_hours_imply_punchIn (setItem_ok env) st userEmail
                      (getCurrentDate env) (punchOut_record Date_parse env r pin notes)
                      Hst) as Hkeep.
        destruct (setAttendanceRecords _ _ _) as [[|] st'];
          apply Hkeep; intros _; apply truthy_true; exists pin; auto.
      * rewrite (punchOut_never_in _ _ _ _ _ _ Hu Hr Hout Hin). exact Hst.
  - rewrite (punchOut_absent _ _ _ _ _ Hu Hr). exact Hst.
Qed.

(** In a store the engine built, positive hours come with a punch-in. *)
Lemma engine_built_hours_imply_punchIn Date_parse st :
  engine_built Date_parse st → store_hours_imply_punchIn st.
Proof.
  induction 1 as [|env st userEmail Hst IH|env st userEmail notes Hst IH].
  - intros u d r Hlook. simpl in Hlook. unfold lookup_record in Hlook.
    rewrite lookup_empty in Hlook. discriminate Hlook.
  - apply punchIn_keeps_hours_imply_punchIn, IH.
  - apply punchOut_keeps_hours_imply_punchIn, IH.
Qed.

(** ** Record status *)

Lemma Qltb_lt (x y : Q) : Qltb x y = true ↔ (x < y)%Q.
Proof.
  unfold Qltb. rewrite negb_true_iff, <- not_true_iff_false, Qle_bool_iff.
  split; [apply Qnot_le_lt | apply Qlt_not_le].
Qed.

Lemma Qltb_ge (x y : Q) : Qltb x y = false ↔ (y <= x)%Q.
Proof.
  unfold Qltb. rewrite negb_false_iff. apply Qle_bool_iff.
Qed.

(** C6: the status label is "No Punch In" when [punchIn] is absent;
    otherwise "Missing Punch Out" when [punchOut] is absent; otherwise
    "Short Day" below 4 hours, "Full Day" from 8 hours on and "Partial Day"
    in between (also when the hours are not a number); a completed record
    with 8.5 hours is a "Full Day". *)
Theorem getRecordStatus_label (r : AttendanceRecord) :
  (truthy (Rec.punchIn r) = false → getRecordStatus r = "No Punch In") ∧
  (truthy (Rec.punchIn r) = true → truthy (Rec.punchOut r) = false →
     getRecordStatus r = "Missing Punch Out") ∧
  (truthy (Rec.punchIn r) = true → truthy (Rec.punchOut r) = true →
     (∀ q, ToNumber (Rec.workingHours r) = Num q →
        ((q < 4)%Q → getRecordStatus r = "Short Day") ∧
        ((8 <= q)%Q → getRecordStatus r = "Full Day") ∧
        ((4 <= q)%Q → (q < 8)%Q → getRecordStatus r = "Partial Day")) ∧
     (ToNumber (Rec.workingHours r) = NaN → getRecordStatus r = "Partial Day") ∧
     (Rec.workingHours r = VNumber (Num (17 # 2)) → getRecordStatus r = "Full Day")).
Proof.
  unfold getRecordStatus.
  split; [|split].
  - intros ->. reflexivity.
  - intros -> ->. reflexivity.
  - intros -> ->. simpl negb. cbv iota. simpl andb. cbv iota.
    split; [|split].
    + intros q ->. simpl.
      split; [|split].
      * intros Hlt. apply Qltb_lt in Hlt. rewrite Hlt. reflexivity.
      * intros Hge.
        assert (Hn : Qltb q 4 = false) by (apply Qltb_ge; lra).
        rewrite Hn. apply Qle_bool_iff in Hge. rewrite Hge. reflexivity.
      * intros Hge Hlt.
        assert (Hn : Qltb q 4 = false) by (apply Qltb_ge; exact Hge).
        rewrite Hn.
        assert (Hm : Qle_bool 8 q = false).
        { apply not_true_iff_false. rewrite Qle_bool_iff. lra. }
        rewrite Hm. reflexivity.
    + intros ->. reflexivity.
    + intros ->. reflexivity.
Qed.

Lemma getRecordStatus_label_witness :
  ∃ r, lookup_record (getAttendanceRecords Scenario.gone_home) Scenario.user "2024-03-04"
       = Some r ∧ getRecordStatus r = "Full Day".
Proof.
  eexists. split; [vm_compute; reflexivity|].
  match goal with
  | |- getRecordStatus ?r = _ =>
      destruct (getRecordStatus_label r) as (_ & _ & Hdone)
  end.
  destruct (Hdone eq_refl eq_refl) as (Hnum & _ & _).
  destruct (Hnum _ eq_refl) as (_ & Hfull & _).
  apply Hfull. unfold Qle. simpl. lia.
Defined.

(** ** History *)

Section History.
Variable Date_parse : string → option Z.
Variable Date_long : option Z → string.

Lemma Date_ge_spec (a b : option Z) :
  Date_ge a b = true ↔ ∃ x y, a = Some x ∧ b = Some y ∧ y <= x.
Proof.
  destruct a as [x|], b as [y|]; simpl.
  - rewrite Z.leb_le. split.
    + intros Hle. exists x, y. auto.
    + intros (x' & y' & [= <-] & [= <-] & Hle). exact Hle.
  - split; [discriminate | intros (x' & y' & _ & [=] & _)].
  - split; [discriminate | intros (x' & y' & [=] & _)].
  - split; [discriminate | intros (x' & y' & [=] & _)].
Qed.

Lemma range_test_spec (startDate endDate d : string) :
  Date_ge (Date_parse d) (Date_parse startDate)
  && Date_le (Date_parse d) (Date_parse endDate) = true
  ↔ in_range Date_parse startDate endDate d.
Proof.
  rewrite andb_true_iff. unfold Date_le. rewrite !Date_ge_spec. unfold in_range. split.
  - intros [(v & a & Hv & Ha & Hav) (b & v' & Hb & Hv' & Hvb)].
    rewrite Hv in Hv'. injection Hv' as <-.
    exists v, a, b. auto.
  - intros (v & a & b & Hv & Ha & Hb & Hav & Hvb). split.
    + exists v, a. auto.
    + exists b, v. auto.
Qed.

Lemma history_loop_elem (startDate endDate : string)
  (entries : list (string * AttendanceRecord)) (e : HistoryEntry) :
  e ∈ history_loop Date_parse Date_long (Date_parse startDate) (Date_parse endDate) entries
  ↔ ∃ date record, (date, record) ∈ entries
                   ∧ e = history_entry Date_parse Date_long date record
                   ∧ in_range Date_parse startDate endDate date.
Proof.
  induction entries as [|[date record] rest IH]; simpl.
  - split.
    + intros He. inversion He.
    + intros (date & record & He & _). inversion He.
  - destruct (Date_ge (Date_parse date) (Date_parse startDate)
              && Date_le (Date_parse date) (Date_parse endDate)) eqn:Htest.
    + rewrite elem_of_cons, IH. split.
      * intros [->|(d & r & Hin & He & Hr)].
        -- exists date, record. split; [left|]. split; [reflexivity|].
           apply range_test_spec. exact Htest.
        -- exists d, r. split; [right; exact Hin | auto].
      * intros (d & r & Hin & He & Hr).
        apply elem_of_cons in Hin as [[= -> ->]|Hin].
        -- left. exact He.
        -- right. exists d, r. auto.
    + rewrite IH. split.
      * intros (d & r & Hin & He & Hr). exists d, r. split; [right; exact Hin | auto].
      * intros (d & r & Hin & He & Hr).
        apply elem_of_cons in Hin as [[= -> ->]|Hin].
        -- apply range_test_spec in Hr. congruence.
        -- exists d, r. auto.
Qed.

(** The history holds exactly the stored records dated in the range. *)
Lemma getAttendanceHistory_elem (st : Storage) (userEmail startDate endDate : string)
  (e : HistoryEntry) :
  e ∈ getAttendanceHistory Date_parse Date_long st userEmail startDate endDate
  ↔ ∃ date record,
      lookup_record (getAttendanceRecords st) userEmail date = Some record
      ∧ e = history_entry Date_parse Date_long date record
      ∧ in_range Date_parse startDate endDate date.
Proof.
  unfold getAttendanceHistory, Array_sort, for_in.
  rewrite merge_sort_Permutation, history_loop_elem.
  split; intros (date & record & Hin & He & Hr); exists date, record.
  - apply elem_of_map_to_list in Hin. rewrite lookup_record_default in Hin. auto.
  - split; [|auto]. apply elem_of_map_to_list. rewrite lookup_record_default. exact Hin.
Qed.

#[local] Instance newest_first_total : Total (precedes (newest_first Date_parse)).
Proof.
  intros a b. unfold precedes, newest_first, TimeMath.Date_sub.
  destruct (Date_parse (Entry.date a)) as [va|], (Date_parse (Entry.date b)) as [vb|];
    simpl; auto.
  destruct (Z.le_ge_cases va vb) as [Hle|Hle].
  - right. apply Qltb_ge, round64_nonpos.
    change 0%Q with (inject_Z 0). rewrite <- Zle_Qle. lia.
  - left. apply Qltb_ge, round64_nonpos.
    change 0%Q with (inject_Z 0). rewrite <- Zle_Qle. lia.
Qed.

Lemma precedes_not_older (a b : HistoryEntry) (va vb : Z) :
  Date_parse (Entry.date a) = Some va → Date_parse (Entry.date b) = Some vb →
  precedes (newest_first Date_parse) a b → not_older Date_parse a b.
Proof.
  intros Ha Hb Hab. exists va, vb. split; [exact Ha|]. split; [exact Hb|].
  unfold precedes, newest_first, TimeMath.Date_sub in Hab. rewrite Ha, Hb in Hab.
  simpl in Hab. apply Qltb_ge in Hab.
  destruct (Z.le_gt_cases vb va) as [Hle|Hgt]; [exact Hle|].
  assert (Hpos : (0 < round64 (inject_Z (vb - va)))%Q).
  { apply round64_positive. change 0%Q with (inject_Z 0). rewrite <- Zlt_Qlt. lia. }
  exfalso. lra.
Qed.

Lemma not_older_trans (a b c : HistoryEntry) :
  not_older Date_parse a b → not_older Date_parse b c → not_older Date_parse a c.
Proof.
  intros (va & vb & Ha & Hb & Hab) (vb' & vc & Hb' & Hc & Hbc).
  rewrite Hb in Hb'. injection Hb' as <-.
  exists va, vc. split; [exact Ha|]. split; [exact Hc|]. lia.
Qed.

(** A list of validly dated entries that the comparator leaves in place is
    in descending order of date. *)
Lemma Sorted_newest_first (l : list HistoryEntry) :
  Forall (λ e, is_Some (Date_parse (Entry.date e))) l →
  Sorted (precedes (newest_first Date_parse)) l →
  StronglySorted (not_older Date_parse) l.
Proof.
  induction l as [|x l IH]; intros Hvalid Hsorted.
  - constructor.
  - apply Forall_cons in Hvalid as [[vx Hx] Hvalid].
    apply Sorted_inv in Hsorted as [Hsorted Hhd].
    specialize (IH Hvalid Hsorted).
    constructor; [exact IH|].
    destruct l as [|y l']; [constructor|].
    apply Forall_cons in Hvalid as [[vy Hy] _].
    apply HdRel_inv in Hhd.
    assert (Hxy : not_older Date_parse x y)
      by (eapply precedes_not_older; eassumption).
    apply StronglySorted_inv in IH as [_ Hrest].
    constructor; [exact Hxy|].
    eapply Forall_impl; [exact Hrest|].
    intros z Hyz. eapply not_older_trans; eassumption.
Qed.

(** C5: [getAttendanceHistory] returns entries only for dates that lie in
    the inclusive range and have a record in the store, and the returned
    sequence is in descending order of date. *)
Theorem getAttendanceHistory_range_sorted (st : Storage)
  (userEmail startDate endDate : string) :
  let history := getAttendanceHistory Date_parse Date_long st userEmail startDate endDate in
  (∀ e, e ∈ history →
     in_range Date_parse startDate endDate (Entry.date e) ∧
     ∃ record,
       lookup_record (getAttendanceRecords st) userEmail (Entry.date e) = Some record ∧
       e = history_entry Date_parse Date_long (Entry.date e) record) ∧
  StronglySorted (not_older Date_parse) history.
Proof.
  intros history. subst history.
  assert (Hfrom : ∀ e,
    e ∈ getAttendanceHistory Date_parse Date_long st userEmail startDate endDate →
    in_range Date_parse startDate endDate (Entry.date e) ∧
    ∃ record,
      lookup_record (getAttendanceRecords st) userEmail (Entry.date e) = Some record ∧
      e = history_entry Date_parse Date_long (Entry.date e) record).
  { intros e He. apply getAttendanceHistory_elem in He as (date & record & Hrec & -> & Hr).
    simpl. split; [exact Hr|]. exists record. split; [exact Hrec | reflexivity]. }
  split; [exact Hfrom|].
  apply Sorted_newest_first.
  - apply Forall_forall. intros e He.
    destruct (Hfrom e He) as [(v & a & b & Hv & _) _]. rewrite Hv. eexists; reflexivity.
  - unfold getAttendanceHistory, Array_sort. apply Sorted_merge_sort. apply _.
Qed.

End History.

Lemma getAttendanceHistory_range_sorted_witness :
  StronglySorted (not_older RefHost.Date_parse)
    (getAttendanceHistory RefHost.Date_parse RefHost.toLocaleDateString
       Scenario.ledger Scenario.user "2024-03-01" "2024-03-31").
Proof.
  exact (proj2 (getAttendanceHistory_range_sorted RefHost.Date_parse
                  RefHost.toLocaleDateString Scenario.ledger Scenario.user
                  "2024-03-01" "2024-03-31")).
Defined.

(** ** Summaries *)

Lemma count_cons (P : HistoryEntry → bool) (e : HistoryEntry) (l : list HistoryEntry) :
  count P (e :: l) = (if P e then 1 else 0) + count P l.
Proof.
  unfold count. cbn [List.filter]. destruct (P e); cbn [length]; lia.
Qed.

Lemma count_worked_le_present (l : list HistoryEntry) : count worked l <= count present l.
Proof.
  induction l as [|e l IH]; [reflexivity|].
  rewrite !count_cons.
  destruct (worked e) eqn:Hw, (present e) eqn:Hp; try lia.
  unfold worked in Hw. unfold present in Hp. rewrite Hp in Hw. discriminate Hw.
Qed.

Lemma weekly_step_eq (t : Q) (w p : Z) (e : HistoryEntry) :
  weekly_step (t, w, p) e
  = (if worked e then add_hours t e else t,
     w + (if worked e then 1 else 0),
     p + (if present e then 1 else 0)).
Proof.
  unfold weekly_step, worked, present, add_hours.
  destruct (truthy (Entry.punchIn e)), (Qltb 0 (Entry.workingHours e));
    simpl; rewrite ?Z.add_0_r; reflexivity.
Qed.

Lemma monthly_step_eq (t : Q) (w p f : Z) (e : HistoryEntry) :
  ∃ f', monthly_step (t, w, p, f) e
        = (if worked e then add_hours t e else t,
           w + (if worked e then 1 else 0),
           p + (if present e then 1 else 0), f').
Proof.
  unfold monthly_step, worked, present, add_hours.
  destruct (truthy (Entry.punchIn e)), (Qltb 0 (Entry.workingHours e));
    simpl; try destruct (Qle_bool 8 (Entry.workingHours e));
    eexists; rewrite ?Z.add_0_r; reflexivity.
Qed.

(** The loop adds the hours of the entries it counts as worked, in the
    order of the history. *)
Lemma weekly_fold (l : list HistoryEntry) (t : Q) (w p : Z) :
  fold_left weekly_step l (t, w, p)
  = (fold_left add_hours (List.filter worked l) t,
     w + count worked l, p + count present l).
Proof.
  revert t w p. induction l as [|e l IH]; intros t w p.
  - unfold count. simpl. rewrite !Z.add_0_r. reflexivity.
  - cbn [fold_left]. rewrite weekly_step_eq, IH, !count_cons. cbn [List.filter].
    destruct (worked e), (present e); cbn [fold_left];
      rewrite ?Z.add_assoc; reflexivity.
Qed.

Lemma monthly_fold (l : list HistoryEntry) (t : Q) (w p f : Z) :
  ∃ f', fold_left monthly_step l (t, w, p, f)
        = (fold_left add_hours (List.filter worked l) t,
           w + count worked l, p + count present l, f').
Proof.
  revert t w p f. induction l as [|e l IH]; intros t w p f.
  - exists f. unfold count. simpl. rewrite !Z.add_0_r. reflexivity.
  - cbn [fold_left]. destruct (monthly_step_eq t w p f e) as (f1 & ->).
    match goal with
    | |- context [fold_left _ l (?a, ?b, ?c, ?d)] =>
        destruct (IH a b c d) as (f' & Hfold)
    end.
    exists f'. rewrite Hfold, !count_cons. cbn [List.filter].
    destruct (worked e), (present e); cbn [fold_left];
      rewrite ?Z.add_assoc; reflexivity.
Qed.

Lemma consistent_intro (history : list HistoryEntry) (s : Summary) :
  records s = history →
  totalHours s = sum_hours (List.filter worked history) →
  daysWorked s = count worked history →
  daysPresent s = count present history →
  averageHours s
  = (if 0 <? daysWorked s then round64 (totalHours s / inject_Z (daysWorked s))
     else 0%Q) →
  consistent worked s.
Proof.
  intros Hrec Htot Hw Hp Havg. unfold consistent.
  rewrite Hrec, Havg, Htot, Hw, Hp.
  split; [reflexivity|]. split; [reflexivity|]. split; [reflexivity|].
  split; [apply count_worked_le_present|]. split.
  - intros Hpos. apply Z.ltb_lt in Hpos. rewrite Hpos. reflexivity.
  - intros Hneg. apply Z.ltb_ge in Hneg. rewrite Hneg. reflexivity.
Qed.

(** On a history in which every entry with positive hours has [punchIn]
    set, [daysWorked] is also the number of entries with positive hours. *)
Lemma consistent_positive_hours (s : Summary) :
  (∀ e, In e (records s) → positive_hours e = true → present e = true) →
  consistent worked s → consistent positive_hours s.
Proof.
  intros Hwf. unfold consistent, count.
  assert (Hsame : List.filter positive_hours (records s) = List.filter worked (records s)).
  { apply List.filter_ext_in. intros e He. unfold worked.
    specialize (Hwf e He). unfold positive_hours, present in *.
    destruct (Qltb 0 (Entry.workingHours e)).
    - rewrite (Hwf eq_refl). reflexivity.
    - rewrite andb_false_r. reflexivity. }
  rewrite Hsame. tauto.
Qed.

Section Summaries.
Variable Date_parse : string → option Z.
Variable Date_long : option Z → string.
Variable toLocaleDateString : option Z → string.
Variable Date_plusDays : option Z → Z → option Z.
Variable Date_ymd : Z → Z → Z → option Z.

Lemma getWeeklySummary_consistent (st : Storage) (userEmail weekStartDate : string) :
  consistent worked
    (getWeeklySummary Date_parse Date_long toLocaleDateString Date_plusDays
       st userEmail weekStartDate).
Proof.
  unfold getWeeklySummary. cbv zeta.
  match goal with
  | |- context [fold_left weekly_step ?h _] =>
      rewrite (weekly_fold h 0%Q 0 0); apply (consistent_intro h)
  end; reflexivity.
Qed.

Lemma getMonthlySummary_consistent (st : Storage) (userEmail : string) (year month : Z) :
  consistent worked
    (getMonthlySummary Date_parse Date_long toLocaleDateString Date_ymd
       st userEmail year month).
Proof.
  unfold getMonthlySummary. cbv zeta.
  match goal with
  | |- context [fold_left monthly_step ?h _] =>
      destruct (monthly_fold h 0%Q 0 0 0) as (f & Hfold); rewrite Hfold;
      apply (consistent_intro h)
  end; reflexivity.
Qed.

Lemma getWeeklySummary_records (st : Storage) (userEmail weekStartDate : string) :
  records (getWeeklySummary Date_parse Date_long toLocaleDateString Date_plusDays
             st userEmail weekStartDate)
  = getAttendanceHistory Date_parse Date_long st userEmail
      (toLocaleDateString (Date_parse weekStartDate))
      (toLocaleDateString (Date_plusDays (Date_parse weekStartDate) 6)).
Proof.
  unfold getWeeklySummary. cbv zeta.
  destruct (fold_left weekly_step _ _) as [[t w] p]. reflexivity.
Qed.

Lemma getMonthlySummary_records (st : Storage) (userEmail : string) (year month : Z) :
  records (getMonthlySummary Date_parse Date_long toLocaleDateString Date_ymd
             st userEmail year month)
  = getAttendanceHistory Date_parse Date_long st userEmail
      (toLocaleDateString (Date_ymd year (month - 1) 1))
      (toLocaleDateString (Date_ymd year month 0)).
Proof.
  unfold getMonthlySummary. cbv zeta.
  destruct (fold_left monthly_step _ _) as [[[t w] p] f]. reflexivity.
Qed.

Lemma history_hours_imply_punchIn (st : Storage) (userEmail startDate endDate : string) :
  store_hours_imply_punchIn st →
  ∀ e, In e (getAttendanceHistory Date_parse Date_long st userEmail startDate endDate) →
       positive_hours e = true → present e = true.
Proof.
  intros Hst e He. apply list_elem_of_In in He.
  apply getAttendanceHistory_elem in He as (date & record & Hrec & -> & _).
  unfold positive_hours, present. simpl. apply (Hst userEmail date record Hrec).
Qed.

(** On a store in which positive hours come with a punch-in, [daysWorked]
    is the number of entries with positive hours and [totalHours] their
    sum. *)
Lemma invariant_summaries (st : Storage) (userEmail weekStartDate : string)
  (year month : Z) :
  store_hours_imply_punchIn st →
  consistent positive_hours
    (getWeeklySummary Date_parse Date_long toLocaleDateString Date_plusDays
       st userEmail weekStartDate) ∧
  consistent positive_hours
    (getMonthlySummary Date_parse Date_long toLocaleDateString Date_ymd
       st userEmail year month).
Proof.
  intros Hinv. split.
  - apply consistent_positive_hours; [|apply getWeeklySummary_consistent].
    rewrite getWeeklySummary_records. apply history_hours_imply_punchIn, Hinv.
  - apply consistent_positive_hours; [|apply getMonthlySummary_consistent].
    rewrite getMonthlySummary_records. apply history_hours_imply_punchIn, Hinv.
Qed.

Lemma engine_built_summaries (st : Storage) (userEmail weekStartDate : string)
  (year month : Z) :
  engine_built Date_parse st →
  consistent positive_hours
    (getWeeklySummary Date_parse Date_long toLocaleDateString Date_plusDays
       st userEmail weekStartDate) ∧
  consistent positive_hours
    (getMonthlySummary Date_parse Date_long toLocaleDateString Date_ymd
       st userEmail year month).
Proof.
  intros Hbuilt.
  apply invariant_summaries, (engine_built_hours_imply_punchIn Date_parse), Hbuilt.
Qed.

(** C4: on a store that meets the invariants of the data model - positive
    hours only on a record that has a punch-in, as in every store the engine
    builds - every weekly and monthly summary has [daysWorked] the number of
    history entries with positive hours, [totalHours] the sum of
    [workingHours] over exactly those entries, [daysPresent] the number of
    entries with [punchIn] set, which is at least [daysWorked], and
    [averageHours] the quotient [totalHours / daysWorked] when [daysWorked]
    is positive and 0 otherwise.  The sum is taken in the order of the
    history and it and the quotient are binary64 numbers.  The entries are
    those of the history of the week from [weekStartDate] or of the month. *)
Theorem summaries_consistent (st : Storage) (userEmail weekStartDate : string)
  (year month : Z)
  (Hinvariant : store_hours_imply_punchIn st) :
  let weekly :=
    getWeeklySummary Date_parse Date_long toLocaleDateString Date_plusDays
      st userEmail weekStartDate in
  let monthly :=
    getMonthlySummary Date_parse Date_long toLocaleDateString Date_ymd
      st userEmail year month in
  consistent positive_hours weekly ∧
  records weekly
  = getAttendanceHistory Date_parse Date_long st userEmail
      (toLocaleDateString (Date_parse weekStartDate))
      (toLocaleDateString (Date_plusDays (Date_parse weekStartDate) 6)) ∧
  consistent positive_hours monthly ∧
  records monthly
  = getAttendanceHistory Date_parse Date_long st userEmail
      (toLocaleDateString (Date_ymd year (month - 1) 1))
      (toLocaleDateString (Date_ymd year month 0)).
Proof.
  intros weekly monthly. subst weekly monthly.
  destruct (invariant_summaries st userEmail weekStartDate year month Hinvariant)
    as [Hweek Hmonth].
  split; [exact Hweek|].
  split; [apply getWeeklySummary_records|].
  split; [exact Hmonth | apply getMonthlySummary_records].
Qed.

End Summaries.

(** What the invariant is for: a stored record that has hours but no
    punch-in is an entry with positive hours that [daysWorked] leaves out. *)
Lemma summary_skips_unpunched_hours :
  let s :=
    getWeeklySummary RefHost.Date_parse RefHost.toLocaleDateString
      RefHost.toLocaleDateString RefHost.Date_plusDays
      Scenario.imported Scenario.user "2024-03-04" in
  daysWorked s = 0 ∧ count positive_hours (records s) = 1 ∧
  ¬ consistent positive_hours s.
Proof.
  split; [vm_compute; reflexivity|]. split; [vm_compute; reflexivity|].
  intros (_ & Hdays & _). vm_compute in Hdays. discriminate Hdays.
Qed.

Lemma summaries_consistent_witness :
  store_hours_imply_punchIn Scenario.gone_home ∧
  consistent positive_hours
    (getWeeklySummary RefHost.Date_parse RefHost.toLocaleDateString
       RefHost.toLocaleDateString RefHost.Date_plusDays
       Scenario.gone_home Scenario.user "2024-03-04").
Proof.
  assert (Hinv : store_hours_imply_punchIn Scenario.gone_home).
  { apply (engine_built_hours_imply_punchIn RefHost.Date_parse).
    apply built_punchOut, built_punchIn, built_empty. }
  split; [exact Hinv|].
  exact (proj1 (summaries_consistent RefHost.Date_parse RefHost.toLocaleDateString
                  RefHost.toLocaleDateString RefHost.Date_plusDays RefHost.Date_ymd
                  Scenario.gone_home Scenario.user "2024-03-04" 2024 3 Hinv)).
Defined.

(** ** Examples on the reference host *)

Example ref_parse_date : RefHost.Date_parse "2024-02-29" = Some (19782 * 86400000).
Proof. reflexivity. Qed.

Example ref_parse_clock :
  RefHost.Date_parse "2000-01-01 17:30:00" = Some (10957 * 86400000 + 63000000).
Proof. reflexivity. Qed.

Example ref_format_date :
  RefHost.toLocaleDateString (RefHost.Date_plusDays (RefHost.Date_parse "2024-02-26") 6)
  = "2024-03-03".
Proof. reflexivity. Qed.

Example ref_month_end :
  RefHost.toLocaleDateString (RefHost.Date_ymd 2024 2 0) = "2024-02-29".
Proof. reflexivity. Qed.

Example calculateHours_scenario :
  TimeMath.calculateHours RefHost.Date_parse "09:00:00" "17:30:00" = Num (17 # 2).
Proof. vm_compute. reflexivity. Qed.

Example history_of_march :
  map Entry.date
    (getAttendanceHistory RefHost.Date_parse RefHost.toLocaleDateString
       Scenario.ledger Scenario.user "2024-03-01" "2024-03-31")
  = ["2024-03-06"; "2024-03-05"; "2024-03-04"].
Proof. vm_compute. reflexivity. Qed.

Example status_of_march :
  map Entry.status
    (getAttendanceHistory RefHost.Date_parse RefHost.toLocaleDateString
       Scenario.ledger Scenario.user "2024-03-01" "2024-03-31")
  = ["Missing Punch Out"; "Short Day"; "Full Day"].
Proof. vm_compute. reflexivity. Qed.

Example week_of_march_4 :
  let s :=
    getWeeklySummary RefHost.Date_parse RefHost.toLocaleDateString
      RefHost.toLocaleDateString RefHost.Date_plusDays
      Scenario.ledger Scenario.user "2024-03-04" in
  (daysPresent s, daysWorked s, formattedTotalHours s, formattedAverageHours s)
  = (3, 2, "12 hours", "6 hours").
Proof. vm_compute. reflexivity. Qed.

Example february_2024 :
  let s :=
    getMonthlySummary RefHost.Date_parse RefHost.toLocaleDateString
      RefHost.toLocaleDateString RefHost.Date_ymd
      Scenario.ledger Scenario.user 2024 2 in
  (map Entry.date (records s), daysWorked s, fullDays s) = (["2024-02-29"], 1, Some 1).
Proof. vm_compute. reflexivity. Qed.

Example closed_day_is_final :
  po_message
    (fst (punchOut RefHost.Date_parse Scenario.evening Scenario.gone_home Scenario.user ""))
  = Failure.AlreadyPunchedOut ∧
  pi_message (fst (punchIn Scenario.evening Scenario.gone_home Scenario.user))
  = Failure.AlreadyPunchedIn.
Proof. split; vm_compute; reflexivity. Qed.

Example overnight_is_zero :
  TimeMath.calculateHours RefHost.Date_parse "22:00:00" "06:00:00" = Num 0.
Proof. vm_compute. reflexivity. Qed.

(** * Further properties of the engine *)

(** ** What an operation does to the store *)

(** [punchIn] either fails and hands back the store it was given, or has
    written the fresh shell at today's date. *)
Lemma punchIn_cases (env : Env) (st : Storage) (userEmail : string) :
  (pi_success (fst (punchIn env st userEmail)) = false ∧
   snd (punchIn env st userEmail) = st) ∨
  (userEmail ≠ "" ∧ ¬ punched_in env st userEmail ∧ setItem_ok env = true ∧
   pi_success (fst (punchIn env st userEmail)) = true ∧
   snd (punchIn env st userEmail)
   = Some (JSON_roundtrip
             (store_record (getAttendanceRecords st) userEmail (getCurrentDate env)
                (punchIn_shell env)))).
Proof.
  destruct (String.eqb_spec userEmail "") as [->|Hu]; [left; split; reflexivity|].
  destruct (punched_in_dec env st userEmail) as [Hopen|Hnot].
  - left. rewrite (punchIn_rejected env st userEmail Hu Hopen). split; reflexivity.
  - rewrite (punchIn_writes env st userEmail Hu Hnot).
    destruct (setItem_ok env) eqn:Hok.
    + right. repeat split; assumption.
    + left. split; reflexivity.
Qed.

(** [punchOut] either fails and hands back the store it was given, or has
    written the closed record at today's date. *)
Lemma punchOut_cases (Date_parse : string → option Z) (env : Env) (st : Storage)
  (userEmail notes : string) :
  (po_success (fst (punchOut Date_parse env st userEmail notes)) = false ∧
   snd (punchOut Date_parse env st userEmail notes) = st) ∨
  (∃ r pin,
     userEmail ≠ "" ∧
     lookup_record (getAttendanceRecords st) userEmail (getCurrentDate env) = Some r ∧
     truthy (Rec.punchOut r) = false ∧ Rec.punchIn r = Some pin ∧ pin ≠ "" ∧
     setItem_ok env = true ∧
     po_success (fst (punchOut Date_parse env st userEmail notes)) = true ∧
     snd (punchOut Date_parse env st userEmail notes)
     = Some (JSON_roundtrip
               (store_record (getAttendanceRecords st) userEmail (getCurrentDate env)
                  (punchOut_record Date_parse env r pin notes)))).
Proof.
  destruct (String.eqb_spec userEmail "") as [->|Hu]; [left; split; reflexivity|].
  destruct (lookup_record (getAttendanceRecords st) userEmail (getCurrentDate env))
    as [r|] eqn:Hr.
  - destruct (truthy (Rec.punchOut r)) eqn:Hout.
    + left. rewrite (punchOut_closed _ _ _ _ _ _ Hu Hr Hout). split; reflexivity.
    + destruct (truthy (Rec.punchIn r)) eqn:Hin.
      * apply truthy_true in Hin as (pin & Hin & Hpin).
        rewrite (punchOut_writes _ _ _ _ _ _ _ Hu Hr Hout Hin Hpin). cbv zeta.
        destruct (setItem_ok env) eqn:Hok.
        -- right. exists r, pin. repeat split; assumption.
        -- left. split; reflexivity.
      * left. rewrite (punchOut_never_in _ _ _ _ _ _ Hu Hr Hout Hin). split; reflexivity.
  - left. rewrite (punchOut_absent _ _ _ _ _ Hu Hr). split; reflexivity.
Qed.

(** X1: a punch-in or punch-out that reports failure, for whatever reason,
    has not written: the store is exactly the one it was given. *)
Theorem failed_punch_never_writes (Date_parse : string → option Z) (env : Env)
  (st : Storage) (userEmail notes : string) :
  (pi_success (fst (punchIn env st userEmail)) = false →
   snd (punchIn env st userEmail) = st) ∧
  (po_success (fst (punchOut Date_parse env st userEmail notes)) = false →
   snd (punchOut Date_parse env st userEmail notes) = st).
Proof.
  split.
  - intros Hfail. destruct (punchIn_cases env st userEmail) as [[_ Hst]|Hok].
    + exact Hst.
    + destruct Hok as (_ & _ & _ & Hs & _). rewrite Hs in Hfail. discriminate Hfail.
  - intros Hfail.
    destruct (punchOut_cases Date_parse env st userEmail notes) as [[_ Hst]|Hok].
    + exact Hst.
    + destruct Hok as (r & pin & _ & _ & _ & _ & _ & _ & Hs & _).
      rewrite Hs in Hfail. discriminate Hfail.
Qed.

Lemma failed_punch_never_writes_witness :
  snd (punchOut RefHost.Date_parse Scenario.evening Scenario.gone_home Scenario.user "late")
  = Scenario.gone_home.
Proof.
  apply (proj2 (failed_punch_never_writes RefHost.Date_parse Scenario.evening
                  Scenario.gone_home Scenario.user "late")).
  reflexivity.
Defined.

Lemma json_record_idem (r : AttendanceRecord) : json_record (json_record r) = json_record r.
Proof.
  destruct r as [d pin pts pout pots wh nts]. unfold json_record. simpl.
  destruct wh as [| |[q|]]; reflexivity.
Qed.

Lemma lookup_written (records : Records) (u d u' d' : string) (r : AttendanceRecord) :
  lookup_record (JSON_roundtrip (store_record records u d r)) u' d'
  = if decide ((u', d') = (u, d)) then Some (json_record r)
    else json_record <$> lookup_record records u' d'.
Proof.
  rewrite lookup_JSON_roundtrip.
  destruct (decide ((u', d') = (u, d))) as [[= -> ->]|Hne].
  - rewrite lookup_store_record. reflexivity.
  - rewrite lookup_store_record_other by exact Hne. reflexivity.
Qed.

Lemma written_store_as_read (records : Records) :
  store_as_read (Some (JSON_roundtrip records)).
Proof.
  intros u d r Hr. simpl in Hr. rewrite lookup_JSON_roundtrip in Hr.
  destruct (lookup_record records u d) as [r0|]; [|discriminate Hr].
  injection Hr as <-. apply json_record_idem.
Qed.

(** X2: on a store whose records are as a read returns them, a punch-in or
    punch-out of a user on a date, neither the name of an inherited
    property, leaves the record of every other user and of every other date
    exactly as it was, and the store it leaves is again such a store. *)
Theorem punch_touches_today_only (Date_parse : string → option Z) (env : Env)
  (st : Storage) (userEmail notes u d : string)
  (Hread : store_as_read st)
  (Hkey : inherited_key userEmail = false)
  (Hdate : inherited_key (getCurrentDate env) = false)
  (Hother : (u, d) ≠ (userEmail, getCurrentDate env)) :
  lookup_record (getAttendanceRecords (snd (punchIn env st userEmail))) u d
  = lookup_record (getAttendanceRecords st) u d ∧
  lookup_record
    (getAttendanceRecords (snd (punchOut Date_parse env st userEmail notes))) u d
  = lookup_record (getAttendanceRecords st) u d ∧
  store_as_read (snd (punchIn env st userEmail)) ∧
  store_as_read (snd (punchOut Date_parse env st userEmail notes)).
Proof.
  assert (Hframe : ∀ r0,
    lookup_record
      (JSON_roundtrip
         (store_record (getAttendanceRecords st) userEmail (getCurrentDate env) r0)) u d
    = lookup_record (getAttendanceRecords st) u d).
  { intros r0. rewrite lookup_written.
    destruct (decide ((u, d) = (userEmail, getCurrentDate env))) as [Heq|_];
      [contradiction|].
    destruct (lookup_record (getAttendanceRecords st) u d) as [r|] eqn:Hr;
      [|reflexivity].
    simpl. rewrite (Hread u d r Hr). reflexivity. }
  destruct (punchIn_cases env st userEmail) as [[_ Hin]|(_ & _ & _ & _ & Hin)];
    destruct (punchOut_cases Date_parse env st userEmail notes)
      as [[_ Hout]|(r & pin & _ & _ & _ & _ & _ & _ & _ & Hout)];
    rewrite Hin, Hout; simpl getAttendanceRecords; rewrite ?Hframe;
    repeat split; try exact Hread; apply written_store_as_read.
Qed.

Lemma punch_touches_today_only_witness :
  lookup_record
    (getAttendanceRecords (snd (punchIn Scenario.morning Scenario.ledger "ben@example.com")))
    Scenario.user "2024-03-05"
  = lookup_record (getAttendanceRecords Scenario.ledger) Scenario.user "2024-03-05".
Proof.
  refine (proj1 (punch_touches_today_only RefHost.Date_parse Scenario.morning
                   Scenario.ledger "ben@example.com" "" Scenario.user "2024-03-05"
                   _ eq_refl eq_refl _)).
  - intros u d r Hr. simpl in Hr. unfold lookup_record in Hr.
    destruct (decide (u = Scenario.user)) as [->|Hu].
    + unfold Scenario.ledger in Hr. rewrite lookup_singleton_eq in Hr.
      repeat (apply lookup_insert_Some in Hr as [[_ <-]|[_ Hr]]; [reflexivity|]).
      rewrite lookup_empty in Hr. discriminate Hr.
    + rewrite lookup_singleton_ne in Hr by congruence. discriminate Hr.
  - discriminate.
Defined.

(** X3: a record that has [punchIn] set is never changed by a punch-in of
    any user on any day, and a punch-out keeps its date, punchIn and
    punchInTimestamp; once [punchOut] is set as well a punch-out changes
    nothing either.  Records are compared as the store serialises them. *)
Theorem punched_record_is_kept (Date_parse : string → option Z) (env : Env)
  (st : Storage) (userEmail notes u d : string) (r : AttendanceRecord)
  (Hrecord : lookup_record (getAttendanceRecords st) u d = Some r)
  (Hin : truthy (Rec.punchIn r) = true) :
  (∃ r', lookup_record (getAttendanceRecords (snd (punchIn env st userEmail))) u d
         = Some r' ∧ json_record r' = json_record r) ∧
  (∃ r', lookup_record
           (getAttendanceRecords (snd (punchOut Date_parse env st userEmail notes))) u d
         = Some r' ∧
         Rec.date r' = Rec.date r ∧ Rec.punchIn r' = Rec.punchIn r ∧
         Rec.punchInTimestamp r' = Rec.punchInTimestamp r ∧
         (truthy (Rec.punchOut r) = true → json_record r' = json_record r)).
Proof.
  split.
  - destruct (punchIn_cases env st userEmail) as [[_ Hst]|(_ & Hnot & _ & _ & Hst)];
      rewrite Hst.
    + exists r. split; [exact Hrecord | reflexivity].
    + simpl getAttendanceRecords. rewrite lookup_written.
      destruct (decide ((u, d) = (userEmail, getCurrentDate env))) as [[= -> ->]|_].
      * exfalso. apply Hnot. exists r. split; assumption.
      * rewrite Hrecord. exists (json_record r). split; [reflexivity | apply json_record_idem].
  - destruct (punchOut_cases Date_parse env st userEmail notes)
      as [[_ Hst]|(r0 & pin & _ & Hr0 & Hout & Hpin & _ & _ & _ & Hst)]; rewrite Hst.
    + exists r. split; [exact Hrecord|]. repeat split.
    + simpl getAttendanceRecords. rewrite lookup_written.
      destruct (decide ((u, d) = (userEmail, getCurrentDate env))) as [[= -> ->]|_].
      * rewrite Hrecord in Hr0. injection Hr0 as <-.
        exists (json_record (punchOut_record Date_parse env r pin notes)).
        split; [reflexivity|]. simpl. rewrite Hpin.
        repeat split. intros Hset. congruence.
      * rewrite Hrecord. exists (json_record r). simpl.
        repeat split. intros _. apply json_record_idem.
Qed.

Lemma punched_record_is_kept_witness :
  ∃ r', lookup_record
          (getAttendanceRecords
             (snd (punchOut RefHost.Date_parse Scenario.evening Scenario.at_work
                     Scenario.user "")))
          Scenario.user "2024-03-04" = Some r' ∧
        Rec.punchIn r' = Some "09:00:00".
Proof.
  destruct (punched_record_is_kept RefHost.Date_parse Scenario.evening Scenario.at_work
              Scenario.user "" Scenario.user "2024-03-04"
              (punchIn_shell Scenario.morning) eq_refl eq_refl)
    as (_ & r' & Hr' & _ & Hpin & _).
  exists r'. split; [exact Hr' | exact Hpin].
Defined.

(** ** Status *)

Lemma getAttendanceRecord_today (env : Env) (st : Storage) (userEmail : string) :
  getAttendanceRecord env st userEmail None
  = lookup_record (getAttendanceRecords st) userEmail (getCurrentDate env).
Proof. reflexivity. Qed.

(** X4: while the store accepts writes, the two flags of the status tell
    whether the operation would go through now: [canPunchIn] is the success
    of [punchIn] and [canPunchOut] the success of [punchOut], for the same
    user and clock. *)
Theorem status_flags_predict_punch (Date_parse : string → option Z) (env : Env)
  (st : Storage) (userEmail notes : string)
  (Huser : userEmail ≠ "") (Hwrite : setItem_ok env = true) :
  canPunchIn (getAttendanceStatus Date_parse env st userEmail)
  = pi_success (fst (punchIn env st userEmail)) ∧
  canPunchOut (getAttendanceStatus Date_parse env st userEmail)
  = po_success (fst (punchOut Date_parse env st userEmail notes)).
Proof.
  unfold getAttendanceStatus. rewrite getAttendanceRecord_today.
  destruct (lookup_record (getAttendanceRecords st) userEmail (getCurrentDate env))
    as [r|] eqn:Hr.
  - destruct (truthy (Rec.punchIn r)) eqn:Hin.
    + assert (Hopen : punched_in env st userEmail) by (exists r; split; assumption).
      rewrite (punchIn_rejected env st userEmail Huser Hopen).
      destruct (truthy (Rec.punchOut r)) eqn:Hout; simpl.
      * rewrite (punchOut_closed _ _ _ _ _ _ Huser Hr Hout). split; reflexivity.
      * apply truthy_true in Hin as (pin & Hin & Hpin).
        rewrite (punchOut_writes _ _ _ _ _ _ _ Huser Hr Hout Hin Hpin).
        cbv zeta. rewrite Hwrite. split; reflexivity.
    + assert (Hnot : ¬ punched_in env st userEmail).
      { intros (r' & Hr' & Hin'). rewrite Hr in Hr'. congruence. }
      rewrite (punchIn_writes env st userEmail Huser Hnot), Hwrite. simpl.
      destruct (truthy (Rec.punchOut r)) eqn:Hout.
      * rewrite (punchOut_closed _ _ _ _ _ _ Huser Hr Hout). split; reflexivity.
      * rewrite (punchOut_never_in _ _ _ _ _ _ Huser Hr Hout Hin). split; reflexivity.
  - assert (Hnot : ¬ punched_in env st userEmail).
    { intros (r' & Hr' & _). rewrite Hr in Hr'. discriminate Hr'. }
    rewrite (punchIn_writes env st userEmail Huser Hnot), Hwrite.
    rewrite (punchOut_absent _ _ _ _ _ Huser Hr). split; reflexivity.
Qed.

Lemma status_flags_predict_punch_witness :
  canPunchOut (getAttendanceStatus RefHost.Date_parse Scenario.evening Scenario.at_work
                 Scenario.user) = true.
Proof.
  rewrite (proj2 (status_flags_predict_punch RefHost.Date_parse Scenario.evening
                    Scenario.at_work Scenario.user "" ltac:(discriminate) eq_refl)).
  reflexivity.
Defined.

(** X5: a working day from start to end.  For a user not yet punched in,
    user and date not being names of inherited properties, with the store
    accepting writes and the clock on the same date: the
    punch-in succeeds and the status is "punched_in"; the punch-out succeeds
    with the hours between the two clock times; the stored record holds both
    times, both instants, those hours and the trimmed notes; the status is
    "completed"; and every further punch-in or punch-out on that date is
    refused and leaves the store alone. *)
Theorem working_day (Date_parse : string → option Z) (morning evening : Env)
  (st : Storage) (userEmail notes : string)
  (Huser : userEmail ≠ "")
  (Hkey : inherited_key userEmail = false)
  (Hdate : inherited_key (getCurrentDate morning) = false)
  (Hday : getCurrentDate evening = getCurrentDate morning)
  (Hmorning : getCurrentTime morning ≠ "") (Hevening : getCurrentTime evening ≠ "")
  (Hwrite1 : setItem_ok morning = true) (Hwrite2 : setItem_ok evening = true)
  (Hfresh : ¬ punched_in morning st userEmail) :
  let st1 := snd (punchIn morning st userEmail) in
  let out := punchOut Date_parse evening st1 userEmail notes in
  let hours := calculateHours Date_parse (getCurrentTime morning) (getCurrentTime evening) in
  pi_success (fst (punchIn morning st userEmail)) = true ∧
  as_status (getAttendanceStatus Date_parse evening st1 userEmail) = "punched_in" ∧
  po_success (fst out) = true ∧
  po_workingHours (fst out) = Some hours ∧
  (∃ stored,
     trimmed notes stored ∧
     lookup_record (getAttendanceRecords (snd out)) userEmail (getCurrentDate morning)
     = Some (json_record
               {| Rec.date := getCurrentDate morning;
                  Rec.punchIn := Some (getCurrentTime morning);
                  Rec.punchInTimestamp := Some (toISOString morning);
                  Rec.punchOut := Some (getCurrentTime evening);
                  Rec.punchOutTimestamp := Some (toISOString evening);
                  Rec.workingHours := VNumber hours;
                  Rec.notes := Some stored |})) ∧
  as_status (getAttendanceStatus Date_parse evening (snd out) userEmail) = "completed" ∧
  (∀ later notes', getCurrentDate later = getCurrentDate morning →
     punchIn later (snd out) userEmail
     = (punchIn_fail Failure.AlreadyPunchedIn, snd out) ∧
     punchOut Date_parse later (snd out) userEmail notes'
     = (punchOut_fail Failure.AlreadyPunchedOut, snd out)).
Proof.
  intros st1 out hours. subst st1 out hours.
  rewrite (punchIn_writes morning st userEmail Huser Hfresh), Hwrite1.
  cbn [fst snd setAttendanceRecords].
  set (st1 := Some (JSON_roundtrip _)).
  assert (Hr1 : lookup_record (getAttendanceRecords st1) userEmail (getCurrentDate evening)
                = Some (punchIn_shell morning)).
  { rewrite Hday. unfold st1. simpl getAttendanceRecords.
    rewrite lookup_written, decide_True by reflexivity. reflexivity. }
  split; [reflexivity|]. split.
  { unfold getAttendanceStatus. rewrite getAttendanceRecord_today, Hr1. simpl.
    rewrite (eqb_empty_false _ Hmorning). reflexivity. }
  rewrite (punchOut_writes Date_parse evening st1 userEmail notes
             (punchIn_shell morning) (getCurrentTime morning) Huser Hr1
             eq_refl eq_refl Hmorning).
  cbv zeta. rewrite Hwrite2. cbn [fst snd setAttendanceRecords po_success po_workingHours].
  set (closed := punchOut_record Date_parse evening (punchIn_shell morning)
                   (getCurrentTime morning) notes).
  set (st2 := Some (JSON_roundtrip _)).
  assert (Hr2 : lookup_record (getAttendanceRecords st2) userEmail (getCurrentDate morning)
                = Some (json_record closed)).
  { unfold st2. simpl getAttendanceRecords. rewrite <- Hday.
    rewrite lookup_written, decide_True by reflexivity. reflexivity. }
  assert (Hin2 : truthy (Rec.punchIn (json_record closed)) = true).
  { simpl. rewrite (eqb_empty_false _ Hmorning). reflexivity. }
  assert (Hout2 : truthy (Rec.punchOut (json_record closed)) = true).
  { simpl. rewrite (eqb_empty_false _ Hevening). reflexivity. }
  split; [reflexivity|]. split; [reflexivity|].
  split; [exists (trim notes); split; [apply trim_spec | exact Hr2]|]. split.
  { unfold getAttendanceStatus. rewrite getAttendanceRecord_today, Hday, Hr2.
    rewrite Hin2, Hout2. reflexivity. }
  intros later notes' Hlater.
  rewrite <- Hlater in Hr2.
  destruct (closed_day_is_terminal Date_parse later st2 userEmail notes' _
              Huser Hr2 Hin2 Hout2) as [Hout Hin].
  split; [exact Hin | exact Hout].
Qed.

Lemma working_day_witness :
  as_status (getAttendanceStatus RefHost.Date_parse Scenario.evening Scenario.gone_home
               Scenario.user) = "completed".
Proof.
  refine (proj1 (proj2 (proj2 (proj2 (proj2 (proj2
            (working_day RefHost.Date_parse Scenario.morning Scenario.evening None
               Scenario.user "  release day " _ eq_refl eq_refl _ _ _ _ _ _))))))).
  - discriminate.
  - reflexivity.
  - discriminate.
  - discriminate.
  - reflexivity.
  - reflexivity.
  - intros (r & Hr & _). vm_compute in Hr. discriminate Hr.
Defined.

(** ** History and export *)

Lemma append_assoc (a b c : string) : (a +:+ b) +:+ c = a +:+ (b +:+ c).
Proof.
  induction a as [|x a IH]; [reflexivity|].
  change (String x ((a +:+ b) +:+ c) = String x (a +:+ (b +:+ c))). f_equal. exact IH.
Qed.

Lemma append_empty_r (a : string) : a +:+ "" = a.
Proof.
  induction a as [|x a IH]; [reflexivity|].
  change (String x (a +:+ "") = String x a). f_equal. exact IH.
Qed.

Section HistoryMore.
Variable Date_parse : string → option Z.
Variable Date_long : option Z → string.
Variable Date_weekday : option Z → string.

Lemma history_loop_dates (start end_ : option Z)
  (entries : list (string * AttendanceRecord)) :
  sublist (map Entry.date (history_loop Date_parse Date_long start end_ entries))
          (entries.*1).
Proof.
  induction entries as [|[date record] rest IH]; simpl; [constructor|].
  destruct (Date_ge (Date_parse date) start && Date_le (Date_parse date) end_).
  - simpl. apply sublist_skip. exact IH.
  - apply sublist_cons. exact IH.
Qed.

(** X6: the history has an entry for every stored record of the user whose
    date lies in the range, and no two entries carry the same date key. *)
Theorem history_has_each_day_once (st : Storage) (userEmail startDate endDate : string) :
  let history := getAttendanceHistory Date_parse Date_long st userEmail startDate endDate in
  (∀ date record,
     lookup_record (getAttendanceRecords st) userEmail date = Some record →
     in_range Date_parse startDate endDate date →
     history_entry Date_parse Date_long date record ∈ history) ∧
  NoDup (map Entry.date history).
Proof.
  intros history. subst history. split.
  - intros date record Hrec Hrange. apply getAttendanceHistory_elem.
    exists date, record. auto.
  - unfold getAttendanceHistory, Array_sort, for_in.
    rewrite merge_sort_Permutation.
    eapply sublist_NoDup; [|apply history_loop_dates].
    apply NoDup_fst_map_to_list.
Qed.

(** X7: there is no error for a bad range: when a bound does not parse as
    a date, when the end lies before the start, or when the user has no
    attendance dictionary, the history is empty and the export is the
    header line alone. *)
Theorem history_of_bad_range_is_empty (st : Storage)
  (userEmail startDate endDate : string)
  (Hbad : Date_parse startDate = None ∨ Date_parse endDate = None ∨
          (∃ a b, Date_parse startDate = Some a ∧ Date_parse endDate = Some b ∧ b < a) ∨
          getAttendanceRecords st !! userEmail = None) :
  getAttendanceHistory Date_parse Date_long st userEmail startDate endDate = [] ∧
  exportToCSV Date_parse Date_long Date_weekday st userEmail startDate endDate
  = csv_header.
Proof.
  assert (Hnil : getAttendanceHistory Date_parse Date_long st userEmail startDate endDate
                 = []).
  { apply elem_of_nil_inv. intros e He.
    apply getAttendanceHistory_elem in He
      as (date & record & Hrec & _ & (v & a & b & Hv & Ha & Hb & Hav & Hvb)).
    destruct Hbad as [Hs|[He|[(a' & b' & Ha' & Hb' & Hlt)|Hu]]].
    - congruence.
    - congruence.
    - rewrite Ha in Ha'. rewrite Hb in Hb'.
      injection Ha' as <-. injection Hb' as <-. lia.
    - unfold lookup_record in Hrec. rewrite Hu in Hrec. discriminate Hrec. }
  split; [exact Hnil|].
  unfold exportToCSV. rewrite Hnil. reflexivity.
Qed.

Lemma fold_rows (rows : list HistoryEntry) (csv : string) :
  fold_left (λ csv record, csv +:+ csv_row Date_parse Date_weekday record) rows csv
  = csv +:+ foldr (λ record rest, csv_row Date_parse Date_weekday record +:+ rest) "" rows.
Proof.
  revert csv. induction rows as [|record rows IH]; intros csv; simpl.
  - symmetry. apply append_empty_r.
  - rewrite IH. apply append_assoc.
Qed.

(** The export is the header line followed by one row for each entry of
    the history of the same range, in the order of the history (newest
    first), each row closed by a line feed. *)
Lemma exportToCSV_rows (st : Storage) (userEmail startDate endDate : string) :
  exportToCSV Date_parse Date_long Date_weekday st userEmail startDate endDate
  = csv_header
    +:+ foldr (λ record rest, csv_row Date_parse Date_weekday record +:+ rest) ""
          (getAttendanceHistory Date_parse Date_long st userEmail startDate endDate) ∧
  ∀ record, ∃ fields,
    csv_row Date_parse Date_weekday record = fields +:+ newline ∧
    first_char fields = Some "034"%char.
Proof.
  split.
  - unfold exportToCSV. apply fold_rows.
  - intros record. unfold csv_row, quoted.
    eexists. split.
    + rewrite <- !append_assoc. reflexivity.
    + reflexivity.
Qed.

End HistoryMore.

Lemma history_of_bad_range_is_empty_witness :
  getAttendanceHistory RefHost.Date_parse RefHost.toLocaleDateString
    Scenario.ledger Scenario.user "2024-03-31" "2024-03-01" = [].
Proof.
  refine (proj1 (history_of_bad_range_is_empty RefHost.Date_parse
                   RefHost.toLocaleDateString RefHost.toLocaleDateString
                   Scenario.ledger Scenario.user "2024-03-31" "2024-03-01" _)).
  right. right. left. exists (19813 * 86400000), (19783 * 86400000).
  split; [reflexivity|]. split; [reflexivity|]. lia.
Defined.

Lemma history_has_each_day_once_witness :
  history_entry RefHost.Date_parse RefHost.toLocaleDateString "2024-03-05"
    (Scenario.day "2024-03-05" (Some "10:00:00") (Some "13:30:00") (7 # 2))
  ∈ getAttendanceHistory RefHost.Date_parse RefHost.toLocaleDateString
      Scenario.ledger Scenario.user "2024-03-01" "2024-03-31".
Proof.
  refine (proj1 (history_has_each_day_once RefHost.Date_parse
                   RefHost.toLocaleDateString Scenario.ledger Scenario.user
                   "2024-03-01" "2024-03-31") "2024-03-05" _ _ _).
  - vm_compute. reflexivity.
  - exists (19787 * 86400000), (19783 * 86400000), (19813 * 86400000).
    split; [reflexivity|]. split; [reflexivity|]. split; [reflexivity|]. lia.
Defined.

(** ** More on summaries *)

Lemma monthly_step_full (t : Q) (w p f : Z) (e : HistoryEntry) :
  monthly_step (t, w, p, f) e
  = (if worked e then add_hours t e else t,
     w + (if worked e then 1 else 0),
     p + (if present e then 1 else 0),
     f + (if full_day e then 1 else 0)).
Proof.
  unfold monthly_step, full_day, worked, present, add_hours.
  destruct (truthy (Entry.punchIn e)), (Qltb 0 (Entry.workingHours e));
    simpl; try destruct (Qle_bool 8 (Entry.workingHours e));
    rewrite ?Z.add_0_r; reflexivity.
Qed.

Lemma monthly_fold_full (l : list HistoryEntry) (t : Q) (w p f : Z) :
  snd (fold_left monthly_step l (t, w, p, f)) = f + count full_day l.
Proof.
  revert t w p f. induction l as [|e l IH]; intros t w p f.
  - unfold count. simpl. lia.
  - cbn [fold_left]. rewrite monthly_step_full, IH, count_cons. lia.
Qed.

Lemma count_chain (l : list HistoryEntry) :
  0 <= count full_day l ∧ count full_day l <= count worked l ∧
  count present l <= Z.of_nat (length l).
Proof.
  induction l as [|e l (IH0 & IH1 & IH2)].
  - unfold count. simpl. lia.
  - rewrite !count_cons. cbn [length].
    unfold full_day at 1 3.
    destruct (worked e), (present e), (Qle_bool 8 (Entry.workingHours e)); simpl; lia.
Qed.

(** Adding positive hours keeps a sum that is not negative so, makes it
    positive, and leaves a binary64 number. *)
Lemma add_hours_positive (l : list HistoryEntry) (t : Q) :
  (0 <= t)%Q → Forall (λ e, worked e = true) l →
  (0 <= fold_left add_hours l t)%Q ∧
  ((0 < t)%Q ∨ l ≠ [] → (0 < fold_left add_hours l t)%Q).
Proof.
  revert t. induction l as [|e l IH]; intros t Ht Hl.
  - simpl. split; [exact Ht|]. intros [Hpos|Hne]; [exact Hpos | congruence].
  - apply Forall_cons in Hl as [He Hl].
    assert (Hpos : (0 < Entry.workingHours e)%Q).
    { unfold worked in He. apply andb_true_iff in He as [_ He]. apply Qltb_lt, He. }
    assert (Hstep : (0 < add_hours t e)%Q)
      by (unfold add_hours; apply round64_positive; lra).
    cbn [fold_left].
    destruct (IH (add_hours t e) ltac:(lra) Hl) as [_ IHpos].
    split; [apply Qlt_le_weak|]; auto.
Qed.

Lemma add_hours_binary64 (l : list HistoryEntry) (t : Q) :
  round64 t = t → round64 (fold_left add_hours l t) = fold_left add_hours l t.
Proof.
  revert t. induction l as [|e l IH]; intros t Ht; [exact Ht|].
  cbn [fold_left]. apply IH. unfold add_hours. apply round64_idem.
Qed.

Lemma filter_worked (l : list HistoryEntry) :
  Forall (λ e, worked e = true) (List.filter worked l).
Proof.
  apply Forall_forall. intros e He. apply list_elem_of_In, List.filter_In in He. tauto.
Qed.

Lemma sum_hours_worked (l : list HistoryEntry) :
  (0 <= sum_hours (List.filter worked l))%Q ∧
  (0 < count worked l → (0 < sum_hours (List.filter worked l))%Q) ∧
  (count worked l = 0 → List.filter worked l = []) ∧
  round64 (sum_hours (List.filter worked l)) = sum_hours (List.filter worked l).
Proof.
  unfold sum_hours, count.
  destruct (add_hours_positive (List.filter worked l) 0 ltac:(lra) (filter_worked l))
    as [H0 Hpos].
  split; [exact H0|]. split; [|split].
  - intros Hc. apply Hpos. right. intros Hnil. rewrite Hnil in Hc. simpl in Hc. lia.
  - intros Hc. destruct (List.filter worked l); [reflexivity | simpl in Hc; lia].
  - apply add_hours_binary64. reflexivity.
Qed.

Section SummariesMore.
Variable Date_parse : string → option Z.
Variable Date_long : option Z → string.
Variable toLocaleDateString : option Z → string.
Variable Date_plusDays : option Z → Z → option Z.
Variable Date_ymd : Z → Z → Z → option Z.

(** X8: in a monthly summary [fullDays] is the number of entries with
    [punchIn] set and at least 8 hours, and the counts are nested:
    fullDays <= daysWorked <= daysPresent <= number of entries. *)
Theorem monthly_counts_nested (st : Storage) (userEmail : string) (year month : Z) :
  let s := getMonthlySummary Date_parse Date_long toLocaleDateString Date_ymd
             st userEmail year month in
  fullDays s = Some (count full_day (records s)) ∧
  count full_day (records s) <= daysWorked s ∧
  daysWorked s <= daysPresent s ∧
  daysPresent s <= Z.of_nat (length (records s)).
Proof.
  intros s.
  destruct (getMonthlySummary_consistent Date_parse Date_long toLocaleDateString
              Date_ymd st userEmail year month) as (_ & Hw & Hp & Hle & _).
  fold s in Hw, Hp, Hle.
  pose proof (count_chain (records s)) as (_ & Hfw & Hpl).
  rewrite Hw, Hp. split; [|lia].
  subst s. unfold getMonthlySummary. cbv zeta.
  match goal with
  | |- context [fold_left monthly_step ?h ?a] =>
      pose proof (monthly_fold_full h 0%Q 0 0 0) as Hfull;
      destruct (fold_left monthly_step h a) as [[[t w] p] f]
  end.
  simpl in Hfull. simpl. rewrite Hfull. reflexivity.
Qed.

Lemma consistent_totals (s : Summary) :
  consistent worked s →
  (0 <= totalHours s)%Q ∧
  ((0 < totalHours s)%Q ↔ 0 < daysWorked s) ∧
  (0 <= averageHours s)%Q ∧ (averageHours s <= totalHours s)%Q.
Proof.
  intros (Ht & Hw & _ & _ & Havg & Hzero).
  pose proof (sum_hours_worked (records s)) as (H0 & Hpos & Hnil & Hfix).
  rewrite <- Hw in Hpos, Hnil.
  assert (Hcount : 0 <= daysWorked s) by (rewrite Hw; unfold count; lia).
  assert (Htot : (0 <= totalHours s)%Q) by (rewrite Ht; exact H0).
  assert (Hiff : (0 < totalHours s)%Q ↔ 0 < daysWorked s).
  { split.
    - intros Hlt. destruct (Z.eq_dec (daysWorked s) 0) as [Hz|Hnz]; [|lia].
      rewrite Ht, (Hnil Hz) in Hlt. exfalso. revert Hlt. apply Qlt_irrefl.
    - intros Hlt. rewrite Ht. apply Hpos, Hlt. }
  split; [exact Htot|]. split; [exact Hiff|].
  destruct (Z.eq_dec (daysWorked s) 0) as [Hz|Hnz].
  - assert (Ha : (averageHours s == 0)%Q) by (apply Hzero; lia).
    rewrite Ha. split; [apply Qle_refl | exact Htot].
  - assert (Hlt : 0 < daysWorked s) by lia.
    rewrite (Havg Hlt).
    assert (Hn : (1 <= inject_Z (daysWorked s))%Q).
    { change 1%Q with (inject_Z 1). rewrite <- Zle_Qle. lia. }
    assert (Hq0 : (0 <= totalHours s / inject_Z (daysWorked s))%Q).
    { apply Qle_shift_div_l; [lra|]. rewrite Qmult_0_l. exact Htot. }
    assert (Hq1 : (totalHours s / inject_Z (daysWorked s) <= totalHours s)%Q).
    { apply Qle_shift_div_r; [lra|]. nra. }
    split; [apply round64_nonneg, Hq0|].
    assert (Hfix' : (round64 (totalHours s) == totalHours s)%Q)
      by (rewrite Ht, Hfix; reflexivity).
    rewrite <- Hfix' at 2. apply round64_mono, Hq1.
Qed.

(** X9: in every weekly and monthly summary [totalHours] is positive
    exactly when [daysWorked] is, and otherwise 0; [averageHours] lies
    between 0 and [totalHours]. *)
Theorem summary_totals_sign (st : Storage) (userEmail weekStartDate : string)
  (year month : Z) :
  let weekly :=
    getWeeklySummary Date_parse Date_long toLocaleDateString Date_plusDays
      st userEmail weekStartDate in
  let monthly :=
    getMonthlySummary Date_parse Date_long toLocaleDateString Date_ymd
      st userEmail year month in
  ((0 <= totalHours weekly)%Q ∧
   ((0 < totalHours weekly)%Q ↔ 0 < daysWorked weekly) ∧
   (0 <= averageHours weekly)%Q ∧ (averageHours weekly <= totalHours weekly)%Q) ∧
  ((0 <= totalHours monthly)%Q ∧
   ((0 < totalHours monthly)%Q ↔ 0 < daysWorked monthly) ∧
   (0 <= averageHours monthly)%Q ∧ (averageHours monthly <= totalHours monthly)%Q).
Proof.
  intros weekly monthly. split; apply consistent_totals.
  - apply getWeeklySummary_consistent.
  - apply getMonthlySummary_consistent.
Qed.

End SummariesMore.

(** ** The working days of a month, on the reference host *)

Lemma days_from_civil_parts (y m d : Z) :
  RefHost.days_from_civil y m d
  = year_part (if m <=? 2 then y - 1 else y) + month_part m + d - 1 - 719468.
Proof.
  unfold RefHost.days_from_civil, year_part, month_part. cbv zeta. lia.
Qed.

Lemma year_part_leap (y : Z) :
  year_part y - year_part (y - 1) = if RefHost.is_leap y then 366 else 365.
Proof.
  unfold year_part, RefHost.is_leap. cbv zeta.
  destruct (Z.eqb_spec (y mod 4) 0) as [H4|H4];
    destruct (Z.eqb_spec (y mod 100) 0) as [H100|H100];
    destruct (Z.eqb_spec (y mod 400) 0) as [H400|H400];
    cbn [andb orb negb]; Z.div_mod_to_equations; lia.
Qed.

(** The first day of the next month comes [days_in_month] days after the
    first day of a month. *)
Lemma days_from_civil_month (y m : Z) :
  1 <= m <= 12 →
  RefHost.days_from_civil (if m =? 12 then y + 1 else y) (if m =? 12 then 1 else m + 1) 1
  = RefHost.days_from_civil y m 1 + RefHost.days_in_month y m.
Proof.
  intros Hm.
  assert (Hcases : m = 1 ∨ m = 2 ∨ m = 3 ∨ m = 4 ∨ m = 5 ∨ m = 6 ∨ m = 7 ∨ m = 8 ∨
                   m = 9 ∨ m = 10 ∨ m = 11 ∨ m = 12) by lia.
  rewrite !days_from_civil_parts.
  pose proof (year_part_leap y) as Hleap.
  unfold RefHost.days_in_month, month_part.
  repeat (destruct Hcases as [->|Hcases]); [..|subst m];
    simpl Z.eqb; cbn [orb]; cbv iota;
    rewrite ?Z.add_simpl_r;
    repeat match goal with
           | |- context [if ?a <=? ?b then _ else _] =>
               destruct (Z.leb_spec a b); try lia
           end;
    try (destruct (RefHost.is_leap y));
    Z.div_mod_to_equations; lia.
Qed.

Lemma TimeClip_Some (t : Z) :
  Z.abs t <= 8640000000000000 → RefHost.TimeClip t = Some t.
Proof.
  intros Ht. unfold RefHost.TimeClip.
  destruct (Z.leb_spec (Z.abs t) 8640000000000000); [reflexivity | lia].
Qed.

Lemma TimeClip_inv (t v : Z) :
  RefHost.TimeClip t = Some v → v = t ∧ Z.abs t <= 8640000000000000.
Proof.
  unfold RefHost.TimeClip.
  destruct (Z.leb_spec (Z.abs t) 8640000000000000); [|discriminate].
  intros [= <-]. split; [reflexivity | assumption].
Qed.

Lemma Date_ymd_month_span (year month : Z) :
  ∃ y m,
    1 <= m <= 12 ∧
    y = (host_year year * 12 + (month - 1)) / 12 ∧
    RefHost.Date_ymd year (month - 1) 1
    = RefHost.TimeClip (RefHost.days_from_civil y m 1 * RefHost.ms_per_day) ∧
    RefHost.Date_ymd year month 0
    = RefHost.TimeClip
        ((RefHost.days_from_civil y m 1 + RefHost.days_in_month y m - 1)
         * RefHost.ms_per_day).
Proof.
  unfold RefHost.Date_ymd. cbv zeta. fold (host_year year).
  set (M := host_year year * 12 + (month - 1)).
  replace (host_year year * 12 + month) with (M + 1) by (unfold M; lia).
  exists (M / 12), (M mod 12 + 1).
  pose proof (Z.mod_pos_bound M 12 ltac:(lia)) as Hk.
  split; [lia|]. split; [reflexivity|]. split; [f_equal; lia|].
  f_equal. f_equal.
  rewrite <- (days_from_civil_month (M / 12) (M mod 12 + 1)) by lia.
  destruct (Z.eqb_spec (M mod 12 + 1) 12) as [H12|H12].
  - replace ((M + 1) / 12) with (M / 12 + 1) by (Z.div_mod_to_equations; lia).
    replace ((M + 1) mod 12 + 1) with 1 by (Z.div_mod_to_equations; lia).
    lia.
  - replace ((M + 1) / 12) with (M / 12) by (Z.div_mod_to_equations; lia).
    replace ((M + 1) mod 12 + 1) with (M mod 12 + 1 + 1) by (Z.div_mod_to_equations; lia).
    lia.
Qed.

(** Within 250 000 years of the epoch every first of a month is a valid
    date, with room for the rest of the month. *)
Lemma days_from_civil_bound (y m : Z) :
  1 <= m <= 12 → -250000 <= y <= 250000 →
  -99000000 <= RefHost.days_from_civil y m 1 <= 99000000.
Proof.
  intros Hm Hy. rewrite days_from_civil_parts.
  assert (Hmp : 0 <= month_part m <= 337).
  { unfold month_part. destruct (Z.leb_spec m 2); Z.div_mod_to_equations; lia. }
  assert (Hyp : ∀ z, -250001 <= z <= 250000 → -91500000 <= year_part z <= 91500000).
  { intros z Hz. unfold year_part. cbv zeta. Z.div_mod_to_equations. lia. }
  pose proof (Hyp (if m <=? 2 then y - 1 else y) ltac:(destruct (m <=? 2); lia)).
  unfold RefHost.ms_per_day in *. lia.
Qed.

Lemma weekdays_from_mod (d : Z) (n : nat) : weekdays_from d n = weekdays_from (d mod 7) n.
Proof.
  revert d. induction n as [|n IH]; intros d; [reflexivity|].
  cbn [weekdays_from].
  rewrite (IH (d + 1)), (IH (d mod 7 + 1)).
  rewrite Zplus_mod_idemp_l. rewrite (Zplus_mod_idemp_l d 1). reflexivity.
Qed.

(** A month has 8 to 10 weekend days. *)
Lemma weekdays_from_month (d : Z) (n : nat) :
  (28 <= n <= 31)%nat →
  20 <= weekdays_from d n <= 23 ∧
  Z.of_nat n - 10 <= weekdays_from d n <= Z.of_nat n - 8.
Proof.
  intros Hn. rewrite weekdays_from_mod.
  pose proof (Z.mod_pos_bound d 7 ltac:(lia)) as Hr.
  assert (Hcases : d mod 7 = 0 ∨ d mod 7 = 1 ∨ d mod 7 = 2 ∨ d mod 7 = 3 ∨
                   d mod 7 = 4 ∨ d mod 7 = 5 ∨ d mod 7 = 6) by lia.
  assert (Hlen : n = 28%nat ∨ n = 29%nat ∨ n = 30%nat ∨ n = 31%nat) by lia.
  destruct Hlen as [ -> | [ -> | [ -> | -> ] ] ];
    destruct Hcases as [ -> | [ -> | [ -> | [ -> | [ -> | [ -> | -> ] ] ] ] ] ];
    vm_compute; repeat split; discriminate.
Qed.

Lemma workingDays_loop_ref (n fuel : nat) (d acc : Z) :
  (n < fuel)%nat →
  -8640000000000000 <= d * RefHost.ms_per_day →
  (d + Z.of_nat n - 1) * RefHost.ms_per_day <= 8640000000000000 →
  workingDays_loop RefHost.Date_plusDays RefHost_getDay fuel
    (RefHost.TimeClip (d * RefHost.ms_per_day))
    (Some ((d + Z.of_nat n - 1) * RefHost.ms_per_day)) acc
  = Some (acc + weekdays_from d n).
Proof.
  revert fuel d acc. induction n as [|n IH]; intros fuel d acc Hfuel Hlo Hhi.
  - destruct fuel as [|fuel]; [lia|]. cbn [workingDays_loop weekdays_from].
    replace (acc + 0) with acc by lia.
    destruct (RefHost.TimeClip (d * RefHost.ms_per_day)) as [t|] eqn:Ht; [|reflexivity].
    apply TimeClip_inv in Ht as [-> _].
    unfold Date_le, Date_ge.
    destruct (Z.leb_spec (d * RefHost.ms_per_day)
                ((d + Z.of_nat 0 - 1) * RefHost.ms_per_day)) as [Hle|_]; [|reflexivity].
    unfold RefHost.ms_per_day in Hle. lia.
  - destruct fuel as [|fuel]; [lia|].
    rewrite TimeClip_Some by (unfold RefHost.ms_per_day in *; lia).
    cbn [workingDays_loop].
    unfold Date_le, Date_ge.
    destruct (Z.leb_spec (d * RefHost.ms_per_day)
                ((d + Z.of_nat (S n) - 1) * RefHost.ms_per_day)) as [_|Hgt].
    + cbv zeta. unfold RefHost_getDay, RefHost.Date_plusDays.
      rewrite Z.div_mul by (unfold RefHost.ms_per_day; lia).
      replace (d * RefHost.ms_per_day + 1 * RefHost.ms_per_day)
        with ((d + 1) * RefHost.ms_per_day) by lia.
      replace ((d + Z.of_nat (S n) - 1) * RefHost.ms_per_day)
        with ((d + 1 + Z.of_nat n - 1) * RefHost.ms_per_day) in * by lia.
      rewrite IH by (unfold RefHost.ms_per_day in *; lia).
      cbn [weekdays_from]. f_equal.
      destruct (not_weekend (Some ((d + 4) mod 7))); lia.
    + unfold RefHost.ms_per_day in Hgt. lia.
Qed.

Lemma workingDays_loop_invalid (fuel : nat) (date endDate : option Z) :
  (0 < fuel)%nat → date = None ∨ endDate = None →
  workingDays_loop RefHost.Date_plusDays RefHost_getDay fuel date endDate 0 = Some 0.
Proof.
  intros Hfuel Hbad. destruct fuel as [|fuel]; [lia|]. cbn [workingDays_loop].
  unfold Date_le, Date_ge.
  destruct Hbad as [-> | ->]; [destruct endDate | destruct date]; reflexivity.
Qed.

(** X10: on the reference host [getWorkingDaysInMonth] finishes within 32
    iterations.  When the first and the last day of the month are valid
    dates it returns the number of days of that month that are not a
    Saturday or Sunday, which is between 20 and 23 (a month number outside
    1..12 rolls over into the neighbouring years); they are valid for every
    year within 200 000 of the epoch.  When one of them is an Invalid Date,
    as for the year 300 000, the loop does not run and the result is 0. *)
Theorem getWorkingDaysInMonth_weekdays (fuel : nat) (year month : Z)
  (Hfuel : (32 <= fuel)%nat) :
  let startDate := RefHost.Date_ymd year (month - 1) 1 in
  let endDate := RefHost.Date_ymd year month 0 in
  let workingDays :=
    getWorkingDaysInMonth RefHost.Date_ymd RefHost.Date_plusDays RefHost_getDay
      fuel year month in
  (is_Some startDate → is_Some endDate →
     ∃ y m first,
       1 <= m <= 12 ∧
       startDate = Some (first * RefHost.ms_per_day) ∧
       first = RefHost.days_from_civil y m 1 ∧
       workingDays = Some (weekdays_from first (Z.to_nat (RefHost.days_in_month y m))) ∧
       20 <= weekdays_from first (Z.to_nat (RefHost.days_in_month y m)) <= 23) ∧
  (startDate = None ∨ endDate = None → workingDays = Some 0) ∧
  (-200000 <= year <= 200000 → -100000 <= month <= 100000 →
     is_Some startDate ∧ is_Some endDate).
Proof.
  intros startDate endDate workingDays. subst startDate endDate workingDays.
  destruct (Date_ymd_month_span year month) as (y & m & Hm & Hy & Hstart & Hend).
  assert (Hdim : 28 <= RefHost.days_in_month y m <= 31).
  { unfold RefHost.days_in_month.
    destruct (m =? 2); [destruct (RefHost.is_leap y); lia|].
    destruct ((m =? 4) || (m =? 6) || (m =? 9) || (m =? 11)); lia. }
  split; [|split].
  - intros [first Hfirst] [last Hlast].
    exists y, m, (RefHost.days_from_civil y m 1).
    rewrite Hfirst in Hstart. symmetry in Hstart.
    apply TimeClip_inv in Hstart as [-> Hlo].
    rewrite Hlast in Hend. symmetry in Hend.
    apply TimeClip_inv in Hend as [-> Hhi].
    split; [exact Hm|]. split; [exact Hfirst|]. split; [reflexivity|]. split.
    + unfold getWorkingDaysInMonth. cbv zeta. rewrite Hfirst, Hlast.
      rewrite <- (TimeClip_Some _ Hlo).
      replace (RefHost.days_from_civil y m 1 + RefHost.days_in_month y m - 1)
        with (RefHost.days_from_civil y m 1
              + Z.of_nat (Z.to_nat (RefHost.days_in_month y m)) - 1) in * by lia.
      rewrite workingDays_loop_ref by lia. reflexivity.
    + apply weekdays_from_month. lia.
  - intros Hbad. unfold getWorkingDaysInMonth. cbv zeta.
    apply workingDays_loop_invalid; [lia | exact Hbad].
  - intros Hyear Hmonth.
    assert (Hhost : -200000 <= host_year year <= 200000)
      by (unfold host_year; destruct ((0 <=? year) && (year <=? 99)) eqn:H99; lia).
    assert (Hyb : -250000 <= y <= 250000)
      by (rewrite Hy; Z.div_mod_to_equations; lia).
    pose proof (days_from_civil_bound y m Hm Hyb) as Hb.
    rewrite Hstart, Hend, !TimeClip_Some by (unfold RefHost.ms_per_day; lia).
    split; eexists; reflexivity.
Qed.

Lemma getWorkingDaysInMonth_weekdays_witness :
  (∃ w, getWorkingDaysInMonth RefHost.Date_ymd RefHost.Date_plusDays RefHost_getDay
          32 2024 2 = Some w ∧ 20 <= w <= 23) ∧
  getWorkingDaysInMonth RefHost.Date_ymd RefHost.Date_plusDays RefHost_getDay
    32 300000 1 = Some 0.
Proof.
  destruct (getWorkingDaysInMonth_weekdays 32 2024 2 ltac:(lia)) as (Hvalid & _ & Hrange).
  destruct (Hrange ltac:(lia) ltac:(lia)) as [Hs He].
  destruct (Hvalid Hs He) as (y & m & first & _ & _ & _ & Hw & Hbounds).
  split.
  - eexists. split; [exact Hw | exact Hbounds].
  - apply (proj1 (proj2 (getWorkingDaysInMonth_weekdays 32 300000 1 ltac:(lia)))).
    left. reflexivity.
Defined.

Example working_days_february_2024 :
  getWorkingDaysInMonth RefHost.Date_ymd RefHost.Date_plusDays RefHost_getDay 32 2024 2
  = Some 21.
Proof. reflexivity. Qed.

(** ** Live hours *)

(** X11: while a user is punched in, the hours shown by the status are
    the hours a punch-out at that moment records; they are never negative
    and do not decrease as the clock advances. *)
Theorem live_hours_grow (Date_parse : string → option Z) (env1 env2 : Env)
  (st : Storage) (userEmail notes pin : string) (r : AttendanceRecord) (s t1 t2 : Z)
  (Huser : userEmail ≠ "")
  (Hrecord : lookup_record (getAttendanceRecords st) userEmail (getCurrentDate env1)
             = Some r)
  (Hday : getCurrentDate env2 = getCurrentDate env1)
  (Hin : Rec.punchIn r = Some pin) (Hpin : pin ≠ "")
  (Hout : truthy (Rec.punchOut r) = false)
  (Hs : Date_parse ("2000-01-01 " +:+ pin) = Some s)
  (Ht1 : Date_parse ("2000-01-01 " +:+ getCurrentTime env1) = Some t1)
  (Ht2 : Date_parse ("2000-01-01 " +:+ getCurrentTime env2) = Some t2)
  (Hclock : t1 <= t2)
  (Hwrite : setItem_ok env2 = true) :
  ∃ h1 h2,
    as_workingHours (getAttendanceStatus Date_parse env1 st userEmail) = Some (Num h1) ∧
    as_workingHours (getAttendanceStatus Date_parse env2 st userEmail) = Some (Num h2) ∧
    po_workingHours (fst (punchOut Date_parse env2 st userEmail notes)) = Some (Num h2) ∧
    (0 <= h1)%Q ∧ (h1 <= h2)%Q.
Proof.
  destruct (calculateHours_of_parse Date_parse pin (getCurrentTime env1) s t1 Hs Ht1)
    as (h1 & Hh1 & Hms1 & Hpos1 & _).
  destruct (calculateHours_of_parse Date_parse pin (getCurrentTime env2) s t2 Hs Ht2)
    as (h2 & Hh2 & Hms2 & _ & _).
  exists h1, h2.
  assert (Htruthy : truthy (Rec.punchIn r) = true)
    by (apply truthy_true; exists pin; auto).
  assert (Hstatus : ∀ env, getCurrentDate env = getCurrentDate env1 →
    as_workingHours (getAttendanceStatus Date_parse env st userEmail)
    = Some (calculateHours Date_parse pin (getCurrentTime env))).
  { intros env Henv. unfold getAttendanceStatus.
    rewrite getAttendanceRecord_today, Henv, Hrecord, Htruthy, Hout, Hin. reflexivity. }
  split; [rewrite (Hstatus env1 eq_refl); f_equal; exact Hh1|].
  split; [rewrite (Hstatus env2 Hday); f_equal; exact Hh2|].
  split.
  { rewrite <- Hday in Hrecord.
    rewrite (punchOut_writes _ _ _ _ _ _ _ Huser Hrecord Hout Hin Hpin).
    cbv zeta. rewrite Hwrite. simpl. f_equal. exact Hh2. }
  split; [exact Hpos1|].
  rewrite Hms1, Hms2. apply hours_of_ms_mono. lia.
Qed.

Lemma live_hours_grow_witness :
  ∃ h1 h2,
    as_workingHours
      (getAttendanceStatus RefHost.Date_parse Scenario.morning Scenario.at_work
         Scenario.user) = Some (Num h1) ∧
    as_workingHours
      (getAttendanceStatus RefHost.Date_parse Scenario.evening Scenario.at_work
         Scenario.user) = Some (Num h2) ∧
    (h1 <= h2)%Q.
Proof.
  assert (Hu : Scenario.user ≠ "") by discriminate.
  assert (Hr : lookup_record (getAttendanceRecords Scenario.at_work) Scenario.user
                 (getCurrentDate Scenario.morning)
               = Some (punchIn_shell Scenario.morning)) by (vm_compute; reflexivity).
  assert (Hpin : "09:00:00" ≠ "") by discriminate.
  assert (Hclock : 946717200000 <= 946747800000) by lia.
  destruct (live_hours_grow RefHost.Date_parse Scenario.morning Scenario.evening
              Scenario.at_work Scenario.user "" "09:00:00"
              (punchIn_shell Scenario.morning)
              946717200000 946717200000 946747800000
              Hu Hr eq_refl eq_refl Hpin eq_refl eq_refl eq_refl eq_refl Hclock eq_refl)
    as (h1 & h2 & H1 & H2 & _ & _ & Hle).
  exists h1, h2. split; [exact H1|]. split; [exact H2 | exact Hle].
Defined.

(** ** Regular expressions *)

Lemma lang_cat_inv (r s : regex) (w : string) :
  lang (Cat r s) w ↔ ∃ u v, w = u +:+ v ∧ lang r u ∧ lang s v.
Proof.
  split.
  - intros H. inversion H; subst. eauto.
  - intros (u & v & -> & Hu & Hv). constructor; assumption.
Qed.

Lemma lang_alt_inv (r s : regex) (w : string) : lang (Alt r s) w ↔ lang r w ∨ lang s w.
Proof.
  split.
  - intros H. inversion H; subst; auto.
  - intros [H|H]; [apply lang_alt_l | apply lang_alt_r]; exact H.
Qed.

Lemma lang_class_inv (f : ascii → bool) (w : string) :
  lang (Class f) w ↔ ∃ c, w = String c "" ∧ f c = true.
Proof.
  split.
  - intros H. inversion H; subst. eauto.
  - intros (c & -> & Hc). constructor. exact Hc.
Qed.

Lemma lang_eps_inv (w : string) : lang Eps w ↔ w = "".
Proof.
  split; [intros H; inversion H; reflexivity | intros ->; constructor].
Qed.

Lemma lang_void_inv (w : string) : lang Void w ↔ False.
Proof. split; [intros H; inversion H | contradiction]. Qed.

Lemma append_nil_inv (u v : string) : u +:+ v = "" → u = "" ∧ v = "".
Proof. destruct u; [simpl; auto | discriminate]. Qed.

Lemma append_cons_inv (u v w : string) (c : ascii) :
  u +:+ v = String c w →
  (u = "" ∧ v = String c w) ∨ (∃ u', u = String c u' ∧ w = u' +:+ v).
Proof.
  destruct u as [|c' u']; simpl.
  - auto.
  - intros [= -> <-]. right. eauto.
Qed.

Lemma nullable_lang (r : regex) : nullable r = true ↔ lang r "".
Proof.
  induction r as [| |f|r IHr s IHs|r IHr s IHs|r IHr]; simpl.
  - rewrite lang_void_inv. split; [discriminate | contradiction].
  - rewrite lang_eps_inv. split; reflexivity.
  - rewrite lang_class_inv. split; [discriminate | intros (c & Hc & _); discriminate Hc].
  - rewrite andb_true_iff, IHr, IHs, lang_cat_inv. split.
    + intros [Hr Hs]. exists "", "". auto.
    + intros (u & v & Heq & Hu & Hv). symmetry in Heq.
      apply append_nil_inv in Heq as [-> ->]. auto.
  - rewrite orb_true_iff, IHr, IHs, lang_alt_inv. reflexivity.
  - split; [intros _; constructor | reflexivity].
Qed.

(** A non-empty word of [r*] starts with a non-empty word of [r]. *)
Lemma lang_star_cons_inv (r : regex) (c : ascii) (w : string) :
  lang (Star r) (String c w) →
  ∃ u v, w = u +:+ v ∧ lang r (String c u) ∧ lang (Star r) v.
Proof.
  intros H. remember (Star r) as sr eqn:Hsr. remember (String c w) as cw eqn:Hcw.
  revert Hsr w Hcw.
  induction H as [| | | | | |r' u v Hu _ Hv IHv]; intros Hsr w Hcw; try discriminate.
  injection Hsr as ->.
  apply append_cons_inv in Hcw as [[-> ->]|(u' & -> & ->)].
  - apply IHv; reflexivity.
  - exists u', v. auto.
Qed.

Lemma deriv_lang (c : ascii) (r : regex) (w : string) :
  lang (deriv c r) w ↔ lang r (String c w).
Proof.
  revert w. induction r as [| |f|r IHr s IHs|r IHr s IHs|r IHr]; intros w; simpl.
  - rewrite !lang_void_inv. reflexivity.
  - rewrite lang_void_inv, lang_eps_inv. split; [contradiction | discriminate].
  - rewrite lang_class_inv. destruct (f c) eqn:Hf.
    + rewrite lang_eps_inv. split.
      * intros ->. exists c. auto.
      * intros (c' & [= <- ->] & _). reflexivity.
    + rewrite lang_void_inv. split; [contradiction|].
      intros (c' & [= <- ->] & Hc). congruence.
  - assert (Hcat : lang (Cat (deriv c r) s) w ∨ (nullable r = true ∧ lang (deriv c s) w)
                   ↔ lang (Cat r s) (String c w)).
    { rewrite !lang_cat_inv. split.
      - intros [(u & v & -> & Hu & Hv)|[Hn H]].
        + exists (String c u), v. split; [reflexivity|]. split; [apply IHr, Hu | exact Hv].
        + exists "", (String c w). split; [reflexivity|].
          split; [apply nullable_lang, Hn | apply IHs, H].
      - intros (u & v & Heq & Hu & Hv). symmetry in Heq.
        apply append_cons_inv in Heq as [[-> ->]|(u' & -> & ->)].
        + right. split; [apply nullable_lang, Hu | apply IHs, Hv].
        + left. exists u', v. split; [reflexivity|]. split; [apply IHr, Hu | exact Hv]. }
    rewrite <- Hcat. destruct (nullable r).
    + rewrite lang_alt_inv. split.
      * intros [H|H]; [left; exact H | right; split; [reflexivity | exact H]].
      * intros [H|[_ H]]; [left | right]; exact H.
    + split; [intros H; left; exact H | intros [H|[Hn _]]; [exact H | discriminate Hn]].
  - rewrite !lang_alt_inv, IHr, IHs. reflexivity.
  - rewrite lang_cat_inv. split.
    + intros (u & v & -> & Hu & Hv).
      apply IHr in Hu. apply (lang_star_cons r (String c u) v Hu Hv).
    + intros H. apply lang_star_cons_inv in H as (u & v & -> & Hu & Hv).
      exists u, v. split; [reflexivity|]. split; [apply IHr, Hu | exact Hv].
Qed.

(** The matcher decides the language. *)
Lemma matches_lang (r : regex) (w : string) : matches r w = true ↔ lang r w.
Proof.
  revert r. induction w as [|c w IH]; intros r; simpl.
  - apply nullable_lang.
  - rewrite IH. apply deriv_lang.
Qed.

Lemma lang_star_class (f : ascii → bool) (w : string) :
  lang (Star (Class f)) w ↔ string_forall f w = true.
Proof.
  induction w as [|c w IH]; simpl.
  - split; [reflexivity | intros _; constructor].
  - rewrite andb_true_iff, <- IH. split.
    + intros H. apply lang_star_cons_inv in H as (u & v & -> & Hu & Hv).
      inversion Hu; subst. split; assumption.
    + intros [Hc Hw].
      apply (lang_star_cons (Class f) (String c "") w); [constructor; exact Hc | exact Hw].
Qed.

Lemma lang_plus_class (f : ascii → bool) (w : string) :
  lang (Plus (Class f)) w ↔ w ≠ "" ∧ string_forall f w = true.
Proof.
  unfold Plus. rewrite lang_cat_inv. split.
  - intros (u & v & -> & Hu & Hv). apply lang_class_inv in Hu as (c & -> & Hc).
    apply lang_star_class in Hv. change (String c "" +:+ v) with (String c v).
    simpl. rewrite Hc, Hv. split; [discriminate | reflexivity].
  - intros [Hne Hall]. destruct w as [|c w]; [contradiction|].
    simpl in Hall. apply andb_true_iff in Hall as [Hc Hw].
    exists (String c ""), w. split; [reflexivity|].
    split; [constructor; exact Hc | apply lang_star_class, Hw].
Qed.

Lemma lang_star_any (w : string) : lang (Star any_char) w.
Proof.
  apply lang_star_class. induction w as [|c w IH]; [reflexivity | exact IH].
Qed.

Lemma RegExp_test_class (f : ascii → bool) (w : string) :
  RegExp_test (Class f) w = true ↔ string_exists f w = true.
Proof.
  unfold RegExp_test. rewrite matches_lang. induction w as [|c w IH].
  - simpl. split; [|discriminate].
    intros H. apply lang_cat_inv in H as (u & v & Heq & _ & Hv).
    apply lang_cat_inv in Hv as (u' & v' & -> & Hu' & _).
    apply lang_class_inv in Hu' as (c & -> & _).
    symmetry in Heq. apply append_nil_inv in Heq as [_ Heq]. discriminate Heq.
  - simpl string_exists. rewrite orb_true_iff, <- IH. split.
    + intros H. apply lang_cat_inv in H as (u & v & Heq & Hu & Hv).
      symmetry in Heq. apply append_cons_inv in Heq as [[-> ->]|(u' & -> & ->)].
      * apply lang_cat_inv in Hv as (u' & v' & Heq & Hu' & _).
        apply lang_class_inv in Hu' as (c' & -> & Hc').
        injection Heq as -> _. left. exact Hc'.
      * right. apply lang_cat; [apply lang_star_any | exact Hv].
    + intros [Hc|H].
      * apply (lang_cat _ _ "" (String c w)); [constructor|].
        apply (lang_cat _ _ (String c "") w); [constructor; exact Hc | apply lang_star_any].
      * apply lang_cat_inv in H as (u & v & -> & _ & Hv).
        apply (lang_cat _ _ (String c u) v); [apply lang_star_any | exact Hv].
Qed.

(** ** Validation of e-mail addresses and passwords *)

Import Persistence UserHandler.

Lemma ascii_eqb_eq (a c : ascii) : Ascii.eqb a c = true ↔ c = a.
Proof. rewrite Ascii.eqb_eq. split; congruence. Qed.

Lemma validateEmail_shape_lemma (email : string) :
  validateEmail email = true ↔
  ∃ l d t,
    email = l +:+ "@" +:+ d +:+ "." +:+ t ∧
    l ≠ "" ∧ d ≠ "" ∧ t ≠ "" ∧
    string_forall not_space_or_at l = true ∧
    string_forall not_space_or_at d = true ∧
    string_forall not_space_or_at t = true.
Proof.
  unfold validateEmail, emailRegex. rewrite matches_lang, lang_cat_inv. split.
  - intros (l & rest1 & -> & Hl & Hrest).
    apply lang_cat_inv in Hrest as (a & rest2 & -> & Ha & Hrest).
    apply lang_cat_inv in Hrest as (d & rest3 & -> & Hd & Hrest).
    apply lang_cat_inv in Hrest as (b & t & -> & Hb & Ht).
    apply lang_class_inv in Ha as (ca & -> & Hca). apply ascii_eqb_eq in Hca as ->.
    apply lang_class_inv in Hb as (cb & -> & Hcb). apply ascii_eqb_eq in Hcb as ->.
    apply lang_plus_class in Hl as [Hl1 Hl2].
    apply lang_plus_class in Hd as [Hd1 Hd2].
    apply lang_plus_class in Ht as [Ht1 Ht2].
    exists l, d, t. repeat split; assumption.
  - intros (l & d & t & -> & Hl1 & Hd1 & Ht1 & Hl2 & Hd2 & Ht2).
    exists l, ("@" +:+ d +:+ "." +:+ t). split; [reflexivity|].
    split; [apply lang_plus_class; auto|].
    apply (lang_cat _ _ "@"); [constructor; reflexivity|].
    apply lang_cat; [apply lang_plus_class; auto|].
    apply (lang_cat _ _ "."); [constructor; reflexivity|].
    apply lang_plus_class; auto.
Qed.

(** X12: [validateEmail] accepts exactly the strings of the form
    local@domain.tld in which the three parts are non-empty and contain
    neither whitespace nor a further "@" (dots are allowed in each part). *)
Theorem validateEmail_shape (email : string) :
  validateEmail email = true ↔
  ∃ l d t,
    email = l +:+ "@" +:+ d +:+ "." +:+ t ∧
    l ≠ "" ∧ d ≠ "" ∧ t ≠ "" ∧
    string_forall not_space_or_at l = true ∧
    string_forall not_space_or_at d = true ∧
    string_forall not_space_or_at t = true.
Proof. exact (validateEmail_shape_lemma email). Qed.

Lemma validateEmail_shape_witness :
  validateEmail "asha@example.com" = true ∧ validateEmail "asha@example" = false ∧
  validateEmail "asha @example.com" = false.
Proof.
  split; [|split; reflexivity].
  apply (proj2 (validateEmail_shape "asha@example.com")).
  exists "asha", "example", "com". repeat split; discriminate.
Defined.

Lemma validatePassword_rules_lemma (password : string) :
  let long := (6 <=? String.length password)%nat in
  let letter := string_exists is_letter password in
  isValid (validatePassword password) = long && letter ∧
  errors (validatePassword password)
  = (if long then [] else ["Password must be at least 6 characters long"])
    ++ (if letter then [] else ["Password must contain at least one letter"]).
Proof.
  intros long letter. subst long letter. unfold validatePassword. cbv zeta.
  assert (Htest : RegExp_test (Class is_letter) password = string_exists is_letter password).
  { destruct (string_exists is_letter password) eqn:He.
    - apply RegExp_test_class, He.
    - apply not_true_iff_false. rewrite RegExp_test_class. congruence. }
  rewrite Htest.
  destruct (Nat.ltb_spec (String.length password) 6) as [Hlt|Hge];
    destruct (Nat.leb_spec 6 (String.length password)) as [Hle|Hgt]; try lia;
    destruct (string_exists is_letter password); split; reflexivity.
Qed.

(** X13: [validatePassword] accepts a password exactly when it has at
    least 6 characters and contains a letter A-Z or a-z, and it lists one
    message for each rule that is broken, the length rule first. *)
Theorem validatePassword_rules (password : string) :
  let long := (6 <=? String.length password)%nat in
  let letter := string_exists is_letter password in
  isValid (validatePassword password) = long && letter ∧
  errors (validatePassword password)
  = (if long then [] else ["Password must be at least 6 characters long"])
    ++ (if letter then [] else ["Password must contain at least one letter"]).
Proof. exact (validatePassword_rules_lemma password). Qed.

Lemma validatePassword_rules_witness :
  errors (validatePassword "12345")
  = ["Password must be at least 6 characters long";
     "Password must contain at least one letter"].
Proof.
  rewrite (proj2 (validatePassword_rules "12345")). reflexivity.
Defined.

(** ** Registration *)

Lemma no_whitespace_char (c : ascii) : not_space_or_at c = true → is_whitespace c = false.
Proof.
  unfold not_space_or_at. rewrite andb_true_iff, negb_true_iff. intros [H _]. exact H.
Qed.

Lemma toLowerCase_char_class (c : ascii) :
  not_space_or_at c = true → is_whitespace (toLowerCase_char c) = false.
Proof.
  intros Hc. apply no_whitespace_char in Hc. revert Hc.
  destruct c as [[] [] [] [] [] [] [] []]; vm_compute; congruence.
Qed.

Lemma trimEnd_no_whitespace (s : string) :
  string_forall (λ c, negb (is_whitespace c)) s = true → trimEnd s = s.
Proof.
  induction s as [|c s IH]; [reflexivity|].
  simpl. rewrite andb_true_iff, negb_true_iff. intros [Hc Hs].
  rewrite (IH Hs), Hc. destruct s; reflexivity.
Qed.

Lemma trim_no_whitespace (s : string) :
  string_forall (λ c, negb (is_whitespace c)) s = true → trim s = s.
Proof.
  intros Hs. unfold trim.
  assert (Hstart : trimStart s = s).
  { destruct s as [|c s]; [reflexivity|]. simpl in *.
    apply andb_true_iff in Hs as [Hc _]. apply negb_true_iff in Hc.
    rewrite Hc. reflexivity. }
  rewrite Hstart. apply trimEnd_no_whitespace, Hs.
Qed.

Lemma string_forall_app (f : ascii → bool) (u v : string) :
  string_forall f (u +:+ v) = string_forall f u && string_forall f v.
Proof.
  induction u as [|c u IH]; [reflexivity|].
  change (string_forall f (String c (u +:+ v))
          = string_forall f (String c u) && string_forall f v).
  simpl. rewrite IH. apply andb_assoc.
Qed.

Lemma string_forall_lower (s : string) :
  string_forall not_space_or_at s = true →
  string_forall (λ c, negb (is_whitespace c)) (toLowerCase s) = true.
Proof.
  induction s as [|c s IH]; [reflexivity|].
  simpl. rewrite !andb_true_iff. intros [Hc Hs].
  split; [rewrite (toLowerCase_char_class c Hc); reflexivity | apply IH, Hs].
Qed.

Lemma toLowerCase_app (u v : string) :
  toLowerCase (u +:+ v) = toLowerCase u +:+ toLowerCase v.
Proof.
  induction u as [|c u IH]; [reflexivity|].
  change (String (toLowerCase_char c) (toLowerCase (u +:+ v))
          = String (toLowerCase_char c) (toLowerCase u +:+ toLowerCase v)).
  f_equal. exact IH.
Qed.

(** A valid address has no whitespace, also in lower case, so trimming its
    lower-case form changes nothing: an account is stored under its own
    [email] field. *)
Lemma valid_email_key (email : string) :
  validateEmail email = true →
  email ≠ "" ∧ trim (toLowerCase email) = toLowerCase email.
Proof.
  intros Hv. apply validateEmail_shape_lemma in Hv
    as (l & d & t & -> & Hl & _ & _ & Hl2 & Hd2 & Ht2).
  split; [destruct l; [contradiction | discriminate]|].
  apply trim_no_whitespace.
  rewrite !toLowerCase_app, !string_forall_app.
  rewrite (string_forall_lower l Hl2), (string_forall_lower d Hd2),
    (string_forall_lower t Ht2). reflexivity.
Qed.

Lemma register_cases (env : UserEnv) (ls : LocalStorage) (d : UserData) :
  (acceptable ls d ∧
   register env ls d
   = (if ue_users_ok env then
        ({| ur_success := true; ur_message := "Account created successfully";
            ur_user := Some (info (new_account env d) None) |},
         {| ls_users :=
              Some (<[toLowerCase (ud_email d) := new_account env d]> (getUsers ls));
            ls_attendance := ls_attendance ls; ls_settings := ls_settings ls;
            ls_currentUser := ls_currentUser ls |})
      else (user_fail "Failed to create account. Please try again.", ls))) ∨
  (¬ acceptable ls d ∧ ∃ msg, register env ls d = (user_fail msg, ls)).
Proof.
  unfold register, acceptable. cbv zeta.
  destruct (String.eqb_spec (ud_name d) "") as [Hn|Hn];
    [right; split; [tauto | eexists; reflexivity]|].
  destruct (String.eqb_spec (ud_email d) "") as [He|He];
    [right; split; [|eexists; reflexivity]|].
  { intros (_ & _ & _ & Hv & _). rewrite He in Hv. discriminate Hv. }
  destruct (String.eqb_spec (ud_password d) "") as [Hp|Hp];
    [right; split; [|eexists; reflexivity]|].
  { intros (_ & _ & _ & _ & Hlen & _). rewrite Hp in Hlen. simpl in Hlen. lia. }
  destruct (String.eqb_spec (ud_department d) "") as [Hd|Hd];
    [right; split; [tauto | eexists; reflexivity]|].
  destruct (String.eqb_spec (ud_position d) "") as [Hpos|Hpos];
    [right; split; [tauto | eexists; reflexivity]|].
  cbn [orb].
  destruct (validateEmail (ud_email d)) eqn:Hv;
    [|right; split; [intros (_ & _ & _ & Hv' & _); discriminate Hv'
                    | eexists; reflexivity]].
  cbn [negb].
  destruct (validatePassword_rules_lemma (ud_password d)) as [Hvalid _].
  rewrite Hvalid.
  destruct (Nat.leb_spec 6 (String.length (ud_password d))) as [Hlen|Hlen];
    [|right; split; [intros (_ & _ & _ & _ & Hlen' & _); lia | eexists; reflexivity]].
  destruct (string_exists is_letter (ud_password d)) eqn:Hletter;
    [|right; split; [intros (_ & _ & _ & _ & _ & Hl' & _); discriminate Hl'
                    | eexists; reflexivity]].
  cbn [andb negb].
  destruct (getUsers ls !! toLowerCase (ud_email d)) as [u|] eqn:Hu;
    [right; split; [intros (_ & _ & _ & _ & _ & _ & Hu'); discriminate Hu'
                   | eexists; reflexivity]|].
  left. split; [repeat split; assumption|].
  destruct (valid_email_key (ud_email d) Hv) as [_ Htrim].
  unfold generateEmployeeId, setUsers. rewrite Htrim.
  fold (new_account env d). destruct (ue_users_ok env); reflexivity.
Qed.

(** An e-mail address is never the name of an inherited property: it has
    an "@".  The keys the Identity Service hands to the attendance engine
    therefore meet the hypotheses on user keys above. *)
Lemma has_at (l rest : string) :
  string_exists (λ c, Ascii.eqb c "@") (l +:+ "@" +:+ rest) = true.
Proof.
  induction l as [|c l IH]; [reflexivity|].
  change (String c l +:+ "@" +:+ rest) with (String c (l +:+ "@" +:+ rest)).
  cbn [string_exists]. rewrite IH. apply orb_true_r.
Qed.

Lemma email_is_own_key (email : string) :
  validateEmail email = true → inherited_key email = false.
Proof.
  intros Hv. apply validateEmail_shape_lemma in Hv as (l & d & t & -> & _).
  pose proof (has_at l (d +:+ "." +:+ t)) as Hat.
  unfold inherited_key. apply bool_decide_eq_false. intros Hin.
  rewrite !elem_of_cons in Hin. rewrite elem_of_nil in Hin.
  repeat (destruct Hin as [Hin|Hin]; [rewrite Hin in Hat; discriminate Hat|]).
  exact Hin.
Qed.

(** X14: [register] succeeds exactly when name, department and position
    are non-empty, the address is valid, the password has at least 6
    characters and a letter, no account is stored under the lower-case
    address, and the store accepts the write.  It then adds the account
    (trimmed fields, lower-case address, active, never logged in) under the
    lower-case address and changes nothing else; when it fails it changes
    nothing at all. *)
Theorem register_adds_account (env : UserEnv) (ls : LocalStorage) (d : UserData) :
  let res := register env ls d in
  (ur_success (fst res) = true ↔ acceptable ls d ∧ ue_users_ok env = true) ∧
  (ur_success (fst res) = true →
     getUsers (snd res)
     = <[toLowerCase (ud_email d) :=
           {| Usr.id := "EMP" +:+ show (Date_now env) +:+ show (random_1000 env);
              Usr.name := trim (ud_name d);
              Usr.email := toLowerCase (ud_email d);
              Usr.password := ud_password d;
              Usr.department := trim (ud_department d);
              Usr.position := trim (ud_position d);
              Usr.registrationDate := ue_toISOString env;
              Usr.isActive := true;
              Usr.lastLogin := None;
              Usr.lastUpdated := None;
              Usr.deactivatedDate := None;
              Usr.reactivatedDate := None |}]> (getUsers ls) ∧
     ls_attendance (snd res) = ls_attendance ls ∧
     ls_settings (snd res) = ls_settings ls ∧
     ls_currentUser (snd res) = ls_currentUser ls) ∧
  (ur_success (fst res) = false → snd res = ls).
Proof.
  intros res. subst res.
  destruct (register_cases env ls d) as [[Hacc Hreg]|[Hnot (msg & Hreg)]]; rewrite Hreg.
  - destruct (ue_users_ok env); simpl.
    + split; [tauto|]. split; [intros _; repeat split | discriminate].
    + split; [split; [discriminate | intros [_ H]; discriminate H]|].
      split; [discriminate | reflexivity].
  - simpl. split; [split; [discriminate | tauto]|].
    split; [discriminate | reflexivity].
Qed.

(** ** Login *)

Lemma toLowerCase_empty (s : string) : toLowerCase s = "" ↔ s = "".
Proof. destruct s; simpl; split; congruence. Qed.

(** [login] for an account that is stored, active and given its password. *)
Lemma login_accepted (env : UserEnv) (currentUser : option User) (ls : LocalStorage)
  (email password : string) (user : User) :
  email ≠ "" → password ≠ "" →
  getUsers ls !! toLowerCase email = Some user →
  Usr.password user = password → Usr.isActive user = true →
  login env currentUser ls email password
  = let user' := with_lastLogin (ue_toISOString env) user in
    let ls1 := snd (setUsers (ue_users_ok env)
                      (<[toLowerCase email := user']> (getUsers ls)) ls) in
    match saveCurrentUser (ue_session_ok env) user' ls1 with
    | None => (Throws, Some user', ls1)
    | Some ls2 =>
        (Returns {| ur_success := true; ur_message := "Login successful";
                    ur_user := Some (info user' (Some (ue_toISOString env))) |},
         Some user', ls2)
    end.
Proof.
  intros He Hp Hu Hpw Hactive. unfold login.
  rewrite (eqb_empty_false _ He), (eqb_empty_false _ Hp). cbn [orb]. cbv zeta.
  rewrite Hu, Hpw, String.eqb_refl, Hactive. reflexivity.
Qed.

(** X15: a user who has just registered can log in: with the password
    given at registration and the address in any letter case, [login]
    (the session write succeeding) reports success, returns the registered
    identity with the time of this login, and makes the account the
    current user. *)
Theorem registered_user_can_login (env env' : UserEnv) (currentUser : option User)
  (ls : LocalStorage) (d : UserData) (email : string)
  (Hregistered : ur_success (fst (register env ls d)) = true)
  (Hsame : toLowerCase email = toLowerCase (ud_email d))
  (Hsession : ue_session_ok env' = true) :
  ∃ ls',
    login env' currentUser (snd (register env ls d)) email (ud_password d)
    = (Returns
         {| ur_success := true; ur_message := "Login successful";
            ur_user :=
              Some {| ui_id := "EMP" +:+ show (Date_now env) +:+ show (random_1000 env);
                      ui_name := trim (ud_name d);
                      ui_email := toLowerCase (ud_email d);
                      ui_department := trim (ud_department d);
                      ui_position := trim (ud_position d);
                      ui_lastLogin := Some (ue_toISOString env') |} |},
       Some (with_lastLogin (ue_toISOString env') (new_account env d)), ls') ∧
    ls_currentUser ls' = Some (with_lastLogin (ue_toISOString env') (new_account env d)).
Proof.
  destruct (register_cases env ls d) as [[Hacc Hreg]|[_ (msg & Hreg)]];
    rewrite Hreg in Hregistered |- *; [|discriminate Hregistered].
  destruct (ue_users_ok env); [|discriminate Hregistered]. cbn [snd].
  destruct Hacc as (_ & _ & _ & Hvalid & Hlen & _).
  destruct (valid_email_key _ Hvalid) as [Hne _].
  assert (He : email ≠ "").
  { intros ->. simpl in Hsame. symmetry in Hsame.
    apply Hne, (proj1 (toLowerCase_empty _) Hsame). }
  assert (Hp : ud_password d ≠ "").
  { intros Hp. rewrite Hp in Hlen. simpl in Hlen. lia. }
  set (ls1 := {| ls_users := _; ls_attendance := _; ls_settings := _;
                 ls_currentUser := _ |}).
  assert (Hu : getUsers ls1 !! toLowerCase email = Some (new_account env d)).
  { rewrite Hsame. unfold ls1, getUsers. simpl. apply lookup_insert_eq. }
  rewrite (login_accepted env' currentUser ls1 email (ud_password d)
             (new_account env d) He Hp Hu eq_refl eq_refl).
  cbv zeta. unfold saveCurrentUser. rewrite Hsession.
  eexists. split; reflexivity.
Qed.

Lemma login_cases (env : UserEnv) (currentUser : option User) (ls : LocalStorage)
  (email password : string) :
  (∃ msg, login env currentUser ls email password
          = (Returns (user_fail msg), currentUser, ls)) ∨
  (∃ user, email ≠ "" ∧ password ≠ "" ∧
           getUsers ls !! toLowerCase email = Some user ∧
           Usr.password user = password ∧ Usr.isActive user = true).
Proof.
  unfold login.
  destruct (String.eqb_spec email "") as [He|He]; [left; eexists; reflexivity|].
  destruct (String.eqb_spec password "") as [Hp|Hp]; [left; eexists; reflexivity|].
  cbn [orb]. cbv zeta.
  destruct (getUsers ls !! toLowerCase email) as [user|] eqn:Hu;
    [|left; eexists; reflexivity].
  destruct (String.eqb_spec (Usr.password user) password) as [Hpw|Hpw];
    [|left; eexists; reflexivity].
  destruct (Usr.isActive user) eqn:Hactive; [|left; eexists; reflexivity].
  right. exists user. auto.
Qed.

(** X16: a login that returns a failure has changed neither the handler
    nor [localStorage].  The checks come in this order: a missing e-mail or
    password; no account under the lower-case address; a wrong password;
    a deactivated account - so a wrong password is reported as such also for
    a deactivated account. *)
Theorem failed_login_changes_nothing (env : UserEnv) (currentUser : option User)
  (ls : LocalStorage) (email password : string) :
  let res := login env currentUser ls email password in
  (∀ r, fst (fst res) = Returns r → ur_success r = false →
        snd (fst res) = currentUser ∧ snd res = ls) ∧
  (email = "" ∨ password = "" →
     fst (fst res) = Returns (user_fail "Email and password are required")) ∧
  (email ≠ "" → password ≠ "" → getUsers ls !! toLowerCase email = None →
     inherited_key (toLowerCase email) = false →
     fst (fst res) = Returns (user_fail "No account found with this email")) ∧
  (∀ user, email ≠ "" → password ≠ "" →
     getUsers ls !! toLowerCase email = Some user → Usr.password user ≠ password →
     fst (fst res) = Returns (user_fail "Incorrect password")) ∧
  (∀ user, email ≠ "" → password ≠ "" →
     getUsers ls !! toLowerCase email = Some user → Usr.password user = password →
     Usr.isActive user = false →
     fst (fst res)
     = Returns (user_fail "Account is deactivated. Please contact administrator.")).
Proof.
  intros res. subst res. split; [|split; [|split; [|split]]].
  - intros r Hr Hfail.
    destruct (login_cases env currentUser ls email password)
      as [(msg & Hlogin)|(user & He & Hp & Hu & Hpw & Hactive)].
    + rewrite Hlogin. split; reflexivity.
    + rewrite (login_accepted env currentUser ls email password user
                 He Hp Hu Hpw Hactive) in Hr.
      cbv zeta in Hr. destruct (saveCurrentUser _ _ _); simpl in Hr;
        [|discriminate Hr].
      injection Hr as <-. discriminate Hfail.
  - intros Hmissing. unfold login.
    destruct Hmissing as [-> | ->]; [reflexivity|].
    rewrite orb_true_r. reflexivity.
  - intros He Hp Hu _. unfold login.
    rewrite (eqb_empty_false _ He), (eqb_empty_false _ Hp). cbn [orb]. cbv zeta.
    rewrite Hu. reflexivity.
  - intros user He Hp Hu Hpw. unfold login.
    rewrite (eqb_empty_false _ He), (eqb_empty_false _ Hp). cbn [orb]. cbv zeta.
    rewrite Hu. apply String.eqb_neq in Hpw. rewrite Hpw. reflexivity.
  - intros user He Hp Hu Hpw Hactive. unfold login.
    rewrite (eqb_empty_false _ He), (eqb_empty_false _ Hp). cbn [orb]. cbv zeta.
    rewrite Hu, Hpw, String.eqb_refl, Hactive. reflexivity.
Qed.

(** X17: [login] does not look at the outcome of the users write and does
    not guard the session write.  When the users write fails the login
    still succeeds and reports the new lastLogin, which is then not the
    stored one; when the session write fails the call throws, after the
    handler has taken the account as current user and the users object has
    been written. *)
Theorem login_write_failures (env : UserEnv) (currentUser : option User)
  (ls : LocalStorage) (email password : string) (user : User)
  (Hemail : email ≠ "") (Hpassword : password ≠ "")
  (Hstored : getUsers ls !! toLowerCase email = Some user)
  (Hmatch : Usr.password user = password) (Hactive : Usr.isActive user = true) :
  let res := login env currentUser ls email password in
  let user' := with_lastLogin (ue_toISOString env) user in
  (ue_users_ok env = false → ue_session_ok env = true →
     (∃ r, fst (fst res) = Returns r ∧ ur_success r = true ∧
           (ui_lastLogin <$> ur_user r) = Some (Some (ue_toISOString env))) ∧
     ls_users (snd res) = ls_users ls ∧
     ls_currentUser (snd res) = Some user') ∧
  (ue_session_ok env = false →
     fst (fst res) = Throws ∧ snd (fst res) = Some user' ∧
     ls_currentUser (snd res) = ls_currentUser ls ∧
     (ue_users_ok env = true →
        getUsers (snd res) !! toLowerCase email = Some user')).
Proof.
  intros res user'. subst res user'.
  rewrite (login_accepted env currentUser ls email password user
             Hemail Hpassword Hstored Hmatch Hactive).
  cbv zeta. unfold saveCurrentUser, setUsers. split.
  - intros -> ->. simpl. split; [|split; reflexivity].
    eexists. split; [reflexivity|]. split; reflexivity.
  - intros ->. destruct (ue_users_ok env); simpl.
    + repeat split. intros _. unfold getUsers. simpl. apply lookup_insert_eq.
    + repeat split. intros H. discriminate H.
Qed.

(** ** Deactivation *)

Lemma deactivateUser_stored (env : UserEnv) (ls : LocalStorage) (email : string)
  (user : User) :
  getUsers ls !! toLowerCase email = Some user → ue_users_ok env = true →
  deactivateUser env ls email
  = ({| ur_success := true; ur_message := "User account deactivated"; ur_user := None |},
     {| ls_users :=
          Some (<[toLowerCase email :=
                    Usr.mk (Usr.id user) (Usr.name user) (Usr.email user)
                      (Usr.password user) (Usr.department user) (Usr.position user)
                      (Usr.registrationDate user) false (Usr.lastLogin user)
                      (Usr.lastUpdated user) (Some (ue_toISOString env))
                      (Usr.reactivatedDate user)]> (getUsers ls));
        ls_attendance := ls_attendance ls; ls_settings := ls_settings ls;
        ls_currentUser := ls_currentUser ls |}).
Proof.
  intros Hu Hok. unfold deactivateUser. cbv zeta. rewrite Hu.
  unfold setUsers. rewrite Hok. reflexivity.
Qed.

Lemma activateUser_stored (env : UserEnv) (ls : LocalStorage) (email : string)
  (user : User) :
  getUsers ls !! toLowerCase email = Some user → ue_users_ok env = true →
  activateUser env ls email
  = ({| ur_success := true; ur_message := "User account activated"; ur_user := None |},
     {| ls_users :=
          Some (<[toLowerCase email :=
                    Usr.mk (Usr.id user) (Usr.name user) (Usr.email user)
                      (Usr.password user) (Usr.department user) (Usr.position user)
                      (Usr.registrationDate user) true (Usr.lastLogin user)
                      (Usr.lastUpdated user) None
                      (Some (ue_toISOString env))]> (getUsers ls));
        ls_attendance := ls_attendance ls; ls_settings := ls_settings ls;
        ls_currentUser := ls_currentUser ls |}).
Proof.
  intros Hu Hok. unfold activateUser. cbv zeta. rewrite Hu.
  unfold setUsers. rewrite Hok. reflexivity.
Qed.

(** X18: a deactivated account cannot log in, even with its password, and
    the refused login changes nothing; deactivation leaves the saved
    current user alone; activating the account again makes it active,
    removes the deactivation date, keeps the password, and the login goes
    through again. *)
Theorem deactivation_blocks_login (env1 env2 env3 env4 : UserEnv)
  (currentUser : option User) (ls : LocalStorage) (email password : string)
  (user : User)
  (Hemail : email ≠ "") (Hpassword : password ≠ "")
  (Hstored : getUsers ls !! toLowerCase email = Some user)
  (Hmatch : Usr.password user = password)
  (Hwrite1 : ue_users_ok env1 = true) (Hwrite3 : ue_users_ok env3 = true)
  (Hsession : ue_session_ok env4 = true) :
  let ls1 := snd (deactivateUser env1 ls email) in
  let ls2 := snd (activateUser env3 ls1 email) in
  ur_success (fst (deactivateUser env1 ls email)) = true ∧
  login env2 currentUser ls1 email password
  = (Returns (user_fail "Account is deactivated. Please contact administrator."),
     currentUser, ls1) ∧
  ls_currentUser ls1 = ls_currentUser ls ∧
  ur_success (fst (activateUser env3 ls1 email)) = true ∧
  (∃ user2, getUsers ls2 !! toLowerCase email = Some user2 ∧
            Usr.isActive user2 = true ∧ Usr.deactivatedDate user2 = None ∧
            Usr.reactivatedDate user2 = Some (ue_toISOString env3) ∧
            Usr.password user2 = password ∧ Usr.id user2 = Usr.id user) ∧
  (∃ r, fst (fst (login env4 currentUser ls2 email password)) = Returns r ∧
        ur_success r = true).
Proof.
  intros ls1 ls2. subst ls1 ls2.
  rewrite (deactivateUser_stored env1 ls email user Hstored Hwrite1). cbn [fst snd].
  set (off := Usr.mk _ _ _ _ _ _ _ false _ _ _ _).
  set (ls1 := {| ls_users := _; ls_attendance := _; ls_settings := _;
                 ls_currentUser := _ |}).
  assert (Hu1 : getUsers ls1 !! toLowerCase email = Some off).
  { unfold ls1, getUsers. simpl. apply lookup_insert_eq. }
  rewrite (activateUser_stored env3 ls1 email off Hu1 Hwrite3). cbn [fst snd].
  set (on := Usr.mk _ _ _ _ _ _ _ true _ _ _ _).
  set (ls2 := {| ls_users := _; ls_attendance := _; ls_settings := _;
                 ls_currentUser := _ |}).
  assert (Hu2 : getUsers ls2 !! toLowerCase email = Some on).
  { unfold ls2, getUsers. simpl. apply lookup_insert_eq. }
  split; [reflexivity|]. split.
  { unfold login. rewrite (eqb_empty_false _ Hemail), (eqb_empty_false _ Hpassword).
    cbn [orb]. cbv zeta. rewrite Hu1. unfold off. simpl.
    rewrite Hmatch, String.eqb_refl. reflexivity. }
  split; [reflexivity|]. split; [reflexivity|]. split.
  { exists on. split; [exact Hu2|]. unfold on, off. simpl. repeat split. exact Hmatch. }
  rewrite (login_accepted env4 currentUser ls2 email password on
             Hemail Hpassword Hu2 Hmatch eq_refl).
  cbv zeta. unfold saveCurrentUser. rewrite Hsession.
  eexists. split; reflexivity.
Qed.

(** ** Profile updates *)

Lemma all_whitespace_trimStart (s : string) : all_whitespace s = true → trimStart s = "".
Proof.
  induction s as [|c s IH]; [reflexivity|].
  simpl. rewrite andb_true_iff. intros [Hc Hs]. rewrite Hc. apply IH, Hs.
Qed.

Lemma all_whitespace_trim (s : string) : all_whitespace s = true → trim s = "".
Proof.
  intros Hs. unfold trim. rewrite (all_whitespace_trimStart s Hs). reflexivity.
Qed.

(** [updateProfile] either returns a failure and changes nothing, or has
    written the changed account under the current user's address. *)
Lemma updateProfile_cases (env : UserEnv) (currentUser : option User)
  (ls : LocalStorage) (updates : ProfileUpdates) :
  (∃ msg, updateProfile env currentUser ls updates
          = (Returns (user_fail msg), currentUser, ls)) ∨
  (∃ current user,
     currentUser = Some current ∧
     getUsers ls !! Usr.email current = Some user ∧
     ue_users_ok env = true ∧
     let name := field_update (up_name updates) (Usr.name user) in
     let department := field_update (up_department updates) (Usr.department user) in
     let position := field_update (up_position updates) (Usr.position user) in
     let user' :=
       Usr.mk (Usr.id user) (default (Usr.name user) name) (Usr.email user)
         (Usr.password user) (default (Usr.department user) department)
         (default (Usr.position user) position) (Usr.registrationDate user)
         (Usr.isActive user) (Usr.lastLogin user) (Some (ue_toISOString env))
         (Usr.deactivatedDate user) (Usr.reactivatedDate user) in
     let ls1 := {| ls_users := Some (<[Usr.email current := user']> (getUsers ls));
                   ls_attendance := ls_attendance ls; ls_settings := ls_settings ls;
                   ls_currentUser := ls_currentUser ls |} in
     (is_Some name ∨ is_Some department ∨ is_Some position) ∧
     updateProfile env currentUser ls updates
     = if ue_session_ok env then
         (Returns {| ur_success := true; ur_message := "Profile updated successfully";
                     ur_user := Some (info user' None) |},
          Some user',
          {| ls_users := ls_users ls1; ls_attendance := ls_attendance ls1;
             ls_settings := ls_settings ls1; ls_currentUser := Some user' |})
       else (Throws, Some user', ls1)).
Proof.
  unfold updateProfile.
  destruct currentUser as [current|]; [|left; eexists; reflexivity].
  cbv zeta.
  destruct (getUsers ls !! Usr.email current) as [user|] eqn:Hu;
    [|left; eexists; reflexivity].
  destruct (field_update (up_name updates) (Usr.name user)) as [n|] eqn:Hn;
    destruct (field_update (up_department updates) (Usr.department user))
      as [dp|] eqn:Hd;
    destruct (field_update (up_position updates) (Usr.position user)) as [ps|] eqn:Hp;
    cbn [is_Some_bool orb negb];
    try (left; eexists; reflexivity);
    (unfold setUsers; destruct (ue_users_ok env) eqn:Hok;
     [|left; eexists; reflexivity];
     right; exists current, user;
     split; [reflexivity|]; split; [exact Hu|]; split; [reflexivity|];
     rewrite ?Hn, ?Hd, ?Hp; cbv zeta;
     split; [eauto|];
     unfold saveCurrentUser; destruct (ue_session_ok env); reflexivity).
Qed.

(** X19: [updateProfile] never changes who an account is: whatever the
    call, every stored account is still stored afterwards under the same
    key, with the same id, email, password, registration date, active flag
    and last login; and a call that returns a failure has changed nothing
    at all. *)
Theorem updateProfile_keeps_identity (env : UserEnv) (currentUser : option User)
  (ls : LocalStorage) (updates : ProfileUpdates) :
  let res := updateProfile env currentUser ls updates in
  (∀ key u, getUsers ls !! key = Some u →
     ∃ u', getUsers (snd res) !! key = Some u' ∧
           Usr.id u' = Usr.id u ∧ Usr.email u' = Usr.email u ∧
           Usr.password u' = Usr.password u ∧
           Usr.registrationDate u' = Usr.registrationDate u ∧
           Usr.isActive u' = Usr.isActive u ∧ Usr.lastLogin u' = Usr.lastLogin u) ∧
  (∀ r, fst (fst res) = Returns r → ur_success r = false →
        snd (fst res) = currentUser ∧ snd res = ls).
Proof.
  intros res. subst res.
  destruct (updateProfile_cases env currentUser ls updates)
    as [(msg & Hup)|(current & user & -> & Hu & Hok & Hup)].
  - rewrite Hup. split.
    + intros key u Hkey. exists u. repeat split. exact Hkey.
    + intros r _ _. split; reflexivity.
  - cbv zeta in Hup. destruct Hup as [_ Hup]. rewrite Hup. split.
    + intros key u Hkey.
      destruct (decide (key = Usr.email current)) as [->|Hne].
      * rewrite Hu in Hkey. injection Hkey as <-.
        eexists. split.
        -- destruct (ue_session_ok env); unfold getUsers; simpl; apply lookup_insert_eq.
        -- repeat split.
      * exists u. split; [|repeat split].
        destruct (ue_session_ok env); unfold getUsers; simpl;
          rewrite lookup_insert_ne by congruence; exact Hkey.
    + intros r Hr Hfail. destruct (ue_session_ok env); simpl in Hr.
      * injection Hr as <-. discriminate Hfail.
      * discriminate Hr.
Qed.

(** X20: the required-field checks look for the empty string only.  A
    name made of nothing but whitespace passes the check of [register] and
    is stored as the empty name; in [updateProfile] such a value counts as a
    change and erases the stored field. *)
Theorem blank_values_pass_the_checks (env : UserEnv) (ls : LocalStorage)
  (d : UserData) (current user : User) (blank : string)
  (Hacceptable : acceptable ls d) (Hwrite : ue_users_ok env = true)
  (Hblank_name : all_whitespace (ud_name d) = true)
  (Hcurrent : getUsers ls !! Usr.email current = Some user)
  (Hblank : blank ≠ "" ∧ all_whitespace blank = true)
  (Hnamed : Usr.name user ≠ "") :
  (ur_success (fst (register env ls d)) = true ∧
   Usr.name <$> (getUsers (snd (register env ls d)) !! toLowerCase (ud_email d))
   = Some "") ∧
  (Usr.name <$>
     (getUsers
        (snd (updateProfile env (Some current) ls
                {| up_name := Some blank; up_department := None;
                   up_position := None |}))
      !! Usr.email current)
   = Some "").
Proof.
  split.
  - destruct (register_cases env ls d) as [[_ Hreg]|[Hnot _]]; [|contradiction].
    rewrite Hreg, Hwrite. simpl. split; [reflexivity|].
    unfold getUsers. simpl. rewrite lookup_insert_eq. simpl.
    rewrite (all_whitespace_trim _ Hblank_name). reflexivity.
  - destruct Hblank as [Hne Hws].
    assert (Hfield : field_update (Some blank) (Usr.name user) = Some "").
    { assert (Hn : String.eqb "" (Usr.name user) = false)
        by (apply String.eqb_neq; congruence).
      unfold field_update, truthy. change (default "" (Some blank)) with blank.
      rewrite (eqb_empty_false _ Hne), (all_whitespace_trim _ Hws), Hn.
      reflexivity. }
    unfold updateProfile. cbv zeta. rewrite Hcurrent. cbn [up_name up_department up_position].
    rewrite Hfield. cbn [is_Some_bool orb negb].
    unfold setUsers, saveCurrentUser. rewrite Hwrite.
    destruct (ue_session_ok env); unfold getUsers; simpl;
      rewrite lookup_insert_eq; reflexivity.
Qed.

Lemma blank_values_pass_the_checks_witness :
  Usr.name <$>
    (getUsers (snd (register People.signup People.registered People.nameless))
     !! "n@example.com")
  = Some "".
Proof.
  refine (proj2 (proj1 (blank_values_pass_the_checks People.signup People.registered
                          People.nameless
                          (new_account People.signup People.asha)
                          (new_account People.signup People.asha) " " _ _ _ _ _ _))).
  - repeat split; try discriminate; try reflexivity. simpl. lia.
  - reflexivity.
  - reflexivity.
  - vm_compute. reflexivity.
  - split; [discriminate | reflexivity].
  - discriminate.
Defined.

Lemma register_adds_account_witness :
  acceptable People.empty People.asha ∧
  getUsers People.registered !! "asha@example.com"
  = Some (new_account People.signup People.asha).
Proof.
  assert (Hacc : acceptable People.empty People.asha).
  { repeat split; try discriminate; try reflexivity. simpl. lia. }
  split; [exact Hacc|].
  destruct (register_adds_account People.signup People.empty People.asha)
    as (Hiff & Hadds & _).
  destruct (Hadds (proj2 Hiff (conj Hacc eq_refl))) as (Husers & _).
  unfold People.registered. rewrite Husers. apply lookup_insert_eq.
Defined.

Lemma registered_user_can_login_witness :
  ∃ ls', fst (login People.later None People.registered "ASHA@example.COM" "s3cret!")
         = (Returns
              {| ur_success := true; ur_message := "Login successful";
                 ur_user :=
                   Some {| ui_id := "EMP170954280000042";
                           ui_name := "Asha Rao";
                           ui_email := "asha@example.com";
                           ui_department := "Ops";
                           ui_position := "Lead";
                           ui_lastLogin := Some "2024-03-05T09:00:00.000Z" |} |},
            Some (with_lastLogin "2024-03-05T09:00:00.000Z"
                    (new_account People.signup People.asha))) ∧
         ls_currentUser ls'
         = Some (with_lastLogin "2024-03-05T09:00:00.000Z"
                   (new_account People.signup People.asha)).
Proof.
  destruct (registered_user_can_login People.signup People.later None People.empty
              People.asha "ASHA@example.COM" eq_refl eq_refl eq_refl)
    as (ls' & Hlogin & Hsession).
  exists ls'. split; [|exact Hsession].
  change (register People.signup People.empty People.asha) with
    (fst (register People.signup People.empty People.asha), People.registered) in Hlogin.
  cbn [snd] in Hlogin. change (ud_password People.asha) with "s3cret!" in Hlogin.
  rewrite Hlogin. reflexivity.
Defined.

Lemma failed_login_changes_nothing_witness :
  fst (fst (login People.later None People.registered "asha@example.com" "wrong"))
  = Returns (user_fail "Incorrect password").
Proof.
  destruct (failed_login_changes_nothing People.later None People.registered
              "asha@example.com" "wrong") as (_ & _ & _ & Hwrong & _).
  apply (Hwrong (new_account People.signup People.asha)).
  - discriminate.
  - discriminate.
  - vm_compute. reflexivity.
  - discriminate.
Defined.

Lemma login_write_failures_witness :
  fst (fst (login People.quota_exceeded None People.registered "asha@example.com"
              "s3cret!")) = Throws.
Proof.
  refine (proj1 (proj2 (login_write_failures People.quota_exceeded None
                          People.registered "asha@example.com" "s3cret!"
                          (new_account People.signup People.asha) _ _ _ _ _) _)).
  - discriminate.
  - discriminate.
  - vm_compute. reflexivity.
  - reflexivity.
  - reflexivity.
  - reflexivity.
Defined.

Lemma deactivation_blocks_login_witness :
  login People.later None
    (snd (deactivateUser People.later People.registered "asha@example.com"))
    "asha@example.com" "s3cret!"
  = (Returns (user_fail "Account is deactivated. Please contact administrator."),
     None, snd (deactivateUser People.later People.registered "asha@example.com")).
Proof.
  refine (proj1 (proj2 (deactivation_blocks_login People.later People.later People.later
                          People.later None People.registered "asha@example.com"
                          "s3cret!" (new_account People.signup People.asha)
                          _ _ _ _ _ _ _))).
  - discriminate.
  - discriminate.
  - vm_compute. reflexivity.
  - reflexivity.
  - reflexivity.
  - reflexivity.
  - reflexivity.
Defined.

Lemma updateProfile_keeps_identity_witness :
  ∃ u', getUsers
          (snd (updateProfile People.later
                  (Some (new_account People.signup People.asha)) People.registered
                  {| up_name := Some "Asha R."; up_department := None;
                     up_position := None |}))
        !! "asha@example.com" = Some u' ∧
        Usr.password u' = "s3cret!".
Proof.
  destruct (updateProfile_keeps_identity People.later
              (Some (new_account People.signup People.asha)) People.registered
              {| up_name := Some "Asha R."; up_department := None; up_position := None |})
    as (Hkeep & _).
  destruct (Hkeep "asha@example.com" (new_account People.signup People.asha))
    as (u' & Hu' & _ & _ & Hpw & _).
  - vm_compute. reflexivity.
  - exists u'. split; [exact Hu' | exact Hpw].
Defined.

(** ** The whole store *)

(** The getters answer with an object also when the item is missing, so
    the guards of [initializeStorage] never fire. *)
Lemma initializeStorage_idle (w : WriteOutcome) (now : string) (ls : LocalStorage) :
  initializeStorage w now ls = ls.
Proof. reflexivity. Qed.

(** X21: [clearAllData] returns [true] and leaves users, attendance and
    settings empty - the default settings are not written back - but not the
    saved current user.  A handler that loads this user afterwards is logged
    in as someone who has no account: [updateProfile] answers "User not
    found", and no one can log in. *)
Theorem clearAllData_keeps_session (w : WriteOutcome) (now : string) (env : UserEnv)
  (ls : LocalStorage) (current : User) (updates : ProfileUpdates)
  (email password : string)
  (Hsaved : loadCurrentUser ls = Some current)
  (Hown : inherited_key (Usr.email current) = false)
  (Hasked : email ≠ "" ∧ password ≠ "" ∧ inherited_key (toLowerCase email) = false) :
  let ls' := snd (clearAllData w now ls) in
  fst (clearAllData w now ls) = true ∧
  getUsers ls' = ∅ ∧ getAttendance ls' = ∅ ∧ getSettings ls' = ∅ ∧
  isLoggedIn (loadCurrentUser ls') = true ∧
  updateProfile env (loadCurrentUser ls') ls' updates
  = (Returns (user_fail "User not found"), Some current, ls') ∧
  login env (loadCurrentUser ls') ls' email password
  = (Returns (user_fail "No account found with this email"), Some current, ls').
Proof.
  intros ls'. subst ls'. unfold clearAllData. rewrite initializeStorage_idle.
  cbn [fst snd]. unfold loadCurrentUser in *. cbn [ls_currentUser].
  rewrite Hsaved. repeat split.
  destruct Hasked as (He & Hp & _).
  unfold login. rewrite (eqb_empty_false _ He), (eqb_empty_false _ Hp).
  reflexivity.
Qed.

Lemma clearAllData_keeps_session_witness :
  updateProfile People.later
    (loadCurrentUser (snd (clearAllData People.all_ok "2024-03-05T09:00:00.000Z"
                             People.logged_in)))
    (snd (clearAllData People.all_ok "2024-03-05T09:00:00.000Z" People.logged_in))
    {| up_name := Some "Asha R."; up_department := None; up_position := None |}
  = (Returns (user_fail "User not found"),
     Some (with_lastLogin "2024-03-05T09:00:00.000Z"
             (new_account People.signup People.asha)),
     snd (clearAllData People.all_ok "2024-03-05T09:00:00.000Z" People.logged_in)).
Proof.
  refine (proj1 (proj2 (proj2 (proj2 (proj2 (proj2
            (clearAllData_keeps_session People.all_ok "2024-03-05T09:00:00.000Z"
               People.later People.logged_in
               (with_lastLogin "2024-03-05T09:00:00.000Z"
                  (new_account People.signup People.asha))
               {| up_name := Some "Asha R."; up_department := None;
                  up_position := None |}
               "asha@example.com" "s3cret!" _ _ _))))))).
  - vm_compute. reflexivity.
  - reflexivity.
  - repeat split; discriminate.
Defined.

(** X22: [importData] returns [false] only for a missing argument.  For
    any backup object it returns [true], whatever became of the writes: when
    every write fails the store is as before.  A part the backup lacks is
    left alone.  When the writes succeed, importing what [exportData]
    returned restores users and settings as they were and the attendance as
    a read after a write gives it, and leaves the saved current user. *)
Theorem importData_reports_success (w : WriteOutcome) (now : string)
  (data : Backup) (source ls : LocalStorage) :
  importData w None ls = (false, ls) ∧
  fst (importData w (Some data) ls) = true ∧
  (users_ok w = false → attendance_ok w = false → settings_ok w = false →
   importData w (Some data) ls = (true, ls)) ∧
  (bk_users data = None →
   getUsers (snd (importData w (Some data) ls)) = getUsers ls) ∧
  (users_ok w = true → attendance_ok w = true → settings_ok w = true →
   let ls' := snd (importData w (Some (exportData now source)) ls) in
   getUsers ls' = getUsers source ∧
   getAttendance ls' = JSON_roundtrip (getAttendance source) ∧
   getSettings ls' = getSettings source ∧
   ls_currentUser ls' = ls_currentUser ls).
Proof.
  split; [reflexivity|]. split; [reflexivity|]. split; [|split].
  - intros Hu Ha Hs. unfold importData, setUsers, setAttendance, setSettings,
      setAttendanceRecords. rewrite Hu, Ha, Hs.
    destruct ls as [u a s c]. cbn [ls_users ls_attendance ls_settings ls_currentUser].
    destruct (bk_users data), (bk_attendance data), (bk_settings data); reflexivity.
  - intros Hnone. unfold importData, setUsers, setAttendance, setSettings,
      setAttendanceRecords. rewrite Hnone.
    destruct (bk_attendance data), (bk_settings data), (attendance_ok w),
      (settings_ok w); reflexivity.
  - intros Hu Ha Hs ls'. subst ls'.
    unfold importData, exportData, setUsers, setAttendance, setSettings,
      setAttendanceRecords.
    cbn [bk_users bk_attendance bk_settings]. rewrite Hu, Ha, Hs.
    repeat split.
Qed.

Lemma importData_reports_success_witness :
  importData People.all_failing (Some (exportData "2024-03-05T09:00:00.000Z"
                                         People.registered)) People.empty
  = (true, People.empty).
Proof.
  refine (proj1 (proj2 (proj2
            (importData_reports_success People.all_failing "2024-03-05T09:00:00.000Z"
               (exportData "2024-03-05T09:00:00.000Z" People.registered)
               People.registered People.empty))) _ _ _); reflexivity.
Defined.

(** X23: [getStorageStats] counts accounts and, under
    [totalAttendanceRecords], the users that have an attendance dictionary -
    not their records.  A successful [register] raises the first count by
    one; a successful [punchIn] raises the second by one for a user without
    a dictionary and leaves it otherwise. *)
Theorem stats_count_users_not_records (uenv : UserEnv) (env : Env)
  (ls : LocalStorage) (d : UserData) (userEmail : string)
  (Hkey : inherited_key userEmail = false) :
  let reg := register uenv ls d in
  let punched := punchIn env (ls_attendance ls) userEmail in
  let ls' := {| ls_users := ls_users ls; ls_attendance := snd punched;
                ls_settings := ls_settings ls;
                ls_currentUser := ls_currentUser ls |} in
  (ur_success (fst reg) = true →
   totalUsers (getStorageStats (snd reg)) = totalUsers (getStorageStats ls) + 1) ∧
  (pi_success (fst punched) = true →
   totalAttendanceRecords (getStorageStats ls')
   = totalAttendanceRecords (getStorageStats ls)
     + match getAttendance ls !! userEmail with Some _ => 0 | None => 1 end).
Proof.
  intros reg punched ls'. subst reg punched ls'. split.
  - destruct (register_cases uenv ls d) as [[Hacc Hreg]|[_ (msg & Hreg)]];
      rewrite Hreg; [|discriminate].
    destruct (ue_users_ok uenv); [|discriminate]. intros _.
    destruct Hacc as (_ & _ & _ & _ & _ & _ & Hfresh).
    unfold getStorageStats. cbn [snd totalUsers].
    change (getUsers {| ls_users := Some ?m; ls_attendance := _; ls_settings := _;
                        ls_currentUser := _ |}) with m.
    rewrite (map_size_insert_None _ _ _ Hfresh). lia.
  - destruct (punchIn_cases env (ls_attendance ls) userEmail)
      as [[Hfail _]|(_ & _ & _ & _ & Hst)].
    + rewrite Hfail. discriminate.
    + intros _. rewrite Hst.
      unfold getStorageStats, getAttendance.
      cbn [ls_attendance totalAttendanceRecords getAttendanceRecords].
      unfold JSON_roundtrip, store_record. rewrite map_size_fmap.
      destruct (getAttendanceRecords (ls_attendance ls) !! userEmail) eqn:Hu.
      * rewrite map_size_insert_Some by (rewrite Hu; eauto). lia.
      * rewrite (map_size_insert_None _ _ _ Hu). lia.
Qed.

Lemma stats_count_users_not_records_witness :
  totalAttendanceRecords
    (getStorageStats
       {| ls_users := None;
          ls_attendance := snd (punchIn People.next_morning Scenario.ledger
                                  Scenario.user);
          ls_settings := None; ls_currentUser := None |})
  = 1.
Proof.
  refine (proj2 (stats_count_users_not_records People.signup People.next_morning
                   {| ls_users := None; ls_attendance := Scenario.ledger;
                      ls_settings := None; ls_currentUser := None |}
                   People.asha Scenario.user _) _); reflexivity.
Defined.

(** X24: deactivating an account does not end its session.  After a
    login, [deactivateUser] leaves the handler's current user and the saved
    one as they were, still marked active; [updateProfile] goes through for
    the deactivated account, which stays deactivated in the store.  Only
    [logout] ends the session: it clears the handler and the saved user and
    leaves the accounts alone, and the next login is refused. *)
Theorem session_outlives_deactivation (env1 env2 env3 env4 : UserEnv)
  (currentUser : option User) (ls : LocalStorage) (email password newName : string)
  (user : User)
  (Hemail : email ≠ "") (Hpassword : password ≠ "")
  (Hstored : getUsers ls !! toLowerCase email = Some user)
  (Hkey : Usr.email user = toLowerCase email)
  (Hmatch : Usr.password user = password) (Hactive : Usr.isActive user = true)
  (Hwrites : ue_users_ok env1 = true ∧ ue_session_ok env1 = true ∧
             ue_users_ok env2 = true ∧
             ue_users_ok env3 = true ∧ ue_session_ok env3 = true)
  (Hname : newName ≠ "" ∧ trim newName ≠ Usr.name user) :
  let entered := login env1 currentUser ls email password in
  let ls2 := snd (deactivateUser env2 (snd entered) email) in
  let updated :=
    updateProfile env3 (getCurrentUser (snd (fst entered))) ls2
      {| up_name := Some newName; up_department := None; up_position := None |} in
  let left := logout (snd (fst updated)) (snd updated) in
  (isLoggedIn (snd (fst entered)) = true ∧
   loadCurrentUser (snd entered) = snd (fst entered) ∧
   loadCurrentUser ls2 = snd (fst entered) ∧
   Usr.isActive <$> snd (fst entered) = Some true) ∧
  ((∃ r, fst (fst updated) = Returns r ∧ ur_success r = true) ∧
   Usr.isActive <$> (getUsers (snd updated) !! toLowerCase email) = Some false ∧
   Usr.name <$> (getUsers (snd updated) !! toLowerCase email) = Some (trim newName)) ∧
  (isLoggedIn (snd (fst left)) = false ∧
   loadCurrentUser (snd left) = None ∧
   getUsers (snd left) = getUsers (snd updated) ∧
   login env4 (snd (fst left)) (snd left) email password
   = (Returns (user_fail "Account is deactivated. Please contact administrator."),
      None, snd left)).
Proof.
  intros entered ls2 updated left.
  destruct Hwrites as (Hu1 & Hs1 & Hu2 & Hu3 & Hs3). destruct Hname as [Hne Hnew].
  assert (Hentered : entered
                     = login env1 currentUser ls email password) by reflexivity.
  rewrite (login_accepted env1 currentUser ls email password user
             Hemail Hpassword Hstored Hmatch Hactive) in Hentered.
  cbv zeta in Hentered. unfold setUsers, saveCurrentUser in Hentered.
  rewrite Hu1, Hs1 in Hentered. cbn [snd ls_users ls_attendance ls_settings] in Hentered.
  set (user1 := with_lastLogin (ue_toISOString env1) user) in *.
  set (ls1 := {| ls_users := Some (<[toLowerCase email := user1]> (getUsers ls));
                 ls_attendance := ls_attendance ls; ls_settings := ls_settings ls;
                 ls_currentUser := Some user1 |}) in *.
  assert (Hstored1 : getUsers ls1 !! toLowerCase email = Some user1)
    by apply lookup_insert_eq.
  assert (Hls2 : ls2 = snd (deactivateUser env2 ls1 email))
    by (unfold ls2; rewrite Hentered; reflexivity).
  rewrite (deactivateUser_stored env2 ls1 email user1 Hstored1 Hu2) in Hls2.
  cbn [snd] in Hls2.
  set (off := Usr.mk _ _ _ _ _ _ _ false _ _ _ _) in Hls2.
  assert (Hstored2 : getUsers ls2 !! Usr.email user1 = Some off).
  { rewrite Hls2. change (Usr.email user1) with (Usr.email user). rewrite Hkey.
    apply lookup_insert_eq. }
  assert (Hfield : field_update (Some newName) (Usr.name off) = Some (trim newName)).
  { unfold field_update, truthy. change (default "" (Some newName)) with newName.
    rewrite (eqb_empty_false _ Hne).
    assert (Hn : String.eqb (trim newName) (Usr.name off) = false)
      by (apply String.eqb_neq; exact Hnew).
    rewrite Hn. reflexivity. }
  assert (Hupdated : updated
                     = updateProfile env3 (Some user1) ls2
                         {| up_name := Some newName; up_department := None;
                            up_position := None |})
    by (unfold updated; rewrite Hentered; reflexivity).
  unfold updateProfile in Hupdated. cbv zeta in Hupdated.
  rewrite Hstored2 in Hupdated. cbn [up_name up_department up_position] in Hupdated.
  rewrite Hfield in Hupdated. cbn [is_Some_bool orb negb] in Hupdated.
  unfold setUsers, saveCurrentUser in Hupdated. rewrite Hu3, Hs3 in Hupdated.
  cbn [ls_users ls_attendance ls_settings default] in Hupdated.
  change (Usr.email user1) with (Usr.email user) in Hupdated. rewrite Hkey in Hupdated.
  split; [|split].
  - rewrite Hls2, Hentered. repeat split. simpl. rewrite Hactive. reflexivity.
  - rewrite Hupdated. cbn [fst snd]. split; [eexists; split; reflexivity|].
    unfold getUsers. cbn [ls_users]. change (default ∅ (Some ?m)) with m.
    rewrite lookup_insert_eq. split; reflexivity.
  - unfold left. rewrite Hupdated. cbn [fst snd]. unfold logout. cbn [fst snd].
    repeat split.
    unfold login. rewrite (eqb_empty_false _ Hemail), (eqb_empty_false _ Hpassword).
    cbn [orb]. cbv zeta. unfold getUsers. cbn [ls_users].
    change (default ∅ (Some ?m)) with m. rewrite lookup_insert_eq.
    subst off. unfold user1, with_lastLogin. cbn [Usr.password Usr.isActive].
    rewrite Hmatch, String.eqb_refl. reflexivity.
Qed.

Lemma session_outlives_deactivation_witness :
  Usr.isActive <$>
    (getUsers
       (snd (updateProfile People.later
               (getCurrentUser
                  (snd (fst (login People.later None People.registered
                               "asha@example.com" "s3cret!"))))
               (snd (deactivateUser People.later
                       (snd (login People.later None People.registered
                               "asha@example.com" "s3cret!"))
                       "asha@example.com"))
               {| up_name := Some "Asha R."; up_department := None;
                  up_position := None |}))
     !! "asha@example.com")
  = Some false.
Proof.
  refine (proj1 (proj2 (proj1 (proj2
            (session_outlives_deactivation People.later People.later People.later
               People.later None People.registered "asha@example.com" "s3cret!"
               "Asha R." (new_account People.signup People.asha)
               _ _ _ _ _ _ _ _))))).
  - discriminate.
  - discriminate.
  - vm_compute. reflexivity.
  - reflexivity.
  - reflexivity.
  - reflexivity.
  - repeat split.
  - split; discriminate.
Defined.
